(** * ArcRaiders Data API: a shallow embedding of the worker and its properties

    The worker proxies a GitHub-hosted JSON dataset through an edge cache.
    This development embeds the revision of the worker that serves full
    listings with pagination as executable Rocq functions, and settles the
    properties of its specification (claims C1 to C10), followed by further
    properties of the worker (X1 to X19), among them its relation to the
    listing of the earlier revision.

    Modelling conventions.
    - JavaScript numbers that the worker manipulates are integers (results of
      [parseInt], array lengths); they are modelled in [Z].  The embedding
      coincides with the double arithmetic of the runtime on the safe integers
      ([JS.safe]: magnitude below 2^53), where [parseInt], addition,
      subtraction and the printing of a template literal are exact; beyond
      them the runtime rounds, and prints in exponent form from 1e21 on.
      Properties that depend on the value of a number outside a comparison
      with a small constant are stated for safe integers.
    - Strings are UTF-8 byte strings.  All the patterns the worker looks for
      are ASCII, so prefix, suffix and substring tests agree with the
      runtime; [parseInt] skips the white space of the runtime, ASCII or
      not.
    - A JSON document is identified with the value it denotes.
    - The network and the edge cache are explicit: the network is a function
      from URLs to outcomes, the cache a finite map from cache keys (URLs) to
      responses, and every outbound request is logged.  Expiry and eviction
      of cache entries are not modelled: a property that holds for every
      initial cache covers them.
    - [localeCompare] is a parameter of the handlers. *)

From Stdlib Require Import ZArith Ascii String Decimal.
From Stdlib Require Hexadecimal.
From Stdlib Require Import DecimalString DecimalZ Lia Sorted.
From stdpp Require Import gmap strings list.

Local Open Scope Z_scope.
Set Warnings "-register-all".

(** ** The JavaScript built-ins the worker calls *)

Module JS.

(** [String.prototype.startsWith]. *)
Definition startsWith (s p : string) : bool := String.prefix p s.

(** Characters of [s] from index [n] on. *)
Fixpoint string_drop (n : nat) (s : string) : string :=
  match n, s with
  | O, _ => s
  | S n', String _ s' => string_drop n' s'
  | S _, EmptyString => EmptyString
  end.

(** The first [n] characters of [s]. *)
Fixpoint string_take (n : nat) (s : string) : string :=
  match n, s with
  | O, _ => EmptyString
  | S n', String c s' => String c (string_take n' s')
  | S _, EmptyString => EmptyString
  end.

(** [String.prototype.endsWith]. *)
Definition endsWith (s p : string) : bool :=
  let n := String.length s in
  let m := String.length p in
  (m <=? n)%nat && String.eqb (string_drop (n - m) s) p.

(** [String.prototype.replace] with a string pattern: only the first
    occurrence of [pat] is replaced. *)
Fixpoint replace (s pat rep : string) : string :=
  if String.prefix pat s then rep +:+ string_drop (String.length pat) s
  else match s with
       | EmptyString => EmptyString
       | String c s' => String c (replace s' pat rep)
       end.

(** Relative index resolution shared by [Array.prototype.slice] and
    [String.prototype.slice]: a negative index counts from the end, and the
    result is clamped to [0..len]. *)
Definition rel_index (len i : Z) : Z :=
  if i <? 0 then Z.max (len + i) 0 else Z.min i len.

(** [Array.prototype.slice(start, end)]; [end_ = None] is an omitted end. *)
Definition slice {A} (l : list A) (start : Z) (end_ : option Z) : list A :=
  let len := Z.of_nat (length l) in
  let k := rel_index len start in
  let final := match end_ with Some e => rel_index len e | None => len end in
  take (Z.to_nat (final - k)) (drop (Z.to_nat k) l).

(** [String.prototype.slice(start, end)]. *)
Definition string_slice (s : string) (start end_ : Z) : string :=
  let len := Z.of_nat (String.length s) in
  let k := rel_index len start in
  let final := rel_index len end_ in
  string_take (Z.to_nat (final - k)) (string_drop (Z.to_nat k) s).

(** [Number.MAX_SAFE_INTEGER], and the integers a double holds exactly
    together with their neighbours. *)
Definition MAX_SAFE_INTEGER : Z := 2 ^ 53 - 1.

Definition safe (n : Z) : Prop := - MAX_SAFE_INTEGER <= n <= MAX_SAFE_INTEGER.

(** Conversion of an integer to a string, as done by a template literal:
    the decimal digits, which is what the runtime prints for a safe
    integer. *)
Definition show (n : Z) : string := NilZero.string_of_int (Z.to_int n).

(** *** parseInt *)

(** The white space [parseInt] skips is that of [StrWhiteSpaceChar]: the
    ASCII characters TAB, LF, VT, FF, CR and SP, then U+00A0, U+1680,
    U+2000 to U+200A, U+2028, U+2029, U+202F, U+205F, U+3000 and U+FEFF,
    which are two or three bytes long in UTF-8. *)
Definition is_space (c : ascii) : bool :=
  match c with
  | "009" | "010" | "011" | "012" | "013" | " " => true
  | _ => false
  end%char.

(** The first byte of a white space character that is not ASCII. *)
Definition space_lead (c : ascii) : bool :=
  match N_of_ascii c with
  | 194 | 225 | 226 | 227 | 239 => true
  | _ => false
  end%N.

(** U+00A0 is [C2 A0]. *)
Definition is_space2 (c1 c2 : ascii) : bool :=
  ((N_of_ascii c1 =? 194) && (N_of_ascii c2 =? 160))%N.

(** U+1680 is [E1 9A 80]; U+2000 to U+200A, U+2028, U+2029 and U+202F are
    [E2 80 80] to [E2 80 8A], [E2 80 A8], [E2 80 A9] and [E2 80 AF]; U+205F is
    [E2 81 9F]; U+3000 is [E3 80 80]; U+FEFF is [EF BB BF]. *)
Definition is_space3 (c1 c2 c3 : ascii) : bool :=
  let b3 := N_of_ascii c3 in
  match N_of_ascii c1, N_of_ascii c2 with
  | 225, 154 => b3 =? 128
  | 226, 128 => (128 <=? b3) && (b3 <=? 138) || (b3 =? 168) || (b3 =? 169) || (b3 =? 175)
  | 226, 129 => b3 =? 159
  | 227, 128 => b3 =? 128
  | 239, 187 => b3 =? 191
  | _, _ => false
  end%N.

Fixpoint trim_start (s : string) : string :=
  match s with
  | String c s1 =>
      if is_space c then trim_start s1
      else if space_lead c then
        match s1 with
        | String c2 s2 =>
            if is_space2 c c2 then trim_start s2
            else
              match s2 with
              | String c3 s3 => if is_space3 c c2 c3 then trim_start s3 else s
              | EmptyString => s
              end
        | EmptyString => s
        end
      else s
  | EmptyString => EmptyString
  end.

(** The longest prefix of decimal digits, as a decimal numeral. *)
Fixpoint decimal_prefix (s : string) : Decimal.uint :=
  match s with
  | String c s' =>
      match c with
      | "0" => Decimal.D0 (decimal_prefix s')
      | "1" => Decimal.D1 (decimal_prefix s')
      | "2" => Decimal.D2 (decimal_prefix s')
      | "3" => Decimal.D3 (decimal_prefix s')
      | "4" => Decimal.D4 (decimal_prefix s')
      | "5" => Decimal.D5 (decimal_prefix s')
      | "6" => Decimal.D6 (decimal_prefix s')
      | "7" => Decimal.D7 (decimal_prefix s')
      | "8" => Decimal.D8 (decimal_prefix s')
      | "9" => Decimal.D9 (decimal_prefix s')
      | _ => Decimal.Nil
      end%char
  | EmptyString => Decimal.Nil
  end.

(** The longest prefix of hexadecimal digits, as a hexadecimal numeral. *)
Fixpoint hexadecimal_prefix (s : string) : Hexadecimal.uint :=
  match s with
  | String c s' =>
      match c with
      | "0" => Hexadecimal.D0 (hexadecimal_prefix s')
      | "1" => Hexadecimal.D1 (hexadecimal_prefix s')
      | "2" => Hexadecimal.D2 (hexadecimal_prefix s')
      | "3" => Hexadecimal.D3 (hexadecimal_prefix s')
      | "4" => Hexadecimal.D4 (hexadecimal_prefix s')
      | "5" => Hexadecimal.D5 (hexadecimal_prefix s')
      | "6" => Hexadecimal.D6 (hexadecimal_prefix s')
      | "7" => Hexadecimal.D7 (hexadecimal_prefix s')
      | "8" => Hexadecimal.D8 (hexadecimal_prefix s')
      | "9" => Hexadecimal.D9 (hexadecimal_prefix s')
      | "a" | "A" => Hexadecimal.Da (hexadecimal_prefix s')
      | "b" | "B" => Hexadecimal.Db (hexadecimal_prefix s')
      | "c" | "C" => Hexadecimal.Dc (hexadecimal_prefix s')
      | "d" | "D" => Hexadecimal.Dd (hexadecimal_prefix s')
      | "e" | "E" => Hexadecimal.De (hexadecimal_prefix s')
      | "f" | "F" => Hexadecimal.Df (hexadecimal_prefix s')
      | _ => Hexadecimal.Nil
      end%char
  | EmptyString => Hexadecimal.Nil
  end.

(** The digits of [parseInt]'s input once white space and sign are gone:
    radix 16 after a [0x] or [0X] prefix, radix 10 otherwise; [None] is NaN.
    The value is the integer the digits denote, which is the runtime's
    result when it is a safe integer. *)
Definition parse_magnitude (s : string) : option Z :=
  if String.prefix "0x" s || String.prefix "0X" s then
    match hexadecimal_prefix (string_drop 2 s) with
    | Hexadecimal.Nil => None
    | h => Some (Z.of_hex_uint h)
    end
  else
    match decimal_prefix s with
    | Decimal.Nil => None
    | d => Some (Z.of_uint d)
    end.

(** [parseInt(s)] without a radix; [None] is NaN. *)
Definition parseInt_string (s : string) : option Z :=
  match trim_start s with
  | String "-" s' => Z.opp <$> parse_magnitude s'
  | String "+" s' => parse_magnitude s'
  | s' => parse_magnitude s'
  end.

(** [parseInt(v)] where [v] is a string or [null]: [null] converts to the
    string "null", which holds no digit. *)
Definition parseInt (v : option string) : option Z :=
  match v with
  | Some s => parseInt_string s
  | None => None
  end.

(** [n || d] for a number [n]: NaN and zero are falsy. *)
Definition number_or {A} (n : option Z) (f : Z -> A) (d : A) : A :=
  match n with
  | Some z => if z =? 0 then d else f z
  | None => d
  end.

End JS.

(** ** Data model *)

(** JSON values.  Numbers are the integer ones: the worker builds integers
    only and inspects a fetched number only for being zero. *)
Inductive JSON :=
  | JNull
  | JBool (b : bool)
  | JNum (z : Z)
  | JStr (s : string)
  | JArr (items : list JSON)
  | JObj (fields : list (string * JSON)).

(** [Boolean(v)], the predicate of [filter(Boolean)]. *)
Definition Boolean (v : JSON) : bool :=
  match v with
  | JNull => false
  | JBool b => b
  | JNum z => negb (z =? 0)
  | JStr s => negb (String.eqb s "")
  | JArr _ | JObj _ => true
  end.

(** Lookup in an association list keyed by strings. *)
Fixpoint assoc {A} (k : string) (l : list (string * A)) : option A :=
  match l with
  | [] => None
  | (k', v) :: l' => if String.eqb k k' then Some v else assoc k l'
  end.

(** Property access [v.k] on a parsed JSON value: [None] is a TypeError
    (access on [null]), [Some None] is [undefined].  The two properties the
    worker reads, [type] and [name], exist on objects only. *)
Definition get_property (v : JSON) (k : string) : option (option JSON) :=
  match v with
  | JNull => None
  | JObj fields => Some (assoc k fields)
  | _ => Some None
  end.

(** The body of a response: absent, a JSON document, or text that is not
    JSON. *)
Inductive Body :=
  | NoBody
  | Json (doc : JSON)
  | Text (raw : string).

Record Response := mkResponse {
  status : Z;
  headers : gmap string string;
  body : Body;
}.

(** [response.ok]. *)
Definition ok (r : Response) : bool := (200 <=? status r) && (status r <=? 299).

(** [response.headers.set(name, value)]. *)
Definition set_header (name value : string) (r : Response) : Response :=
  mkResponse (status r) (<[name := value]> (headers r)) (body r).

(** What the network does with an outbound request: the promise of [fetch]
    rejects, or it resolves to a response. *)
Inductive FetchResult :=
  | NetworkError
  | Answer (r : Response).

Definition Network := string -> FetchResult.

(** The inbound request, as the worker reads it through [new URL]. *)
Record Request := mkRequest {
  method : string;
  pathname : string;
  searchParams : list (string * string);
}.

(** The world a request runs in: the edge cache ([caches.default]) and the
    log of the outbound requests issued so far (URL and headers). *)
Record World := mkWorld {
  cache : gmap string Response;
  outbound : list (string * list (string * string));
}.

(** ** A state and exception monad for the handlers *)

Inductive Outcome (A : Type) :=
  | Threw (w : World)
  | Returned (a : A) (w : World).
Arguments Threw {A} w.
Arguments Returned {A} a w.

Definition M (A : Type) := World -> Outcome A.

Definition ret {A} (a : A) : M A := fun w => Returned a w.

Definition throw {A} : M A := fun w => Threw w.

Definition bind {A B} (m : M A) (k : A -> M B) : M B :=
  fun w => match m w with
           | Threw w' => Threw w'
           | Returned a w' => k a w'
           end.

Notation "'let*' x ':=' m 'in' k" := (bind m (fun x => k))
  (at level 10, x name, m at level 100, k at level 200).

(** [await cache.match(new Request(key))]. *)
Definition cache_match (key : string) : M (option Response) :=
  fun w => Returned (cache w !! key) w.

(** [ctx.waitUntil(cache.put(new Request(key), response.clone()))]. *)
Definition cache_put (key : string) (r : Response) : M unit :=
  fun w => Returned tt (mkWorld (<[key := r]> (cache w)) (outbound w)).

(** [await fetch(url, { headers })]. *)
Definition fetch_url (net : Network) (url : string) (hs : list (string * string))
  : M Response :=
  fun w =>
    let w' := mkWorld (cache w) (outbound w ++ [(url, hs)]) in
    match net url with
    | NetworkError => Threw w'
    | Answer r => Returned r w'
    end.

(** [await response.json()]: rejects unless the body is a JSON document. *)
Definition json (r : Response) : M JSON :=
  match body r with
  | Json doc => ret doc
  | _ => throw
  end.

(** [await Promise.all(ps)] for promises created in order: every promise is
    started (its requests are issued) whether or not an earlier one rejects,
    and the whole rejects when one does. *)
Fixpoint promise_all {A} (ps : list (M A)) : M (list A) :=
  fun w =>
    match ps with
    | [] => Returned [] w
    | p :: ps' =>
        match p w with
        | Threw w' =>
            match promise_all ps' w' with
            | Threw w'' | Returned _ w'' => Threw w''
            end
        | Returned a w' =>
            match promise_all ps' w' with
            | Threw w'' => Threw w''
            | Returned l w'' => Returned (a :: l) w''
            end
        end
    end.

(** [Array.prototype.filter] with a predicate that may throw ([None]). *)
Fixpoint filter_throwing {A} (p : A -> option bool) (l : list A) : option (list A) :=
  match l with
  | [] => Some []
  | a :: l' =>
      match p a, filter_throwing p l' with
      | Some true, Some k => Some (a :: k)
      | Some false, Some k => Some k
      | _, _ => None
      end
  end.

Definition lift {A} (o : option A) : M A :=
  match o with
  | Some a => ret a
  | None => throw
  end.

(** ** The worker *)

Definition GITHUB_BASE : string :=
  "https://raw.githubusercontent.com/RaidTheory/arcraiders-data/main".
Definition CACHE_TTL : Z := 3600.
Definition STALE_WHILE_REVALIDATE : Z := 86400.

(** The value of a property lookup [TABLE[key]] on an object literal whose own
    values are strings: missing, an own entry, or a member inherited from
    [Object.prototype], kept with its conversion to a string. *)
Inductive Member :=
  | Missing
  | Own (value : string)
  | Inherited (rendering : string).

(** The members of [Object.prototype], each with its string conversion. *)
Definition object_prototype : list (string * string) :=
  [ ("constructor", "function Object() { [native code] }");
    ("__defineGetter__", "function __defineGetter__() { [native code] }");
    ("__defineSetter__", "function __defineSetter__() { [native code] }");
    ("hasOwnProperty", "function hasOwnProperty() { [native code] }");
    ("__lookupGetter__", "function __lookupGetter__() { [native code] }");
    ("__lookupSetter__", "function __lookupSetter__() { [native code] }");
    ("isPrototypeOf", "function isPrototypeOf() { [native code] }");
    ("propertyIsEnumerable", "function propertyIsEnumerable() { [native code] }");
    ("toString", "function toString() { [native code] }");
    ("valueOf", "function valueOf() { [native code] }");
    ("__proto__", "[object Object]");
    ("toLocaleString", "function toLocaleString() { [native code] }") ].

Definition lookup_member (own : list (string * string)) (key : string) : Member :=
  match assoc key own with
  | Some v => Own v
  | None =>
      match assoc key object_prototype with
      | Some r => Inherited r
      | None => Missing
      end
  end.

(** Truthiness of a looked-up member, as tested by [if (TABLE[key])]. *)
Definition present (m : Member) : bool :=
  match m with
  | Missing => false
  | Own v => negb (String.eqb v "")
  | Inherited _ => true
  end.

(** Conversion of a looked-up member inside a template literal. *)
Definition render (m : Member) : string :=
  match m with
  | Missing => "undefined"
  | Own v => v
  | Inherited r => r
  end.

(** Directory-based collections. *)
Definition COLLECTION_TYPES_own : list (string * string) :=
  [ ("items", "items");
    ("hideout", "hideout");
    ("quests", "quests");
    ("map-events", "map-events") ].

Definition COLLECTION_TYPES (type : string) : Member :=
  lookup_member COLLECTION_TYPES_own type.

(** Single-file data types; [skill-nodes] is the alias with a hyphen. *)
Definition SINGLE_FILE_TYPES_own : list (string * string) :=
  [ ("bots", "bots.json");
    ("maps", "maps.json");
    ("projects", "projects.json");
    ("skillNodes", "skillNodes.json");
    ("skill-nodes", "skillNodes.json");
    ("trades", "trades.json") ].

Definition SINGLE_FILE_TYPES (type : string) : Member :=
  lookup_member SINGLE_FILE_TYPES_own type.

(** *** Response helpers *)

Definition jsonResponse (data : JSON) (status : Z) : Response :=
  mkResponse status {[ "Content-Type" := "application/json" ]} (Json data).

Definition error_body (message : string) : JSON := JObj [("error", JStr message)].

Definition addCorsHeaders (response : Response) : Response :=
  let newResponse := response in
  let newResponse := set_header "Access-Control-Allow-Origin" "*" newResponse in
  let newResponse := set_header "Access-Control-Allow-Methods" "GET, OPTIONS" newResponse in
  let newResponse := set_header "Access-Control-Allow-Headers" "Content-Type" newResponse in
  let newResponse :=
    set_header "Strict-Transport-Security"
      "max-age=31536000; includeSubDomains; preload" newResponse in
  let newResponse := set_header "X-Content-Type-Options" "nosniff" newResponse in
  let newResponse := set_header "X-Frame-Options" "DENY" newResponse in
  let newResponse := set_header "X-XSS-Protection" "1; mode=block" newResponse in
  let newResponse :=
    set_header "Referrer-Policy" "strict-origin-when-cross-origin" newResponse in
  newResponse.

Definition handleCors : Response :=
  mkResponse 200
    (<["Access-Control-Allow-Origin" := "*"]>
     (<["Access-Control-Allow-Methods" := "GET, OPTIONS"]>
      (<["Access-Control-Allow-Headers" := "Content-Type"]>
       (<["Access-Control-Max-Age" := "86400"]>
        (<["Strict-Transport-Security" :=
             "max-age=31536000; includeSubDomains; preload"]> ∅)))))
    NoBody.

Definition cache_control : string :=
  "public, max-age=" +:+ JS.show CACHE_TTL +:+
  ", stale-while-revalidate=" +:+ JS.show STALE_WHILE_REVALIDATE.

(** The response that passes an upstream body through. *)
Definition passThrough (githubResponse : Response) : Response :=
  mkResponse 200
    (<["Content-Type" := "application/json"]>
     (<["Cache-Control" := cache_control]> ∅))
    (body githubResponse).

Definition user_agent : string * string := ("User-Agent", "ArcRaiders-API/1.0").

(** *** handleSingleFile *)

Definition singleFileUrl (type : string) : string :=
  GITHUB_BASE +:+ "/" +:+ render (SINGLE_FILE_TYPES type).

Definition handleSingleFile (net : Network) (type : string) : M Response :=
  let githubUrl := singleFileUrl type in
  let cacheKey := githubUrl in
  let* response := cache_match cacheKey in
  match response with
  | Some response => ret (addCorsHeaders response)
  | None =>
      let* githubResponse := fetch_url net githubUrl [user_agent] in
      if negb (ok githubResponse) then
        if status githubResponse =? 404 then
          ret (jsonResponse (error_body ("Data not found: " +:+ type)) 404)
        else ret (jsonResponse (error_body "Failed to fetch data") 502)
      else
        let response := passThrough githubResponse in
        let* _ := cache_put cacheKey response in
        ret (addCorsHeaders response)
  end.

(** *** handleGetItem *)

Definition itemUrl (dirPath id : string) : string :=
  GITHUB_BASE +:+ "/" +:+ dirPath +:+ "/" +:+ id +:+ ".json".

Definition handleGetItem (net : Network) (type id : string) : M Response :=
  if negb (present (COLLECTION_TYPES type)) then
    ret (jsonResponse (error_body ("Unknown collection type: " +:+ type)) 404)
  else
    let githubUrl := itemUrl (render (COLLECTION_TYPES type)) id in
    let cacheKey := githubUrl in
    let* response := cache_match cacheKey in
    match response with
    | Some response => ret (addCorsHeaders response)
    | None =>
        let* githubResponse := fetch_url net githubUrl [user_agent] in
        if negb (ok githubResponse) then
          if status githubResponse =? 404 then
            ret (jsonResponse
                   (error_body (JS.string_slice type 0 (-1) +:+ " not found: " +:+ id))
                   404)
          else ret (jsonResponse (error_body "Failed to fetch data") 502)
        else
          let response := passThrough githubResponse in
          let* _ := cache_put cacheKey response in
          ret (addCorsHeaders response)
    end.

(** *** handleList *)

(** The predicate of the manifest filter,
    [f.type === 'file' && f.name.endsWith('.json') && !f.name.startsWith('_')];
    [None] is a TypeError (an entry that is [null], or a file entry whose
    [name] is not a string). *)
Definition is_json_file (f : JSON) : option bool :=
  match get_property f "type" with
  | None => None
  | Some (Some (JStr t)) =>
      if String.eqb t "file" then
        match get_property f "name" with
        | Some (Some (JStr name)) =>
            Some (JS.endsWith name ".json" && negb (JS.startsWith name "_"))
        | _ => None
        end
      else Some false
  | Some _ => Some false
  end.

(** [f.name.replace('.json', '')] on an entry that passed the filter. *)
Definition file_id (f : JSON) : option string :=
  match get_property f "name" with
  | Some (Some (JStr name)) => Some (JS.replace name ".json" "")
  | _ => None
  end.

Section Sorting.
(** [a.localeCompare(b)]: negative, zero or positive. *)
Variable localeCompare : string -> string -> Z.

Fixpoint insert_sorted (a : string) (l : list string) : list string :=
  match l with
  | [] => [a]
  | b :: l' =>
      if localeCompare a b <=? 0 then a :: b :: l'
      else b :: insert_sorted a l'
  end.

(** [Array.prototype.sort((a, b) => a.localeCompare(b))]: the stable sort. *)
Definition sort (l : list string) : list string := foldr insert_sorted [] l.

(** The identifiers of a directory manifest, [None] when a TypeError is
    raised ([files] is not an array, or the filter throws). *)
Definition allJsonFiles (files : JSON) : option (list string) :=
  match files with
  | JArr fs =>
      match filter_throwing is_json_file fs with
      | Some kept => sort <$> mapM file_id kept
      | None => None
      end
  | _ => None
  end.
End Sorting.

Definition MAX_ITEMS : Z := 45.

(** [limit && limit < MAX_ITEMS ? limit : MAX_ITEMS]; [None] is [undefined]. *)
Definition effectiveLimit (limit : option Z) : Z :=
  match limit with
  | Some l => if negb (l =? 0) && (l <? MAX_ITEMS) then l else MAX_ITEMS
  | None => MAX_ITEMS
  end.

(** The "Apply pagination" step. *)
Definition paginate (allJsonFiles : list string) (offset : Z) : list string :=
  if 0 <? offset then JS.slice allJsonFiles offset None else allJsonFiles.

Definition listingUrl (dirPath : string) : string :=
  "https://api.github.com/repos/RaidTheory/arcraiders-data/contents/" +:+ dirPath.

Definition listCacheKey (dirPath : string) (full : bool) : string :=
  let cacheKeySuffix := if full then "?full=true" else "" in
  listingUrl dirPath +:+ cacheKeySuffix.

(** The callback of [limitedFiles.map(async (id) => ...)]. *)
Definition fetchItem (net : Network) (dirPath id : string) : M JSON :=
  let* itemResponse := fetch_url net (itemUrl dirPath id) [user_agent] in
  if ok itemResponse then json itemResponse else ret JNull.

Definition pageLink (type : string) (offset limit : Z) : string :=
  "/v1/" +:+ type +:+ "?full=true&offset=" +:+ JS.show offset +:+
  "&limit=" +:+ JS.show limit.

(** The [data] object of a full response, pagination hints included. *)
Definition fullData (type : string) (totalItems offset effectiveLimit : Z)
    (itemsData : list JSON) : JSON :=
  JObj ([ ("type", JStr type);
          ("total", JNum totalItems);
          ("count", JNum (Z.of_nat (length (List.filter Boolean itemsData))));
          ("offset", JNum offset);
          ("limit", JNum effectiveLimit);
          ("items", JArr (List.filter Boolean itemsData)) ]
        ++ (if offset + effectiveLimit <? totalItems
            then [("next", JStr (pageLink type (offset + effectiveLimit) effectiveLimit))]
            else [])
        ++ (if 0 <? offset
            then [("prev", JStr (pageLink type (Z.max 0 (offset - effectiveLimit))
                                   effectiveLimit))]
            else [])).

(** The [data] object of a list-only response. *)
Definition listData (type : string) (jsonFiles : list string) : JSON :=
  let items :=
    map (fun id => JObj [("id", JStr id); ("url", JStr ("/v1/" +:+ type +:+ "/" +:+ id))])
        jsonFiles in
  JObj [ ("type", JStr type);
         ("count", JNum (Z.of_nat (length items)));
         ("items", JArr items) ].

Definition handleList (localeCompare : string -> string -> Z) (net : Network)
    (type : string) (full : bool) (limit : option Z) (offset : Z) : M Response :=
  if negb (present (COLLECTION_TYPES type)) then
    ret (jsonResponse (error_body ("Unknown collection type: " +:+ type)) 404)
  else
    let dirPath := render (COLLECTION_TYPES type) in
    let githubApiUrl := listingUrl dirPath in
    let cacheKey := listCacheKey dirPath full in
    let* response := cache_match cacheKey in
    match response with
    | Some response => ret (addCorsHeaders response)
    | None =>
        let* githubResponse :=
          fetch_url net githubApiUrl
            [user_agent; ("Accept", "application/vnd.github.v3+json")] in
        if negb (ok githubResponse) then
          ret (jsonResponse (error_body ("Failed to list " +:+ type)) 502)
        else
          let* files := json githubResponse in
          let* allJsonFiles := lift (allJsonFiles localeCompare files) in
          let totalItems := Z.of_nat (length allJsonFiles) in
          let jsonFiles := paginate allJsonFiles offset in
          let* data :=
            if full then
              let effectiveLimit := effectiveLimit limit in
              let limitedFiles := JS.slice jsonFiles 0 (Some effectiveLimit) in
              let itemPromises := map (fetchItem net dirPath) limitedFiles in
              let* itemsData := promise_all itemPromises in
              ret (fullData type totalItems offset effectiveLimit itemsData)
            else ret (listData type jsonFiles) in
          let response := set_header "Cache-Control" cache_control (jsonResponse data 200) in
          let* _ := cache_put cacheKey response in
          ret (addCorsHeaders response)
    end.

(** *** The router *)

Definition is_lower (c : ascii) : bool :=
  let n := N_of_ascii c in (97 <=? n)%N && (n <=? 122)%N.

Definition is_digit (c : ascii) : bool :=
  let n := N_of_ascii c in (48 <=? n)%N && (n <=? 57)%N.

(** The character class [[a-z-]]. *)
Definition type_char (c : ascii) : bool := is_lower c || Ascii.eqb c "-".

(** The character class [[a-z0-9_-]]. *)
Definition id_char (c : ascii) : bool :=
  is_lower c || is_digit c || Ascii.eqb c "_" || Ascii.eqb c "-".

(** The longest prefix of [s] in a character class, and the rest. *)
Fixpoint span (p : ascii -> bool) (s : string) : string * string :=
  match s with
  | String c s' =>
      if p c then let '(a, b) := span p s' in (String c a, b) else (EmptyString, s)
  | EmptyString => (EmptyString, EmptyString)
  end.

Definition strip_prefix (p s : string) : option string :=
  if String.prefix p s then Some (JS.string_drop (String.length p) s) else None.

(** The tail [\/?$] of both route patterns. *)
Definition optional_slash_end (s : string) : bool :=
  String.eqb s "" || String.eqb s "/".

(** [path.match(/^\/v1\/([a-z-]+)\/?$/)]: the captured type. *)
Definition listMatch (path : string) : option string :=
  match strip_prefix "/v1/" path with
  | Some rest =>
      let '(type, rest) := span type_char rest in
      if negb (String.eqb type "") && optional_slash_end rest then Some type else None
  | None => None
  end.

(** [path.match(/^\/v1\/([a-z-]+)\/([a-z0-9_-]+)\/?$/)]: the captured type
    and id. *)
Definition itemMatch (path : string) : option (string * string) :=
  match strip_prefix "/v1/" path with
  | Some rest =>
      let '(type, rest) := span type_char rest in
      match rest with
      | String "/" rest =>
          let '(id, rest) := span id_char rest in
          if negb (String.eqb type "") && negb (String.eqb id "")
             && optional_slash_end rest
          then Some (type, id) else None
      | _ => None
      end
  | None => None
  end.

(** [url.searchParams.get(name)]: the first value, [None] for [null]. *)
Definition searchParams_get (request : Request) (name : string) : option string :=
  assoc name (searchParams request).

Definition apiInfo : JSON :=
  JObj [ ("name", JStr "ArcRaiders Data API");
         ("version", JStr "1.0.0");
         ("endpoints",
          JObj [ ("bots", JStr "/v1/bots");
                 ("maps", JStr "/v1/maps");
                 ("projects", JStr "/v1/projects");
                 ("skillNodes", JStr "/v1/skill-nodes");
                 ("trades", JStr "/v1/trades");
                 ("items", JStr "/v1/items");
                 ("item", JStr "/v1/items/{item_id}");
                 ("hideout", JStr "/v1/hideout");
                 ("hideoutModule", JStr "/v1/hideout/{module_id}");
                 ("quests", JStr "/v1/quests");
                 ("quest", JStr "/v1/quests/{quest_id}");
                 ("mapEvents", JStr "/v1/map-events");
                 ("mapEvent", JStr "/v1/map-events/{event_id}") ]);
         ("source", JStr "https://github.com/RaidTheory/arcraiders-data") ].

(** The body of the [try] block of [fetch]. *)
Definition route (localeCompare : string -> string -> Z) (net : Network)
    (request : Request) : M Response :=
  let path := pathname request in
  match listMatch path with
  | Some type =>
      if present (SINGLE_FILE_TYPES type) then handleSingleFile net type
      else if present (COLLECTION_TYPES type) then
        let full :=
          match searchParams_get request "full" with
          | Some v => String.eqb v "true"
          | None => false
          end in
        let limit := JS.number_or (JS.parseInt (searchParams_get request "limit")) Some None in
        let offset := JS.number_or (JS.parseInt (searchParams_get request "offset")) id 0 in
        handleList localeCompare net type full limit offset
      else ret (jsonResponse (error_body ("Unknown data type: " +:+ type)) 404)
  | None =>
      match itemMatch path with
      | Some (type, id) => handleGetItem net type id
      | None =>
          if String.eqb path "/v1" || String.eqb path "/v1/" || String.eqb path "/" then
            ret (jsonResponse apiInfo 200)
          else ret (jsonResponse (error_body "Not Found") 404)
      end
  end.

(** The worker's entry point: the response, and the world it leaves. *)
Definition fetch (localeCompare : string -> string -> Z) (net : Network)
    (request : Request) (w : World) : Response * World :=
  if String.eqb (method request) "OPTIONS" then (handleCors, w)
  else
    match route localeCompare net request w with
    | Returned response w' => (response, w')
    | Threw w' => (jsonResponse (error_body "Internal Server Error") 500, w')
    end.

(** ** Observations on responses and on the network *)

(** A top-level field of a JSON response body. *)
Definition data_field (r : Response) (k : string) : option JSON :=
  match body r with
  | Json (JObj fields) => assoc k fields
  | _ => None
  end.

(** The names of the top-level fields of a JSON response body. *)
Definition field_names (r : Response) : list string :=
  match body r with
  | Json (JObj fields) => map fst fields
  | _ => []
  end.

(** The [items] array of a collection response. *)
Definition items_of (r : Response) : list JSON :=
  match data_field r "items" with
  | Some (JArr l) => l
  | _ => []
  end.

(** The [next] link of a full response, if it has one. *)
Definition next_link (r : Response) : option string :=
  match data_field r "next" with
  | Some (JStr href) => Some href
  | _ => None
  end.

(** What one item fetch of a full listing contributes: [None] when the
    callback rejects (network error, or a 2xx body that is not JSON),
    the parsed body on 2xx, the [null] placeholder otherwise. *)
Definition itemOutcome (net : Network) (dirPath id : string) : option JSON :=
  match net (itemUrl dirPath id) with
  | NetworkError => None
  | Answer r =>
      if ok r then match body r with Json doc => Some doc | _ => None end
      else Some JNull
  end.

(** The same, with the placeholder standing for a rejection too. *)
Definition itemValue (net : Network) (dirPath id : string) : JSON :=
  default JNull (itemOutcome net dirPath id).


(** The outbound requests of the item fetches for [ids]. *)
Definition itemRequests (dirPath : string) (ids : list string)
  : list (string * list (string * string)) :=
  map (fun id => (itemUrl dirPath id, [user_agent])) ids.

(** The outbound request of the directory listing. *)
Definition listingRequest (dirPath : string) : string * list (string * string) :=
  (listingUrl dirPath, [user_agent; ("Accept", "application/vnd.github.v3+json")]).

(** The sorted identifiers of a collection, when its directory listing
    succeeds and its manifest can be processed. *)
Definition directory (localeCompare : string -> string -> Z) (net : Network)
    (dirPath : string) : option (list string) :=
  match net (listingUrl dirPath) with
  | NetworkError => None
  | Answer r =>
      if ok r then
        match body r with
        | Json files => allJsonFiles localeCompare files
        | _ => None
        end
      else None
  end.

(** The names of the collection types. *)
Definition collection_type (type : string) : Prop :=
  In type (map fst COLLECTION_TYPES_own).

(** The response of a collection request as stored in the cache. *)
Definition cacheable (data : JSON) : Response :=
  set_header "Cache-Control" cache_control (jsonResponse data 200).

(** The headers that [addCorsHeaders] layers on a response. *)
Definition cors_security_headers : list (string * string) :=
  [ ("Access-Control-Allow-Origin", "*");
    ("Access-Control-Allow-Methods", "GET, OPTIONS");
    ("Access-Control-Allow-Headers", "Content-Type");
    ("Strict-Transport-Security", "max-age=31536000; includeSubDomains; preload");
    ("X-Content-Type-Options", "nosniff");
    ("X-Frame-Options", "DENY");
    ("X-XSS-Protection", "1; mode=block");
    ("Referrer-Policy", "strict-origin-when-cross-origin") ].

(** A response that carries every header [addCorsHeaders] layers. *)
Definition covered (r : Response) : Prop :=
  Forall (fun h => headers r !! h.1 = Some h.2) cors_security_headers.

(** A response that carries [Content-Type] and no other header. *)
Definition bare (r : Response) : Prop :=
  headers r = {[ "Content-Type" := "application/json" ]}.

(** The falsy JSON values. *)
Definition falsy (v : JSON) : Prop :=
  v = JNull \/ v = JBool false \/ v = JNum 0 \/ v = JStr "".

(** An item fetch that failed with a non-2xx status. *)
Definition failed_fetch (res : FetchResult) : Prop :=
  exists r, res = Answer r /\ ok r = false.

(** An item fetch that succeeded with a falsy JSON body. *)
Definition falsy_fetch (res : FetchResult) : Prop :=
  exists r v, res = Answer r /\ ok r = true /\ body r = Json v /\ falsy v.


(** An entry of a well-formed directory manifest: the two fields the worker
    reads. *)
Record Entry := mkEntry {
  entry_name : string;
  entry_type : string;
}.

Definition json_of_entry (e : Entry) : JSON :=
  JObj [("name", JStr (entry_name e)); ("type", JStr (entry_type e))].

(** The entries the manifest filter keeps. *)
Definition kept (e : Entry) : bool :=
  String.eqb (entry_type e) "file"
  && JS.endsWith (entry_name e) ".json"
  && negb (JS.startsWith (entry_name e) "_").

(** The alias table of the single-file types: (alias, canonical name). *)
Definition aliases : list (string * string) := [("skill-nodes", "skillNodes")].

(** The world an outcome leaves. *)
Definition world_of {A} (o : Outcome A) : World :=
  match o with
  | Threw w => w
  | Returned _ w => w
  end.

(** The keys under which the cache holds an entry. *)
Definition cache_keys (w : World) : list string := map fst (map_to_list (cache w)).

(** ** Following pagination links *)

(** Whether [c] occurs in [s]. *)
Fixpoint contains (c : ascii) (s : string) : bool :=
  match s with
  | EmptyString => false
  | String a s' => Ascii.eqb a c || contains c s'
  end.

(** [s] cut at the first occurrence of [c]. *)
Fixpoint cut (c : ascii) (s : string) : string * option string :=
  match s with
  | EmptyString => (EmptyString, None)
  | String a s' =>
      if Ascii.eqb a c then (EmptyString, Some s')
      else let '(l, r) := cut c s' in (String a l, r)
  end.

(** [s] split at every occurrence of [c]. *)
Fixpoint split_on (c : ascii) (s : string) : list string :=
  match s with
  | EmptyString => [EmptyString]
  | String a s' =>
      if Ascii.eqb a c then EmptyString :: split_on c s'
      else match split_on c s' with
           | h :: t => String a h :: t
           | [] => [String a EmptyString]
           end
  end.

Definition parse_pair (s : string) : string * string :=
  match cut "=" s with
  | (k, Some v) => (k, v)
  | (k, None) => (k, EmptyString)
  end.

(** The GET request a client issues for a relative link [path?query], as the
    runtime's URL parser presents it to the worker.  Links built by the worker
    hold unreserved characters only, so no percent-decoding is involved. *)
Definition request_of_href (href : string) : Request :=
  match cut "?" href with
  | (path, Some query) =>
      mkRequest "GET" path
        (map parse_pair
             (List.filter (fun s => negb (String.eqb s "")) (split_on "&" query)))
  | (path, None) => mkRequest "GET" path []
  end.

(** A query that asks for the full page at [offset] with effective limit
    [L], as the router reads it. *)
Definition page_query (q : list (string * string)) (L offset : Z) : Prop :=
  assoc "full" q = Some "true" /\
  effectiveLimit (JS.number_or (JS.parseInt (assoc "limit" q)) Some None) = L /\
  JS.number_or (JS.parseInt (assoc "offset" q)) id 0 = offset.

(** The first page of a full listing, requested with an optional limit. *)
Definition first_page (type : string) (limit : option Z) : Request :=
  mkRequest "GET" ("/v1/" +:+ type)
    (("full", "true") ::
     match limit with Some l => [("limit", JS.show l)] | None => [] end).

(** The pages a client collects by following [next] from [request], at most
    [fuel] of them; [between] is what happens to the world between two
    requests (nothing, or the expiry of cache entries).  [None]: the chain
    is longer than [fuel]. *)
Fixpoint follow_next (localeCompare : string -> string -> Z) (net : Network)
    (between : World -> World) (fuel : nat) (request : Request) (w : World)
  : option (list Response) :=
  match fuel with
  | O => None
  | S fuel' =>
      let '(response, w') := fetch localeCompare net request w in
      match next_link response with
      | None => Some [response]
      | Some href =>
          cons response <$>
            follow_next localeCompare net between fuel'
              (request_of_href href) (between w')
      end
  end.

(** Expiry of every cache entry. *)
Definition expire (w : World) : World := mkWorld ∅ (outbound w).

(** ** Plans: what a request does, as a function of the network alone *)

(** What a handler computes when its cache key is absent: it rejects, it
    answers with an error that is not stored, or it stores a response and
    answers with it; [log] lists the outbound requests issued on the way. *)
Inductive Fresh :=
  | Rejects (log : list (string * list (string * string)))
  | Fails (r : Response) (log : list (string * list (string * string)))
  | Stores (r : Response) (log : list (string * list (string * string))).

(** A request is answered at once, or through the cache under one key. *)
Inductive Plan :=
  | Immediate (r : Response)
  | CacheAside (key : string) (fresh : Fresh).

(** The outbound requests of a computation that misses the cache. *)
Definition fresh_log (fresh : Fresh) : list (string * list (string * string)) :=
  match fresh with
  | Rejects log | Fails _ log | Stores _ log => log
  end.

Definition run_plan (p : Plan) : M Response :=
  fun w =>
    match p with
    | Immediate r => Returned r w
    | CacheAside key fresh =>
        match cache w !! key with
        | Some cached => Returned (addCorsHeaders cached) w
        | None =>
            let log := outbound w ++ fresh_log fresh in
            match fresh with
            | Rejects _ => Threw (mkWorld (cache w) log)
            | Fails r _ => Returned r (mkWorld (cache w) log)
            | Stores r _ =>
                Returned (addCorsHeaders r) (mkWorld (<[key := r]> (cache w)) log)
            end
        end
    end.

(** The pass-through of an upstream file: [notFound] is the message of the
    404, which differs between the two handlers. *)
Definition freshFile (net : Network) (url notFound : string) : Fresh :=
  let log := [(url, [user_agent])] in
  match net url with
  | NetworkError => Rejects log
  | Answer upstream =>
      if ok upstream then Stores (passThrough upstream) log
      else if status upstream =? 404 then
        Fails (jsonResponse (error_body notFound) 404) log
      else Fails (jsonResponse (error_body "Failed to fetch data") 502) log
  end.

Definition planSingleFile (net : Network) (type : string) : Plan :=
  CacheAside (singleFileUrl type)
    (freshFile net (singleFileUrl type) ("Data not found: " +:+ type)).

Definition planGetItem (net : Network) (type id : string) : Plan :=
  if negb (present (COLLECTION_TYPES type)) then
    Immediate (jsonResponse (error_body ("Unknown collection type: " +:+ type)) 404)
  else
    let url := itemUrl (render (COLLECTION_TYPES type)) id in
    CacheAside url
      (freshFile net url (JS.string_slice type 0 (-1) +:+ " not found: " +:+ id)).

Definition freshList (localeCompare : string -> string -> Z) (net : Network)
    (type dirPath : string) (full : bool) (limit : option Z) (offset : Z) : Fresh :=
  let log := [listingRequest dirPath] in
  match net (listingUrl dirPath) with
  | NetworkError => Rejects log
  | Answer upstream =>
      if ok upstream then
        match body upstream with
        | Json files =>
            match allJsonFiles localeCompare files with
            | Some ids =>
                let jsonFiles := paginate ids offset in
                if full then
                  let limitedFiles := JS.slice jsonFiles 0 (Some (effectiveLimit limit)) in
                  let log' := log ++ itemRequests dirPath limitedFiles in
                  match mapM (itemOutcome net dirPath) limitedFiles with
                  | Some itemsData =>
                      Stores
                        (cacheable
                           (fullData type (Z.of_nat (length ids)) offset
                              (effectiveLimit limit) itemsData))
                        log'
                  | None => Rejects log'
                  end
                else Stores (cacheable (listData type jsonFiles)) log
            | None => Rejects log
            end
        | _ => Rejects log
        end
      else Fails (jsonResponse (error_body ("Failed to list " +:+ type)) 502) log
  end.

Definition planList (localeCompare : string -> string -> Z) (net : Network)
    (type : string) (full : bool) (limit : option Z) (offset : Z) : Plan :=
  if negb (present (COLLECTION_TYPES type)) then
    Immediate (jsonResponse (error_body ("Unknown collection type: " +:+ type)) 404)
  else
    let dirPath := render (COLLECTION_TYPES type) in
    CacheAside (listCacheKey dirPath full)
      (freshList localeCompare net type dirPath full limit offset).

(** The query parameters of a collection request, as the router reads them. *)
Definition query_full (request : Request) : bool :=
  match searchParams_get request "full" with
  | Some v => String.eqb v "true"
  | None => false
  end.

Definition query_limit (request : Request) : option Z :=
  JS.number_or (JS.parseInt (searchParams_get request "limit")) Some None.

Definition query_offset (request : Request) : Z :=
  JS.number_or (JS.parseInt (searchParams_get request "offset")) id 0.

(** The plan of a request that is not a preflight. *)
Definition planRoute (localeCompare : string -> string -> Z) (net : Network)
    (request : Request) : Plan :=
  let path := pathname request in
  match listMatch path with
  | Some type =>
      if present (SINGLE_FILE_TYPES type) then planSingleFile net type
      else if present (COLLECTION_TYPES type) then
        planList localeCompare net type (query_full request) (query_limit request)
          (query_offset request)
      else Immediate (jsonResponse (error_body ("Unknown data type: " +:+ type)) 404)
  | None =>
      match itemMatch path with
      | Some (type, id) => planGetItem net type id
      | None =>
          if String.eqb path "/v1" || String.eqb path "/v1/" || String.eqb path "/" then
            Immediate (jsonResponse apiInfo 200)
          else Immediate (jsonResponse (error_body "Not Found") 404)
      end
  end.

(** The cache key a request is served under, if it is served through the
    cache. *)
Definition cacheKey (request : Request) : option string :=
  let path := pathname request in
  match listMatch path with
  | Some type =>
      if present (SINGLE_FILE_TYPES type) then Some (singleFileUrl type)
      else if present (COLLECTION_TYPES type) then
        Some (listCacheKey (render (COLLECTION_TYPES type)) (query_full request))
      else None
  | None =>
      match itemMatch path with
      | Some (type, id) =>
          if present (COLLECTION_TYPES type)
          then Some (itemUrl (render (COLLECTION_TYPES type)) id)
          else None
      | None => None
      end
  end.

(** What the worker stores: a 200 with the JSON content type and the
    caching directive. *)
Definition stored_ok (r : Response) : Prop :=
  status r = 200 /\
  headers r !! "Content-Type" = Some "application/json" /\
  headers r !! "Cache-Control" = Some cache_control.

(** A cache that holds such responses only. *)
Definition cache_ok (w : World) : Prop :=
  forall key r, cache w !! key = Some r -> stored_ok r.

Definition fresh_ok (fresh : Fresh) : Prop :=
  match fresh with
  | Rejects _ => True
  | Fails r _ => (status r = 404 \/ status r = 502) /\ bare r
  | Stores r _ => stored_ok r
  end.

Definition plan_key (p : Plan) : option string :=
  match p with
  | Immediate _ => None
  | CacheAside key _ => Some key
  end.

Definition plan_ok (p : Plan) : Prop :=
  match p with
  | Immediate r => r = jsonResponse apiInfo 200 \/ (status r = 404 /\ bare r)
  | CacheAside _ fresh => fresh_ok fresh
  end.

(** ** The route grammar *)

(** Every character of [s] is in the class [p]. *)
Fixpoint all_chars (p : ascii -> bool) (s : string) : bool :=
  match s with
  | EmptyString => true
  | String c s' => p c && all_chars p s'
  end.

(** A type name of the route grammar: [[a-z-]+]. *)
Definition type_name (t : string) : Prop :=
  t <> "" /\ all_chars type_char t = true.

(** An item identifier of the route grammar: [[a-z0-9_-]+]. *)
Definition id_name (i : string) : Prop :=
  i <> "" /\ all_chars id_char i = true.



(** The type names the tables serve through the list route. *)
Definition served_types : list string :=
  ["bots"; "maps"; "projects"; "skill-nodes"; "trades";
   "items"; "hideout"; "quests"; "map-events"].

(** ** Manifests that cannot be processed *)

(** A manifest entry on which the filter raises a TypeError: [null], or an
    object whose [type] is "file" and whose [name] is not a string. *)
Definition throwing_entry (f : JSON) : bool :=
  match f with
  | JNull => true
  | JObj fields =>
      match assoc "type" fields with
      | Some (JStr t) =>
          String.eqb t "file" &&
          match assoc "name" fields with
          | Some (JStr _) => false
          | _ => true
          end
      | _ => false
      end
  | _ => false
  end.

(** The body of a directory listing on which [handleList] raises: it is not
    JSON, not an array, or it holds a throwing entry. *)
Definition unusable_manifest (b : Body) : bool :=
  match b with
  | Json (JArr fs) => existsb throwing_entry fs
  | _ => true
  end.

(** ** The listing of the earlier revision *)

(** [handleList] as it was before pagination and full pages were added
    (src/src/index.js): the kept manifest entries are mapped to
    [{id, url}] objects, which are then sorted by [id]. *)
Module Legacy.

Definition CACHE_TTL : Z := 300.

Definition cache_control : string := "public, max-age=" +:+ JS.show CACHE_TTL.

(** The callback of [.map((f) => ({ id: ..., url: ... }))]. *)
Definition item_of (type : string) (f : JSON) : option (string * string) :=
  match get_property f "name" with
  | Some (Some (JStr name)) =>
      Some (JS.replace name ".json" "",
            "/v1/" +:+ type +:+ "/" +:+ JS.replace name ".json" "")
  | _ => None
  end.

Section Sorting.
Variable localeCompare : string -> string -> Z.

Fixpoint insert_sorted (a : string * string) (l : list (string * string))
  : list (string * string) :=
  match l with
  | [] => [a]
  | b :: l' =>
      if localeCompare a.1 b.1 <=? 0 then a :: b :: l'
      else b :: insert_sorted a l'
  end.

(** [.sort((a, b) => a.id.localeCompare(b.id))]. *)
Definition sort (l : list (string * string)) : list (string * string) :=
  foldr insert_sorted [] l.

Definition items (type : string) (files : JSON) : option (list (string * string)) :=
  match files with
  | JArr fs =>
      match filter_throwing is_json_file fs with
      | Some kept => sort <$> mapM (item_of type) kept
      | None => None
      end
  | _ => None
  end.
End Sorting.

Definition listData (type : string) (items : list (string * string)) : JSON :=
  JObj [ ("type", JStr type);
         ("count", JNum (Z.of_nat (length items)));
         ("items",
          JArr (map (fun item => JObj [("id", JStr item.1); ("url", JStr item.2)]) items)) ].

Definition handleList (localeCompare : string -> string -> Z) (net : Network)
    (type : string) : M Response :=
  if negb (present (COLLECTION_TYPES type)) then
    ret (jsonResponse (error_body ("Unknown collection type: " +:+ type)) 404)
  else
    let dirPath := render (COLLECTION_TYPES type) in
    let githubApiUrl := listingUrl dirPath in
    let cacheKey := githubApiUrl in
    let* response := cache_match cacheKey in
    match response with
    | Some response => ret (addCorsHeaders response)
    | None =>
        let* githubResponse :=
          fetch_url net githubApiUrl
            [user_agent; ("Accept", "application/vnd.github.v3+json")] in
        if negb (ok githubResponse) then
          ret (jsonResponse (error_body ("Failed to list " +:+ type)) 502)
        else
          let* files := json githubResponse in
          let* items := lift (items localeCompare type files) in
          let data := listData type items in
          let response := set_header "Cache-Control" cache_control (jsonResponse data 200) in
          let* _ := cache_put cacheKey response in
          ret (addCorsHeaders response)
    end.

End Legacy.

(** ** The endpoints the API information advertises *)

Definition advertised_endpoints : list string :=
  match apiInfo with
  | JObj fields =>
      match assoc "endpoints" fields with
      | Some (JObj endpoints) =>
          omap (fun entry => match entry.2 with JStr url => Some url | _ => None end)
               endpoints
      | _ => []
      end
  | _ => []
  end.

(** An advertised endpoint is served: a plain path is a path of the list
    route for a type of the tables; a template [prefix{name}] gives, for
    every identifier of the route grammar, a path of the item route for a
    collection type. *)
Definition endpoint_served (url : string) : Prop :=
  match cut "{" url with
  | (path, None) =>
      exists type, listMatch path = Some type /\ In type served_types
  | (prefix, Some _) =>
      exists type, collection_type type /\
        forall id, id_name id -> itemMatch (prefix +:+ id) = Some (type, id)
  end.

(** ** Fixtures *)

Module Fixtures.

(** Byte-wise lexicographic comparison, for running the worker on examples. *)
Definition byteCompare (a b : string) : Z :=
  match String.compare a b with
  | Lt => -1
  | Eq => 0
  | Gt => 1
  end.

Definition notFound : FetchResult := Answer (mkResponse 404 ∅ (Text "404: Not Found")).

Definition found (doc : JSON) : FetchResult := Answer (mkResponse 200 ∅ (Json doc)).

(** A network described by a table; anything else is a 404. *)
Definition net_of (table : list (string * FetchResult)) : Network :=
  fun url => default notFound (assoc url table).

(** A manifest entry for a file. *)
Definition file (name : string) : JSON :=
  JObj [("name", JStr name); ("type", JStr "file")].

Definition item (id : string) : JSON := JObj [("id", JStr id)].

(** The identifier an item payload carries. *)
Definition item_id (payload : JSON) : option string :=
  match payload with
  | JObj fields =>
      match assoc "id" fields with
      | Some (JStr id) => Some id
      | _ => None
      end
  | _ => None
  end.

(** An entry of a list-only response. *)
Definition stub (type id : string) : JSON :=
  JObj [("id", JStr id); ("url", JStr ("/v1/" +:+ type +:+ "/" +:+ id))].

(** A network on which every file is missing. *)
Definition nothing : Network := net_of [].

Definition GET (path : string) (query : list (string * string)) : Request :=
  mkRequest "GET" path query.

Definition idle : World := mkWorld ∅ [].

(** A collection of three items. *)
Definition items_abc : Network :=
  net_of [ (listingUrl "items", found (JArr [file "b.json"; file "a.json"; file "c.json"]));
           (itemUrl "items" "a", found (item "a"));
           (itemUrl "items" "b", found (item "b"));
           (itemUrl "items" "c", found (item "c")) ].

(** A collection of two items. *)
Definition items_ab : Network :=
  net_of [ (listingUrl "items", found (JArr [file "a.json"; file "b.json"]));
           (itemUrl "items" "a", found (item "a"));
           (itemUrl "items" "b", found (item "b")) ].

(** The same collection when the second item is missing upstream. *)
Definition items_ab_missing_b : Network :=
  net_of [ (listingUrl "items", found (JArr [file "a.json"; file "b.json"]));
           (itemUrl "items" "a", found (item "a")) ].



(** Three items where [b] holds [null], and where [b] is missing. *)
Definition items_abc_null_b : Network :=
  net_of [ (listingUrl "items", found (JArr [file "a.json"; file "b.json"; file "c.json"]));
           (itemUrl "items" "a", found (item "a"));
           (itemUrl "items" "b", found JNull);
           (itemUrl "items" "c", found (item "c")) ].

Definition items_abc_missing_b : Network :=
  net_of [ (listingUrl "items", found (JArr [file "a.json"; file "b.json"; file "c.json"]));
           (itemUrl "items" "a", found (item "a"));
           (itemUrl "items" "c", found (item "c")) ].

(** A collection of 47 items, every one of which is served. *)
Definition forty_seven : list string :=
  map (fun i => "f" +:+ JS.show (Z.of_nat i) +:+ ".json") (seq 10 47).

Definition items_47 : Network :=
  fun url =>
    if String.eqb url (listingUrl "items") then found (JArr (map file forty_seven))
    else found (JObj [("source", JStr url)]).

(** A directory holding a file whose name has [.json] in the middle. *)
Definition items_odd_name : Network :=
  net_of [ (listingUrl "items", found (JArr [file "a.jsonb.json"])) ].

(** A network that serves the skill tree. *)
Definition skill_nodes : Network :=
  net_of [ (GITHUB_BASE +:+ "/skillNodes.json", found (JArr [])) ].

End Fixtures.

(** * Properties *)

(** ** The built-ins *)

Lemma rel_index_nonneg len i : 0 <= i -> JS.rel_index len i = Z.min i len.
Proof. intros Hi. unfold JS.rel_index. destruct (Z.ltb_spec i 0); [lia | reflexivity]. Qed.

(** [slice(0, n)] with a non-negative [n] keeps the first [n] elements. *)
Lemma slice_prefix {A} (l : list A) n :
  0 <= n -> JS.slice l 0 (Some n) = take (Z.to_nat n) l.
Proof.
  intros Hn. unfold JS.slice. rewrite !rel_index_nonneg by lia.
  rewrite (Z.min_l 0) by lia. simpl. rewrite drop_0, Z.sub_0_r.
  destruct (Z.le_gt_cases n (Z.of_nat (length l))).
  - rewrite Z.min_l by lia. reflexivity.
  - rewrite Z.min_r by lia. rewrite Nat2Z.id.
    rewrite !take_ge by lia. reflexivity.
Qed.

(** [slice(0, n)] with a negative [n] drops the last [-n] elements. *)
Lemma slice_negative_end {A} (l : list A) n :
  n < 0 -> JS.slice l 0 (Some n) = take (length l - Z.to_nat (- n)) l.
Proof.
  intros Hn. unfold JS.slice, JS.rel_index.
  destruct (Z.ltb_spec n 0); [| lia]. simpl. rewrite (Z.min_l 0) by lia. simpl.
  f_equal. lia.
Qed.

(** [slice(start)] with a positive start drops the first [start] elements. *)
Lemma slice_from {A} (l : list A) start :
  0 <= start -> JS.slice l start None = drop (Z.to_nat start) l.
Proof.
  intros Hs. unfold JS.slice. rewrite rel_index_nonneg by lia.
  destruct (Z.le_gt_cases start (Z.of_nat (length l))).
  - rewrite Z.min_l by lia. apply take_ge. rewrite length_drop. lia.
  - rewrite Z.min_r by lia. rewrite Nat2Z.id, Z.sub_diag. simpl.
    rewrite !drop_ge by lia. reflexivity.
Qed.

(** The pagination step drops [offset] leading identifiers when [offset] is
    positive and none otherwise. *)
Lemma paginate_drop (ids : list string) offset :
  paginate ids offset = drop (Z.to_nat offset) ids.
Proof.
  unfold paginate. destruct (Z.ltb_spec 0 offset).
  - apply slice_from. lia.
  - replace (Z.to_nat offset) with O by lia. reflexivity.
Qed.

Lemma effectiveLimit_le limit : effectiveLimit limit <= MAX_ITEMS.
Proof.
  unfold effectiveLimit. destruct limit as [l|]; [| lia].
  destruct (Z.eqb_spec l 0), (Z.ltb_spec l MAX_ITEMS); simpl; lia.
Qed.

Lemma effectiveLimit_positive l :
  0 < l -> effectiveLimit (Some l) = Z.min l MAX_ITEMS.
Proof.
  intros Hl. unfold effectiveLimit.
  destruct (Z.eqb_spec l 0), (Z.ltb_spec l MAX_ITEMS); simpl; lia.
Qed.

Lemma effectiveLimit_negative l : l < 0 -> effectiveLimit (Some l) = l.
Proof.
  intros Hl. unfold effectiveLimit, MAX_ITEMS.
  destruct (Z.eqb_spec l 0), (Z.ltb_spec l 45); simpl; lia.
Qed.

Example parseInt_examples :
  JS.parseInt (Some "-1") = Some (-1) /\
  JS.parseInt (Some "  12abc") = Some 12 /\
  JS.parseInt (Some "0x1f") = Some 31 /\
  JS.parseInt (Some "abc") = None /\
  JS.parseInt None = None.
Proof. repeat split. Qed.

(** A no-break space before the sign is skipped like a space. *)
Example parseInt_white_space :
  JS.parseInt (Some (String (ascii_of_N 194) (String (ascii_of_N 160) "-1"))) = Some (-1) /\
  JS.parseInt (Some (String (ascii_of_N 226) (String (ascii_of_N 128)
                       (String (ascii_of_N 168) "7")))) = Some 7 /\
  JS.parseInt (Some (String (ascii_of_N 195) (String (ascii_of_N 130) "7"))) = None.
Proof. repeat split. Qed.

Example show_examples : JS.show 45 = "45" /\ JS.show (-3) = "-3" /\ JS.show 0 = "0".
Proof. repeat split. Qed.

Example replace_examples :
  JS.replace "anvil_i.json" ".json" "" = "anvil_i" /\
  JS.replace "a.jsonb.json" ".json" "" = "ab.json".
Proof. repeat split. Qed.

Example slice_examples :
  JS.slice [1; 2; 3] 0 (Some 2) = [1; 2] /\
  JS.slice [1; 2; 3] 0 (Some (-1)) = [1; 2] /\
  JS.slice [1; 2; 3] 1 None = [2; 3] /\
  JS.slice [1; 2; 3] 5 None = [].
Proof. repeat split. Qed.

Example route_patterns :
  listMatch "/v1/items" = Some "items" /\
  listMatch "/v1/map-events/" = Some "map-events" /\
  listMatch "/v1/items/anvil_i" = None /\
  itemMatch "/v1/items/anvil_i" = Some ("items", "anvil_i") /\
  itemMatch "/v1/items/Anvil" = None.
Proof. repeat split. Qed.

(** ** The handlers, step by step *)

(** The batch of item fetches issues one request per identifier, in order,
    and rejects exactly when one of the callbacks does. *)
Lemma promise_all_fetchItem net dirPath ids w :
  promise_all (map (fetchItem net dirPath) ids) w =
  let w' := mkWorld (cache w) (outbound w ++ itemRequests dirPath ids) in
  match mapM (itemOutcome net dirPath) ids with
  | Some itemsData => Returned itemsData w'
  | None => Threw w'
  end.
Proof.
  revert w. induction ids as [|id ids IH]; intros w.
  - simpl. rewrite app_nil_r. destruct w; reflexivity.
  - cbn [map promise_all itemRequests mapM]. fold (itemRequests dirPath ids).
    assert (Hlog : forall (x : string * list (string * string)) l k,
               (l ++ [x]) ++ k = l ++ x :: k)
      by (intros; rewrite <- app_assoc; reflexivity).
    remember (mapM (itemOutcome net dirPath) ids) as rest eqn:Hrest in *.
    unfold fetchItem at 1, bind at 1, fetch_url, itemOutcome.
    destruct (net (itemUrl dirPath id)) as [|r]; simpl.
    + rewrite IH. simpl. rewrite Hlog. destruct rest; reflexivity.
    + destruct (ok r); simpl.
      * unfold json. destruct (body r); simpl;
          rewrite IH; simpl; rewrite Hlog; destruct rest; reflexivity.
      * rewrite IH. simpl. rewrite Hlog. destruct rest; reflexivity.
Qed.

Lemma collection_type_cases type :
  collection_type type ->
  type = "items" \/ type = "hideout" \/ type = "quests" \/ type = "map-events".
Proof. unfold collection_type. simpl. intuition auto. Qed.

(** A collection type is an own key of the table, mapped to itself. *)
Lemma collection_type_own type :
  collection_type type -> COLLECTION_TYPES type = Own type.
Proof.
  intros H. apply collection_type_cases in H.
  destruct H as [-> | [-> | [-> | ->]]]; reflexivity.
Qed.

Lemma collection_type_present type :
  collection_type type -> present (COLLECTION_TYPES type) = true.
Proof.
  intros H. apply collection_type_cases in H.
  destruct H as [-> | [-> | [-> | ->]]]; reflexivity.
Qed.

(** What [handleList] does on a cache miss when the directory listing
    succeeds: one listing request, then either the list-only answer or the
    batch of item fetches and the full answer; the answer is stored under the
    cache key. *)
Lemma handleList_miss cmp net type full limit offset w ids :
  collection_type type ->
  cache w !! listCacheKey type full = None ->
  directory cmp net type = Some ids ->
  handleList cmp net type full limit offset w =
  let key := listCacheKey type full in
  let log := outbound w ++ [listingRequest type] in
  if full then
    let limitedFiles :=
      JS.slice (paginate ids offset) 0 (Some (effectiveLimit limit)) in
    let log' := log ++ itemRequests type limitedFiles in
    match mapM (itemOutcome net type) limitedFiles with
    | Some itemsData =>
        let response :=
          cacheable (fullData type (Z.of_nat (length ids)) offset
                       (effectiveLimit limit) itemsData) in
        Returned (addCorsHeaders response)
                 (mkWorld (<[key := response]> (cache w)) log')
    | None => Threw (mkWorld (cache w) log')
    end
  else
    let response := cacheable (listData type (paginate ids offset)) in
    Returned (addCorsHeaders response)
             (mkWorld (<[key := response]> (cache w)) log).
Proof.
  intros Htype Hmiss Hdir. unfold handleList.
  rewrite (collection_type_present _ Htype), (collection_type_own _ Htype).
  cbn [negb render]. unfold bind at 1, cache_match. rewrite Hmiss.
  unfold directory in Hdir. unfold bind at 1, fetch_url.
  destruct (net (listingUrl type)) as [|listing]; [discriminate |].
  destruct (ok listing); [| discriminate]. cbn [negb].
  unfold bind at 1, json. destruct (body listing) as [|files|]; try discriminate.
  unfold ret at 1. unfold bind at 1. rewrite Hdir. unfold lift, ret at 1.
  destruct full.
  - unfold bind at 1. unfold bind at 1. rewrite promise_all_fetchItem.
    cbn [cache outbound]. cbv zeta.
    destruct (mapM _ _); reflexivity.
  - reflexivity.
Qed.

(** A directory listing that fails with a non-2xx status fails the request. *)
Lemma handleList_listing_failed cmp net type full limit offset w :
  collection_type type ->
  cache w !! listCacheKey type full = None ->
  failed_fetch (net (listingUrl type)) ->
  handleList cmp net type full limit offset w =
    Returned (jsonResponse (error_body ("Failed to list " +:+ type)) 502)
      (mkWorld (cache w) (outbound w ++ [listingRequest type])).
Proof.
  intros Htype Hmiss (upstream & Hnet & Hok). unfold handleList.
  rewrite (collection_type_present _ Htype), (collection_type_own _ Htype).
  cbn [negb render]. unfold bind at 1, cache_match. rewrite Hmiss.
  unfold bind at 1, fetch_url. rewrite Hnet, Hok. reflexivity.
Qed.

(** ** Numbers in links: [parseInt] reads back what a template literal wrote *)

Lemma decimal_prefix_string_of_uint d :
  JS.decimal_prefix (NilEmpty.string_of_uint d) = d.
Proof. induction d; simpl; congruence. Qed.

Lemma parse_magnitude_digits d :
  d <> Decimal.Nil ->
  JS.parse_magnitude (NilEmpty.string_of_uint d) = Some (Z.of_uint d).
Proof.
  intros Hd. unfold JS.parse_magnitude.
  assert (Hx : String.prefix "0x" (NilEmpty.string_of_uint d)
               || String.prefix "0X" (NilEmpty.string_of_uint d) = false).
  { destruct d as [|d|d|d|d|d|d|d|d|d|d]; try reflexivity.
    destruct d; reflexivity. }
  rewrite Hx, decimal_prefix_string_of_uint.
  destruct d; congruence.
Qed.

Lemma parseInt_digits d :
  d <> Decimal.Nil ->
  JS.parseInt_string (NilEmpty.string_of_uint d) = Some (Z.of_uint d).
Proof.
  intros Hd. rewrite <- (parse_magnitude_digits d Hd).
  unfold JS.parseInt_string. destruct d; try congruence; reflexivity.
Qed.

Lemma of_uint_to_uint p : Z.of_uint (Pos.to_uint p) = Z.pos p.
Proof. unfold Z.of_uint. rewrite DecimalPos.Unsigned.of_to. reflexivity. Qed.

Lemma show_pos p : JS.show (Z.pos p) = NilEmpty.string_of_uint (Pos.to_uint p).
Proof.
  unfold JS.show. simpl. unfold NilZero.string_of_uint.
  pose proof (DecimalPos.Unsigned.to_uint_nonnil p).
  destruct (Pos.to_uint p); congruence.
Qed.

Lemma show_neg p :
  JS.show (Z.neg p) = String "-" (NilEmpty.string_of_uint (Pos.to_uint p)).
Proof.
  unfold JS.show. simpl. unfold NilZero.string_of_uint.
  pose proof (DecimalPos.Unsigned.to_uint_nonnil p).
  destruct (Pos.to_uint p); congruence.
Qed.

(** [parseInt] of a printed integer is that integer. *)
Lemma parseInt_show z : JS.parseInt (Some (JS.show z)) = Some z.
Proof.
  destruct z as [|p|p]; [reflexivity | |].
  - rewrite show_pos. simpl.
    rewrite parseInt_digits by apply DecimalPos.Unsigned.to_uint_nonnil.
    rewrite of_uint_to_uint. reflexivity.
  - rewrite show_neg. simpl. unfold JS.parseInt_string. simpl.
    rewrite parse_magnitude_digits by apply DecimalPos.Unsigned.to_uint_nonnil.
    rewrite of_uint_to_uint. reflexivity.
Qed.

(** ** Links: the request a link denotes *)

Lemma cut_app c s rest :
  contains c s = false -> cut c (s +:+ String c rest) = (s, Some rest).
Proof.
  induction s as [|a s IH]; simpl.
  - intros _. rewrite Ascii.eqb_refl. reflexivity.
  - intros H. apply orb_false_iff in H as [Ha Hs].
    rewrite Ha, (IH Hs). reflexivity.
Qed.

Lemma split_on_absent c s : contains c s = false -> split_on c s = [s].
Proof.
  induction s as [|a s IH]; simpl; [reflexivity |].
  intros H. apply orb_false_iff in H as [Ha Hs].
  rewrite Ha, (IH Hs). reflexivity.
Qed.

Lemma split_on_app c s rest :
  contains c s = false ->
  split_on c (s +:+ String c rest) = s :: split_on c rest.
Proof.
  induction s as [|a s IH]; simpl.
  - intros _. rewrite Ascii.eqb_refl. reflexivity.
  - intros H. apply orb_false_iff in H as [Ha Hs].
    rewrite Ha, (IH Hs). reflexivity.
Qed.

Lemma contains_digits c d :
  is_digit c = false -> contains c (NilEmpty.string_of_uint d) = false.
Proof.
  intros Hc. induction d; cbn [contains NilEmpty.string_of_uint];
    rewrite ?IHd; try reflexivity;
    rewrite orb_false_r; apply Ascii.eqb_neq; intros <-; discriminate Hc.
Qed.

(** A printed integer holds digits and a sign only. *)
Lemma contains_show c z :
  is_digit c = false -> c <> "-"%char -> contains c (JS.show z) = false.
Proof.
  intros Hc Hm. destruct z as [|p|p].
  - change (JS.show 0) with "0". cbn [contains].
    rewrite orb_false_r. apply Ascii.eqb_neq. intros <-. discriminate Hc.
  - rewrite show_pos. apply contains_digits, Hc.
  - rewrite show_neg. cbn [contains]. rewrite contains_digits by exact Hc.
    rewrite orb_false_r. apply Ascii.eqb_neq. congruence.
Qed.

Lemma show_nonempty z : String.eqb (JS.show z) "" = false.
Proof.
  destruct z as [|p|p]; [reflexivity | |].
  - rewrite show_pos. pose proof (DecimalPos.Unsigned.to_uint_nonnil p).
    destruct (Pos.to_uint p); try congruence; reflexivity.
  - rewrite show_neg. reflexivity.
Qed.

(** The request denoted by a pagination link of a collection. *)
Lemma request_of_pageLink type offset limit :
  collection_type type ->
  request_of_href (pageLink type offset limit) =
  mkRequest "GET" ("/v1/" +:+ type)
    [("full", "true"); ("offset", JS.show offset); ("limit", JS.show limit)].
Proof.
  intros Htype. unfold pageLink, request_of_href.
  assert (Hamp : contains "&" (JS.show offset) = false)
    by (apply contains_show; [reflexivity | discriminate]).
  assert (Hamp' : contains "&" (JS.show limit) = false)
    by (apply contains_show; [reflexivity | discriminate]).
  pose proof (show_nonempty offset) as Ho.
  pose proof (show_nonempty limit) as Hl.
  revert Hamp Hamp' Ho Hl.
  generalize (JS.show offset) as o, (JS.show limit) as l. intros o l Hamp Hamp' Ho Hl.
  assert (Hquery :
    map parse_pair
      (List.filter (fun s => negb (String.eqb s ""))
         (split_on "&" ("full=true&offset=" +:+ o +:+ "&limit=" +:+ l))) =
    [("full", "true"); ("offset", o); ("limit", l)]).
  { change ("full=true&offset=" +:+ o +:+ "&limit=" +:+ l)
      with ("full=true" +:+ String "&" (("offset=" +:+ o) +:+ String "&" ("limit=" +:+ l))).
    rewrite split_on_app by reflexivity.
    rewrite split_on_app by (simpl; exact Hamp).
    rewrite split_on_absent by (simpl; exact Hamp').
    reflexivity. }
  apply collection_type_cases in Htype.
  destruct Htype as [-> | [-> | [-> | ->]]].
  - change ("/v1/" +:+ "items" +:+ "?full=true&offset=" +:+ o +:+ "&limit=" +:+ l)
      with ("/v1/items" +:+ String "?" ("full=true&offset=" +:+ o +:+ "&limit=" +:+ l)).
    rewrite cut_app by reflexivity. rewrite Hquery. reflexivity.
  - change ("/v1/" +:+ "hideout" +:+ "?full=true&offset=" +:+ o +:+ "&limit=" +:+ l)
      with ("/v1/hideout" +:+ String "?" ("full=true&offset=" +:+ o +:+ "&limit=" +:+ l)).
    rewrite cut_app by reflexivity. rewrite Hquery. reflexivity.
  - change ("/v1/" +:+ "quests" +:+ "?full=true&offset=" +:+ o +:+ "&limit=" +:+ l)
      with ("/v1/quests" +:+ String "?" ("full=true&offset=" +:+ o +:+ "&limit=" +:+ l)).
    rewrite cut_app by reflexivity. rewrite Hquery. reflexivity.
  - change ("/v1/" +:+ "map-events" +:+ "?full=true&offset=" +:+ o +:+ "&limit=" +:+ l)
      with ("/v1/map-events" +:+ String "?" ("full=true&offset=" +:+ o +:+ "&limit=" +:+ l)).
    rewrite cut_app by reflexivity. rewrite Hquery. reflexivity.
Qed.

(** ** The router on collection paths *)

Lemma listMatch_collection type :
  collection_type type -> listMatch ("/v1/" +:+ type) = Some type.
Proof.
  intros H. apply collection_type_cases in H.
  destruct H as [-> | [-> | [-> | ->]]]; reflexivity.
Qed.

Lemma collection_not_single_file type :
  collection_type type -> present (SINGLE_FILE_TYPES type) = false.
Proof.
  intros H. apply collection_type_cases in H.
  destruct H as [-> | [-> | [-> | ->]]]; reflexivity.
Qed.

(** A request for [/v1/{type}] of a collection type reaches [handleList] with
    the query parameters read as the router reads them. *)
Lemma route_collection cmp net type m q :
  collection_type type ->
  route cmp net (mkRequest m ("/v1/" +:+ type) q) =
  handleList cmp net type
    (match assoc "full" q with Some v => String.eqb v "true" | None => false end)
    (JS.number_or (JS.parseInt (assoc "limit" q)) Some None)
    (JS.number_or (JS.parseInt (assoc "offset" q)) id 0).
Proof.
  intros Htype. unfold route. cbn [pathname].
  rewrite (listMatch_collection _ Htype), (collection_not_single_file _ Htype),
    (collection_type_present _ Htype).
  reflexivity.
Qed.

Lemma fetch_collection cmp net type q w :
  collection_type type ->
  fetch cmp net (mkRequest "GET" ("/v1/" +:+ type) q) w =
  match handleList cmp net type
          (match assoc "full" q with Some v => String.eqb v "true" | None => false end)
          (JS.number_or (JS.parseInt (assoc "limit" q)) Some None)
          (JS.number_or (JS.parseInt (assoc "offset" q)) id 0) w with
  | Returned response w' => (response, w')
  | Threw w' => (jsonResponse (error_body "Internal Server Error") 500, w')
  end.
Proof.
  intros Htype. unfold fetch. cbn [method]. rewrite (route_collection _ _ _ _ _ Htype).
  reflexivity.
Qed.

(** The query of a pagination link is read back as the numbers it was built
    from. *)
Lemma number_or_show_limit l :
  l <> 0 -> JS.number_or (JS.parseInt (Some (JS.show l))) Some None = Some l.
Proof.
  intros Hl. rewrite parseInt_show. unfold JS.number_or.
  destruct (Z.eqb_spec l 0); [contradiction | reflexivity].
Qed.

Lemma number_or_show_offset o :
  JS.number_or (JS.parseInt (Some (JS.show o))) id 0 = o.
Proof.
  rewrite parseInt_show. unfold JS.number_or.
  destruct (Z.eqb_spec o 0); [congruence | reflexivity].
Qed.

(** ** Full pages *)

Lemma mapM_itemOutcome net dirPath (ids : list string) :
  (forall id, In id ids -> is_Some (itemOutcome net dirPath id)) ->
  mapM (itemOutcome net dirPath) ids = Some (map (itemValue net dirPath) ids).
Proof.
  induction ids as [|id ids IH]; intros H; [reflexivity |].
  cbn [mapM map]. destruct (H id (or_introl eq_refl)) as [v Hv].
  unfold itemValue at 1. rewrite Hv, IH by (intros; apply H; right; assumption).
  reflexivity.
Qed.

Lemma In_take {A} (x : A) n l : In x (take n l) -> In x l.
Proof. rewrite <- !list_elem_of_In. apply subseteq_take. Qed.

Lemma In_drop {A} (x : A) n l : In x (drop n l) -> In x l.
Proof. rewrite <- !list_elem_of_In. apply subseteq_drop. Qed.

Lemma In_paginate (ids : list string) offset id : In id (paginate ids offset) -> In id ids.
Proof. rewrite paginate_drop. apply In_drop. Qed.

Lemma In_slice_to {A} (l : list A) n x : In x (JS.slice l 0 (Some n)) -> In x l.
Proof.
  destruct (Z.lt_ge_cases n 0).
  - rewrite slice_negative_end by assumption. apply In_take.
  - rewrite slice_prefix by lia. apply In_take.
Qed.

(** The fields of a full page. *)
Lemma fullData_fields type total offset L itemsData :
  let r := addCorsHeaders (cacheable (fullData type total offset L itemsData)) in
  status r = 200 /\
  data_field r "type" = Some (JStr type) /\
  data_field r "total" = Some (JNum total) /\
  data_field r "count" = Some (JNum (Z.of_nat (length (List.filter Boolean itemsData)))) /\
  data_field r "offset" = Some (JNum offset) /\
  data_field r "limit" = Some (JNum L) /\
  data_field r "items" = Some (JArr (List.filter Boolean itemsData)) /\
  data_field r "next" =
    (if offset + L <? total then Some (JStr (pageLink type (offset + L) L)) else None) /\
  data_field r "prev" =
    (if 0 <? offset then Some (JStr (pageLink type (Z.max 0 (offset - L)) L)) else None).
Proof.
  cbv zeta. unfold data_field, fullData. cbn [addCorsHeaders cacheable set_header body status jsonResponse].
  repeat split; try reflexivity.
  - destruct (offset + L <? total), (0 <? offset); reflexivity.
  - destruct (offset + L <? total), (0 <? offset); reflexivity.
Qed.

(** ** Following [next] *)

(** The full page served on a cache miss when every item fetch of the
    collection yields a response. *)
Lemma fetch_full_page cmp net type q L o w ids :
  collection_type type ->
  page_query q L o ->
  cache w !! listCacheKey type true = None ->
  directory cmp net type = Some ids ->
  (forall id, In id ids -> is_Some (itemOutcome net type id)) ->
  let response :=
    cacheable
      (fullData type (Z.of_nat (length ids)) o L
         (map (itemValue net type) (JS.slice (paginate ids o) 0 (Some L)))) in
  exists w',
    fetch cmp net (mkRequest "GET" ("/v1/" +:+ type) q) w = (addCorsHeaders response, w') /\
    cache w' !! listCacheKey type true = Some response.
Proof.
  intros Htype (Hfull & HL & Ho) Hmiss Hdir Hitems.
  rewrite (fetch_collection _ _ _ _ _ Htype), Hfull, Ho.
  change (String.eqb "true" "true") with true.
  rewrite (handleList_miss _ _ _ _ _ _ _ _ Htype Hmiss Hdir). cbv zeta.
  rewrite HL.
  rewrite mapM_itemOutcome
    by (intros id Hid; apply Hitems; eapply In_paginate, In_slice_to, Hid).
  eexists. split; [reflexivity |]. cbn [cache]. apply lookup_insert_eq.
Qed.

Lemma take_all_remaining {A} (l : list A) (o L : Z) :
  0 <= o -> 0 < L -> Z.of_nat (length l) <= o + L ->
  take (Z.to_nat L) (drop (Z.to_nat o) l) = drop (Z.to_nat o) l.
Proof. intros. apply take_ge. rewrite length_drop. lia. Qed.

Lemma window_then_rest {A} (l : list A) (o L : Z) :
  0 <= o -> 0 < L ->
  take (Z.to_nat L) (drop (Z.to_nat o) l) ++ drop (Z.to_nat (o + L)) l =
  drop (Z.to_nat o) l.
Proof.
  intros. replace (Z.to_nat (o + L)) with (Z.to_nat o + Z.to_nat L)%nat by lia.
  rewrite <- drop_drop. apply take_drop.
Qed.

(** A link request is a page query for the numbers in the link. *)
Lemma page_query_link L o :
  L <> 0 -> effectiveLimit (Some L) = L ->
  page_query [("full", "true"); ("offset", JS.show o); ("limit", JS.show L)] L o.
Proof.
  intros HL Heff. unfold page_query.
  change (assoc "full" [("full", "true"); ("offset", JS.show o); ("limit", JS.show L)])
    with (Some "true").
  change (assoc "limit" [("full", "true"); ("offset", JS.show o); ("limit", JS.show L)])
    with (Some (JS.show L)).
  change (assoc "offset" [("full", "true"); ("offset", JS.show o); ("limit", JS.show L)])
    with (Some (JS.show o)).
  rewrite number_or_show_limit by lia. rewrite number_or_show_offset.
  repeat split. exact Heff.
Qed.

Lemma effectiveLimit_fixed L : 0 < L <= MAX_ITEMS -> effectiveLimit (Some L) = L.
Proof. intros HL. rewrite effectiveLimit_positive by lia. lia. Qed.

(** The first page is a page query at offset 0. *)
Lemma page_query_first limit :
  (limit = None \/ exists l, limit = Some l /\ 0 < l) ->
  page_query
    (("full", "true") :: match limit with Some l => [("limit", JS.show l)] | None => [] end)
    (effectiveLimit limit) 0.
Proof.
  intros [-> | (l & -> & Hl)]; unfold page_query.
  - repeat split.
  - change (assoc "full" [("full", "true"); ("limit", JS.show l)]) with (Some "true").
    change (assoc "limit" [("full", "true"); ("limit", JS.show l)]) with (Some (JS.show l)).
    rewrite number_or_show_limit by lia. repeat split.
Qed.

Lemma follow_next_step cmp net between fuel request w :
  follow_next cmp net between (S fuel) request w =
  let '(response, w') := fetch cmp net request w in
  match next_link response with
  | None => Some [response]
  | Some href =>
      cons response <$>
        follow_next cmp net between fuel (request_of_href href) (between w')
  end.
Proof. reflexivity. Qed.

(** Following [next] from the page at [o]: the chain ends, and its pages hold
    the truthy items of the identifiers from [o] on. *)
Lemma follow_next_from cmp net between type ids L :
  collection_type type ->
  directory cmp net type = Some ids ->
  (forall id, In id ids -> is_Some (itemOutcome net type id)) ->
  (forall w, cache (between w) !! listCacheKey type true = None) ->
  0 < L <= MAX_ITEMS ->
  forall (n : nat) o q w,
    0 <= o ->
    Z.of_nat (length ids) - o <= Z.of_nat n ->
    page_query q L o ->
    cache w !! listCacheKey type true = None ->
    exists pages r,
      follow_next cmp net between (S n) (mkRequest "GET" ("/v1/" +:+ type) q) w
        = Some pages /\
      last pages = Some r /\ next_link r = None /\
      Forall (fun r => status r = 200) pages /\
      concat (map items_of pages) =
        List.filter Boolean (map (itemValue net type) (drop (Z.to_nat o) ids)).
Proof.
  intros Htype Hdir Hitems Hbetween HL.
  induction n as [|n IH]; intros o q w Ho Hn Hq Hmiss.
  - (* no identifier is left beyond the window *)
    destruct (fetch_full_page cmp net type q L o w ids Htype Hq Hmiss Hdir Hitems)
      as (w' & Hfetch & _).
    rewrite follow_next_step, Hfetch.
    pose proof (fullData_fields type (Z.of_nat (length ids)) o L
                  (map (itemValue net type) (JS.slice (paginate ids o) 0 (Some L))))
      as (Hst & _ & _ & _ & _ & _ & Hit & Hnext & _).
    cbv zeta in *. unfold next_link. rewrite Hnext.
    destruct (Z.ltb_spec (o + L) (Z.of_nat (length ids))); [lia |].
    eexists _, _. split; [reflexivity |]. split; [reflexivity |].
    split; [unfold next_link; rewrite Hnext;
            destruct (Z.ltb_spec (o + L) (Z.of_nat (length ids))); [lia | reflexivity] |].
    split; [constructor; [exact Hst | constructor] |].
    cbn [map concat]. rewrite app_nil_r. unfold items_of. rewrite Hit.
    rewrite paginate_drop, slice_prefix by lia.
    rewrite take_all_remaining by lia. reflexivity.
  - destruct (fetch_full_page cmp net type q L o w ids Htype Hq Hmiss Hdir Hitems)
      as (w' & Hfetch & _).
    rewrite follow_next_step, Hfetch.
    pose proof (fullData_fields type (Z.of_nat (length ids)) o L
                  (map (itemValue net type) (JS.slice (paginate ids o) 0 (Some L))))
      as (Hst & _ & _ & _ & _ & _ & Hit & Hnext & _).
    cbv zeta in *. unfold next_link at 1. rewrite Hnext.
    destruct (Z.ltb_spec (o + L) (Z.of_nat (length ids))) as [Hmore | Hlast].
    + rewrite (request_of_pageLink _ _ _ Htype).
      destruct (IH (o + L) _ (between w') ltac:(lia) ltac:(lia)
                  (page_query_link L (o + L) ltac:(lia) (effectiveLimit_fixed L HL))
                  (Hbetween w'))
        as (pages & r & Hchain & Hlast & Hnone & Hall & Hitems').
      rewrite Hchain. cbn [fmap option_fmap option_map].
      eexists _, r. split; [reflexivity |].
      split; [destruct pages; [discriminate | exact Hlast] |].
      split; [exact Hnone |].
      split; [constructor; [exact Hst | exact Hall] |].
      cbn [map concat]. rewrite Hitems'. unfold items_of at 1. rewrite Hit.
      rewrite paginate_drop, slice_prefix by lia.
      rewrite <- List.filter_app, <- map_app, window_then_rest by lia.
      reflexivity.
    + eexists _, _. split; [reflexivity |]. split; [reflexivity |].
      split; [unfold next_link; rewrite Hnext;
              destruct (Z.ltb_spec (o + L) (Z.of_nat (length ids))); [lia | reflexivity] |].
      split; [constructor; [exact Hst | constructor] |].
      cbn [map concat]. rewrite app_nil_r. unfold items_of. rewrite Hit.
      rewrite paginate_drop, slice_prefix by lia.
      rewrite take_all_remaining by lia. reflexivity.
Qed.

(** With a negative limit every page has a [next] link: the chain of pages
    never ends. *)
Lemma negative_limit_never_ends cmp net between type ids L :
  collection_type type ->
  directory cmp net type = Some ids ->
  (forall id, In id ids -> is_Some (itemOutcome net type id)) ->
  (forall w, cache (between w) !! listCacheKey type true = None) ->
  L < 0 ->
  forall (fuel : nat) o q w,
    o <= 0 ->
    page_query q L o ->
    cache w !! listCacheKey type true = None ->
    follow_next cmp net between fuel (mkRequest "GET" ("/v1/" +:+ type) q) w = None.
Proof.
  intros Htype Hdir Hitems Hbetween HL.
  induction fuel as [|fuel IH]; intros o q w Ho Hq Hmiss; [reflexivity |].
  destruct (fetch_full_page cmp net type q L o w ids Htype Hq Hmiss Hdir Hitems)
    as (w' & Hfetch & _).
  rewrite follow_next_step, Hfetch.
  pose proof (fullData_fields type (Z.of_nat (length ids)) o L
                (map (itemValue net type) (JS.slice (paginate ids o) 0 (Some L))))
    as (_ & _ & _ & _ & _ & _ & _ & Hnext & _).
  cbv zeta in *. unfold next_link. rewrite Hnext.
  destruct (Z.ltb_spec (o + L) (Z.of_nat (length ids))); [| lia].
  rewrite (request_of_pageLink _ _ _ Htype).
  rewrite (IH (o + L) _ (between w') ltac:(lia)
             (page_query_link L (o + L) ltac:(lia) (effectiveLimit_negative L HL))
             (Hbetween w')).
  reflexivity.
Qed.

(** A request served from the cache: the stored response, whatever the
    offset and the limit of the request. *)
Lemma handleList_hit cmp net type full limit offset w response :
  collection_type type ->
  cache w !! listCacheKey type full = Some response ->
  handleList cmp net type full limit offset w = Returned (addCorsHeaders response) w.
Proof.
  intros Htype Hhit. unfold handleList.
  rewrite (collection_type_present _ Htype), (collection_type_own _ Htype).
  cbn [negb render]. unfold bind at 1, cache_match. rewrite Hhit. reflexivity.
Qed.

(** While a page with a [next] link sits in the cache, following [next] is
    answered with that page again and again. *)
Lemma cached_page_served_forever cmp net type response o L w :
  collection_type type ->
  cache w !! listCacheKey type true = Some response ->
  next_link (addCorsHeaders response) = Some (pageLink type o L) ->
  forall (fuel : nat) q,
    assoc "full" q = Some "true" ->
    follow_next cmp net id fuel (mkRequest "GET" ("/v1/" +:+ type) q) w = None.
Proof.
  intros Htype Hhit Hnext. induction fuel as [|fuel IH]; intros q Hq; [reflexivity |].
  rewrite follow_next_step, (fetch_collection _ _ _ _ _ Htype), Hq.
  change (String.eqb "true" "true") with true.
  rewrite (handleList_hit _ _ _ _ _ _ _ _ Htype Hhit), Hnext.
  rewrite (request_of_pageLink _ _ _ Htype). unfold id at 1.
  rewrite IH by reflexivity. reflexivity.
Qed.

(** With a cache that keeps its entries between requests, a listing longer
    than one page cannot be traversed: the second request already is
    answered with the first page. *)
Lemma cached_first_page_served_forever cmp net type ids limit w fuel :
  collection_type type ->
  directory cmp net type = Some ids ->
  (forall id, In id ids -> is_Some (itemOutcome net type id)) ->
  cache w !! listCacheKey type true = None ->
  (limit = None \/ exists l, limit = Some l /\ 0 < l) ->
  effectiveLimit limit < Z.of_nat (length ids) ->
  follow_next cmp net id fuel (first_page type limit) w = None.
Proof.
  intros Htype Hdir Hitems Hmiss Hlimit Hmore.
  destruct fuel as [|fuel]; [reflexivity |].
  destruct (fetch_full_page cmp net type _ _ 0 w ids Htype
              (page_query_first limit Hlimit) Hmiss Hdir Hitems)
    as (w' & Hfetch & Hcached).
  unfold first_page. rewrite follow_next_step, Hfetch.
  pose proof (fullData_fields type (Z.of_nat (length ids)) 0 (effectiveLimit limit)
                (map (itemValue net type)
                   (JS.slice (paginate ids 0) 0 (Some (effectiveLimit limit)))))
    as (_ & _ & _ & _ & _ & _ & _ & Hnext & _).
  cbv zeta in Hnext.
  assert (Hlink :
    next_link
      (addCorsHeaders
         (cacheable
            (fullData type (Z.of_nat (length ids)) 0 (effectiveLimit limit)
               (map (itemValue net type)
                  (JS.slice (paginate ids 0) 0 (Some (effectiveLimit limit)))))))
    = Some (pageLink type (0 + effectiveLimit limit) (effectiveLimit limit))).
  { unfold next_link. rewrite Hnext.
    destruct (Z.ltb_spec (0 + effectiveLimit limit) (Z.of_nat (length ids))); [reflexivity | lia]. }
  rewrite Hlink, (request_of_pageLink _ _ _ Htype). unfold id at 1.
  rewrite (cached_page_served_forever cmp net type _ _ _ w' Htype Hcached Hlink)
    by reflexivity.
  reflexivity.
Qed.

(** ** Items that fail, items that are falsy (C5, C10) *)

Lemma falsy_Boolean v : falsy v <-> Boolean v = false.
Proof.
  split.
  - intros [-> | [-> | [-> | ->]]]; reflexivity.
  - unfold falsy. destruct v as [|[]|z|s| |]; cbn; try discriminate; auto.
    + destruct (Z.eqb_spec z 0); [subst; auto | discriminate].
    + destruct s; [auto | discriminate].
Qed.


Lemma failed_fetch_value net dirPath id :
  failed_fetch (net (itemUrl dirPath id)) ->
  itemOutcome net dirPath id = Some JNull.
Proof.
  intros (r & Hnet & Hok). unfold itemOutcome. rewrite Hnet, Hok. reflexivity.
Qed.

Lemma falsy_fetch_value net dirPath id :
  falsy_fetch (net (itemUrl dirPath id)) ->
  exists v, itemOutcome net dirPath id = Some v /\ Boolean v = false.
Proof.
  intros (r & v & Hnet & Hok & Hbody & Hv). exists v.
  unfold itemOutcome. rewrite Hnet, Hok, Hbody. split; [reflexivity |].
  apply falsy_Boolean, Hv.
Qed.

Lemma filter_Boolean_truthy net dirPath (ids : list string) :
  (forall id, In id ids -> Boolean (itemValue net dirPath id) = true) ->
  List.filter Boolean (map (itemValue net dirPath) ids) = map (itemValue net dirPath) ids.
Proof.
  induction ids as [|id ids IH]; intros H; [reflexivity |].
  cbn [map List.filter]. rewrite (H id (or_introl eq_refl)).
  rewrite IH by (intros; apply H; right; assumption). reflexivity.
Qed.



(** An item fetch that rejects (no response, or a 2xx body that is not
    JSON) fails the whole request: the answer is the 500 of the top-level
    handler. *)
Lemma rejected_item_fails_request cmp net type q L o w ids id :
  collection_type type ->
  page_query q L o ->
  cache w !! listCacheKey type true = None ->
  directory cmp net type = Some ids ->
  In id (JS.slice (paginate ids o) 0 (Some L)) ->
  itemOutcome net type id = None ->
  (fetch cmp net (mkRequest "GET" ("/v1/" +:+ type) q) w).1 =
    jsonResponse (error_body "Internal Server Error") 500.
Proof.
  intros Htype (Hfull & HL & Ho) Hmiss Hdir Hin Hnone.
  rewrite (fetch_collection _ _ _ _ _ Htype), Hfull, Ho.
  change (String.eqb "true" "true") with true.
  rewrite (handleList_miss _ _ _ _ _ _ _ _ Htype Hmiss Hdir). cbv zeta. rewrite HL.
  destruct (mapM (itemOutcome net type) (JS.slice (paginate ids o) 0 (Some L)))
    as [itemsData|] eqn:Hbatch; [| reflexivity].
  assert (Hsome : is_Some (mapM (itemOutcome net type)
                             (JS.slice (paginate ids o) 0 (Some L))))
    by (rewrite Hbatch; eexists; reflexivity).
  apply mapM_is_Some in Hsome. rewrite Forall_forall in Hsome.
  apply list_elem_of_In in Hin. specialize (Hsome id Hin).
  cbn in Hsome. rewrite Hnone in Hsome. destruct Hsome; discriminate.
Qed.

(** Swapping a falsy success for a failure does not change what an item
    contributes. *)
Lemma swapped_outcome net net' dirPath id :
  (forall url, net' url = net url \/ (falsy_fetch (net url) /\ failed_fetch (net' url))) ->
  itemOutcome net' dirPath id = itemOutcome net dirPath id \/
  exists v, itemOutcome net dirPath id = Some v /\ Boolean v = false /\
            itemOutcome net' dirPath id = Some JNull.
Proof.
  intros Hswap. destruct (Hswap (itemUrl dirPath id)) as [Heq | [Hfalsy Hfailed]].
  - left. unfold itemOutcome. rewrite Heq. reflexivity.
  - right. destruct (falsy_fetch_value _ _ _ Hfalsy) as (v & Hv & Hb).
    exists v. repeat split; [exact Hv | exact Hb | apply failed_fetch_value, Hfailed].
Qed.

Lemma swapped_batch net net' dirPath (ids : list string) :
  (forall url, net' url = net url \/ (falsy_fetch (net url) /\ failed_fetch (net' url))) ->
  (mapM (itemOutcome net dirPath) ids = None /\
   mapM (itemOutcome net' dirPath) ids = None) \/
  exists js js',
    mapM (itemOutcome net dirPath) ids = Some js /\
    mapM (itemOutcome net' dirPath) ids = Some js' /\
    List.filter Boolean js = List.filter Boolean js'.
Proof.
  intros Hswap. induction ids as [|id ids IH].
  - right. exists [], []. repeat split.
  - cbn [mapM].
    destruct (swapped_outcome net net' dirPath id Hswap) as [Heq | (v & Hv & Hb & Hv')].
    + rewrite Heq. destruct (itemOutcome net dirPath id) as [v|]; [| left; split; reflexivity].
      destruct IH as [[-> ->] | (js & js' & -> & -> & Hjs)]; [left; split; reflexivity |].
      right. exists (v :: js), (v :: js'). repeat split.
      cbn [List.filter]. rewrite Hjs. reflexivity.
    + rewrite Hv, Hv'.
      destruct IH as [[-> ->] | (js & js' & -> & -> & Hjs)]; [left; split; reflexivity |].
      right. exists (v :: js), (JNull :: js'). repeat split.
      cbn [List.filter Boolean]. rewrite Hb. exact Hjs.
Qed.

(** The items of a page are the truthy values of its window. *)
Lemma full_page_items cmp net type limit offset w ids :
  collection_type type ->
  cache w !! listCacheKey type true = None ->
  directory cmp net type = Some ids ->
  (forall id, In id ids -> is_Some (itemOutcome net type id)) ->
  exists r w',
    handleList cmp net type true limit offset w = Returned r w' /\
    status r = 200 /\
    items_of r =
      List.filter Boolean
        (map (itemValue net type)
           (JS.slice (paginate ids offset) 0 (Some (effectiveLimit limit)))) /\
    data_field r "count" = Some (JNum (Z.of_nat (length (items_of r)))).
Proof.
  intros Htype Hmiss Hdir Hitems.
  rewrite (handleList_miss _ _ _ _ _ _ _ _ Htype Hmiss Hdir). cbv zeta.
  rewrite mapM_itemOutcome
    by (intros id Hid; apply Hitems; eapply In_paginate, In_slice_to, Hid).
  eexists _, _. split; [reflexivity |]. repeat split.
Qed.

(** ** The aggregate invariant (C1) *)

(** For an absent or positive limit, a full page built on a cache miss
    satisfies [size(items) = count <= limit <= 45], its [limit] is the
    requested one capped at 45, its [total] is the number of identifiers of
    the directory whatever the offset, and at most 45 items are fetched. *)
Lemma full_page_invariant cmp net type limit offset w ids :
  collection_type type ->
  cache w !! listCacheKey type true = None ->
  directory cmp net type = Some ids ->
  (forall id, In id ids -> is_Some (itemOutcome net type id)) ->
  (limit = None \/ exists l, limit = Some l /\ 0 < l) ->
  exists r w' count items,
    handleList cmp net type true limit offset w = Returned r w' /\
    status r = 200 /\
    data_field r "items" = Some (JArr items) /\
    data_field r "count" = Some (JNum count) /\
    data_field r "limit" = Some (JNum (effectiveLimit limit)) /\
    data_field r "total" = Some (JNum (Z.of_nat (length ids))) /\
    Z.of_nat (length items) = count /\
    count <= effectiveLimit limit <= 45 /\
    effectiveLimit limit =
      match limit with Some l => Z.min l 45 | None => 45 end /\
    (length (outbound w') <= length (outbound w) + 46)%nat.
Proof.
  intros Htype Hmiss Hdir Hitems Hlimit.
  rewrite (handleList_miss _ _ _ _ _ _ _ _ Htype Hmiss Hdir). cbv zeta.
  rewrite mapM_itemOutcome
    by (intros id Hid; apply Hitems; eapply In_paginate, In_slice_to, Hid).
  assert (HL : 0 < effectiveLimit limit <= 45 /\
               effectiveLimit limit = match limit with Some l => Z.min l 45 | None => 45 end).
  { destruct Hlimit as [-> | (l & -> & Hl)]; [unfold effectiveLimit, MAX_ITEMS; lia |].
    rewrite effectiveLimit_positive by lia. unfold MAX_ITEMS. lia. }
  destruct HL as [HL Heq].
  pose proof (fullData_fields type (Z.of_nat (length ids)) offset (effectiveLimit limit)
                (map (itemValue net type)
                   (JS.slice (paginate ids offset) 0 (Some (effectiveLimit limit)))))
    as (Hst & _ & Htot & Hcount & _ & Hlim & Hit & _).
  cbv zeta in *.
  assert (Hwindow :
    (length (JS.slice (paginate ids offset) 0 (Some (effectiveLimit limit)))
     <= Z.to_nat (effectiveLimit limit))%nat).
  { rewrite slice_prefix by lia. rewrite length_take. lia. }
  eexists _, _, _, _. split; [reflexivity |].
  split; [exact Hst |]. split; [exact Hit |]. split; [exact Hcount |].
  split; [exact Hlim |]. split; [exact Htot |]. split; [reflexivity |].
  split; [| split; [exact Heq |]].
  - pose proof (List.filter_length_le Boolean
        (map (itemValue net type)
           (JS.slice (paginate ids offset) 0 (Some (effectiveLimit limit))))) as Hle.
    rewrite length_map in Hle. lia.
  - cbn [outbound]. rewrite !length_app. unfold itemRequests.
    rewrite length_map. cbn [length]. lia.
Qed.

(** C1 (code behaviour at the failing input).  With [limit=-1] the worker
    does not fall back to the ceiling of 45: on a directory of 47 files the
    page reports [limit = -1], returns 46 items ([count = 46 > limit] and
    [count > 45]) and issues 47 outbound requests. *)
Theorem negative_limit_breaks_aggregate_invariant :
  let request := Fixtures.GET "/v1/items" [("full", "true"); ("limit", "-1")] in
  let '(r, w) := fetch Fixtures.byteCompare Fixtures.items_47 request Fixtures.idle in
  status r = 200 /\
  data_field r "total" = Some (JNum 47) /\
  data_field r "limit" = Some (JNum (-1)) /\
  data_field r "count" = Some (JNum 46) /\
  length (items_of r) = 46%nat /\
  length (outbound w) = 47%nat.
Proof. vm_compute. repeat split. Qed.

(** ** Cache keys (C2) *)

(** The key of a collection listing tells the two modes apart. *)
Lemma listCacheKey_modes dirPath :
  listCacheKey dirPath true <> listCacheKey dirPath false.
Proof.
  unfold listCacheKey. generalize (listingUrl dirPath) as u.
  induction u as [|c u IH]; cbn [String.append]; [discriminate |].
  intros H. injection H as H. exact (IH H).
Qed.

(** C2 (code behaviour at the failing input).  Two pages of the same full
    listing have different payloads, with different sets of fields (the first
    has [next] and no [prev], the second [prev] and no [next]), yet both are
    stored under the one key [listing URL + ?full=true]: asked after the first
    page, the second request is answered with the first page. *)
Theorem cache_key_ignores_pagination :
  let page1 := Fixtures.GET "/v1/items" [("full", "true"); ("limit", "1")] in
  let page2 :=
    Fixtures.GET "/v1/items" [("full", "true"); ("offset", "1"); ("limit", "1")] in
  let '(r1, w1) := fetch Fixtures.byteCompare Fixtures.items_ab page1 Fixtures.idle in
  let '(r2, w2) := fetch Fixtures.byteCompare Fixtures.items_ab page2 Fixtures.idle in
  let '(r2', _) := fetch Fixtures.byteCompare Fixtures.items_ab page2 w1 in
  field_names r1 = ["type"; "total"; "count"; "offset"; "limit"; "items"; "next"] /\
  field_names r2 = ["type"; "total"; "count"; "offset"; "limit"; "items"; "prev"] /\
  cache_keys w1 = [listCacheKey "items" true] /\
  cache_keys w2 = [listCacheKey "items" true] /\
  items_of r1 = [Fixtures.item "a"] /\
  items_of r2 = [Fixtures.item "b"] /\
  items_of r2' = [Fixtures.item "a"] /\
  body r2' = body r1.
Proof. vm_compute. repeat split. Qed.

(** ** List-only responses (C3) *)

(** C3 (counterexample).  In list-only mode the offset is applied: with the
    identifiers [a], [b], [c] in the directory and [offset=1], the response
    lists [b] and [c] only, not one pair for every identifier. *)
Lemma list_only_applies_offset :
  let request := Fixtures.GET "/v1/items" [("offset", "1")] in
  let '(r, w) := fetch Fixtures.byteCompare Fixtures.items_abc request Fixtures.idle in
  directory Fixtures.byteCompare Fixtures.items_abc "items" = Some ["a"; "b"; "c"] /\
  status r = 200 /\
  items_of r = [Fixtures.stub "items" "b"; Fixtures.stub "items" "c"] /\
  items_of r <> map (Fixtures.stub "items") ["a"; "b"; "c"] /\
  data_field r "count" = Some (JNum 2).
Proof. vm_compute. repeat split. discriminate. Qed.

(** C3 (amended).  When [full] is false, the response built on a cache miss
    holds one (id, "/v1/{type}/{id}") pair for every identifier of the
    directory listing that is left once the first [offset] identifiers are
    dropped (all of them when [offset] is not positive); no limit is applied,
    whatever the limit of the request; [count] is the number of items; and
    the directory listing is the only outbound request: no item is fetched. *)
Theorem list_only_lists_ids_after_offset cmp net type limit offset w ids :
  collection_type type ->
  cache w !! listCacheKey type false = None ->
  directory cmp net type = Some ids ->
  exists r w',
    handleList cmp net type false limit offset w = Returned r w' /\
    status r = 200 /\
    items_of r =
      map (fun id => JObj [("id", JStr id);
                           ("url", JStr ("/v1/" +:+ type +:+ "/" +:+ id))])
          (drop (Z.to_nat offset) ids) /\
    length (items_of r) = length (drop (Z.to_nat offset) ids) /\
    data_field r "count" = Some (JNum (Z.of_nat (length (items_of r)))) /\
    outbound w' = outbound w ++ [listingRequest type].
Proof.
  intros Htype Hmiss Hdir.
  rewrite (handleList_miss _ _ _ _ _ _ _ _ Htype Hmiss Hdir). cbv zeta.
  eexists _, _. split; [reflexivity |].
  rewrite paginate_drop.
  unfold items_of, data_field. cbn. rewrite length_map. repeat split.
Qed.

Lemma list_only_lists_ids_after_offset_witness :
  exists r w',
    handleList Fixtures.byteCompare Fixtures.items_abc "items" false (Some 1) 1
      Fixtures.idle = Returned r w' /\
    status r = 200 /\
    items_of r =
      map (fun id => JObj [("id", JStr id);
                           ("url", JStr ("/v1/" +:+ "items" +:+ "/" +:+ id))])
          (drop (Z.to_nat 1) ["a"; "b"; "c"]) /\
    length (items_of r) = length (drop (Z.to_nat 1) ["a"; "b"; "c"]) /\
    data_field r "count" = Some (JNum (Z.of_nat (length (items_of r)))) /\
    outbound w' = outbound Fixtures.idle ++ [listingRequest "items"].
Proof.
  apply (list_only_lists_ids_after_offset
           Fixtures.byteCompare Fixtures.items_abc "items" (Some 1) 1 Fixtures.idle
           ["a"; "b"; "c"]).
  - left. reflexivity.
  - reflexivity.
  - reflexivity.
Defined.

(** ** Pagination (C4) *)

(** C4 (counterexample).  Following [next] from offset 0 with limit 1 over a
    directory of two identifiers, one of which is missing upstream, ends with
    pages that hold the item [a] only; and with limit -1 no page without a
    [next] field is ever reached, whatever the number of pages followed. *)
Lemma pagination_round_trip_counterexample :
  (directory Fixtures.byteCompare Fixtures.items_ab_missing_b "items" = Some ["a"; "b"] /\
   match follow_next Fixtures.byteCompare Fixtures.items_ab_missing_b expire 3
           (first_page "items" (Some 1)) Fixtures.idle with
   | Some pages =>
       length pages = 2%nat /\
       omap Fixtures.item_id (concat (map items_of pages)) = ["a"]
   | None => False
   end) /\
  (forall fuel,
     follow_next Fixtures.byteCompare Fixtures.items_ab expire fuel
       (first_page "items" (Some (-1))) Fixtures.idle = None).
Proof.
  split.
  - vm_compute. repeat split.
  - intros fuel. unfold first_page.
    apply (negative_limit_never_ends Fixtures.byteCompare Fixtures.items_ab expire
             "items" ["a"; "b"] (-1)) with (o := 0).
    + left. reflexivity.
    + vm_compute. reflexivity.
    + intros id [<- | [<- | []]]; eexists; vm_compute; reflexivity.
    + intros w. reflexivity.
    + lia.
    + lia.
    + repeat split.
    + reflexivity.
Qed.

(** A full page is built on a cache miss exactly when no item fetch of its
    window rejects, and it is then the page of the window's values. *)
Lemma full_page_built_iff cmp net type limit offset w ids :
  collection_type type ->
  cache w !! listCacheKey type true = None ->
  directory cmp net type = Some ids ->
  let window := JS.slice (paginate ids offset) 0 (Some (effectiveLimit limit)) in
  ((exists r w', handleList cmp net type true limit offset w = Returned r w') <->
   (forall id, In id window -> is_Some (itemOutcome net type id))) /\
  (forall r w',
     handleList cmp net type true limit offset w = Returned r w' ->
     r = addCorsHeaders
           (cacheable (fullData type (Z.of_nat (length ids)) offset (effectiveLimit limit)
                         (map (itemValue net type) window)))).
Proof.
  intros Htype Hmiss Hdir window.
  rewrite (handleList_miss _ _ _ _ _ _ _ _ Htype Hmiss Hdir). cbv zeta. fold window.
  destruct (mapM (itemOutcome net type) window) as [itemsData|] eqn:Hbatch.
  - assert (Hsome : forall id, In id window -> is_Some (itemOutcome net type id)).
    { assert (H : is_Some (mapM (itemOutcome net type) window))
        by (rewrite Hbatch; eexists; reflexivity).
      apply mapM_is_Some in H. rewrite Forall_forall in H.
      intros id Hin. apply H, list_elem_of_In, Hin. }
    rewrite (mapM_itemOutcome _ _ _ Hsome) in Hbatch. injection Hbatch as <-.
    split; [split; [intros _; exact Hsome | intros _; eexists _, _; reflexivity] |].
    intros r w' [= <- <-]. reflexivity.
  - split; [| discriminate]. split; [intros (r & w' & H); discriminate H |].
    intros Hsome. rewrite (mapM_itemOutcome _ _ _ Hsome) in Hbatch. discriminate.
Qed.

(** C4 (amended).  A full page is built on a cache miss exactly when no item
    fetch of the page rejects.  For every page so built, when the offset, the
    effective limit, their sum and their difference are safe integers (where
    the arithmetic and the printing of the runtime are exact), [next] is
    present exactly when [offset + effectiveLimit < totalItems] and points at
    [offset + effectiveLimit] with the same limit, and [prev] is present
    exactly when [offset > 0] and points at [max(0, offset - effectiveLimit)]
    with the same limit.  When the limit is absent or positive, every page is
    built on a cache miss and no item fetch of the collection rejects (each
    is answered, and a 2xx answer has a JSON body), following [next] from
    offset 0 ends after finitely many requests at a page with no [next]
    field, and the pages' items, concatenated, are the truthy payloads of the
    sorted identifiers, in order and each identifier contributing at most
    once (every payload when all are truthy). *)
Theorem pagination_links_and_round_trip
    cmp net between type ids limit offset limit0 w :
  collection_type type ->
  directory cmp net type = Some ids ->
  cache w !! listCacheKey type true = None ->
  (forall w', cache (between w') !! listCacheKey type true = None) ->
  let L := effectiveLimit limit in
  ((exists r w', handleList cmp net type true limit offset w = Returned r w') <->
   (forall id, In id (JS.slice (paginate ids offset) 0 (Some L)) ->
      is_Some (itemOutcome net type id))) /\
  (forall r w',
     handleList cmp net type true limit offset w = Returned r w' ->
     JS.safe offset -> JS.safe L -> JS.safe (offset + L) -> JS.safe (offset - L) ->
     data_field r "next" =
       (if offset + L <? Z.of_nat (length ids)
        then Some (JStr (pageLink type (offset + L) L))
        else None) /\
     data_field r "prev" =
       (if 0 <? offset
        then Some (JStr (pageLink type (Z.max 0 (offset - L)) L))
        else None)) /\
  ((forall id, In id ids -> is_Some (itemOutcome net type id)) ->
   (limit0 = None \/ exists l, limit0 = Some l /\ 0 < l) ->
   exists fuel pages r,
     follow_next cmp net between fuel (first_page type limit0) w = Some pages /\
     last pages = Some r /\ next_link r = None /\
     Forall (fun r => status r = 200) pages /\
     concat (map items_of pages) =
       List.filter Boolean (map (itemValue net type) ids) /\
     ((forall id, In id ids -> Boolean (itemValue net type id) = true) ->
      concat (map items_of pages) = map (itemValue net type) ids)).
Proof.
  intros Htype Hdir Hmiss Hbetween L.
  destruct (full_page_built_iff cmp net type limit offset w ids Htype Hmiss Hdir)
    as [Hbuilt Hpage].
  split; [exact Hbuilt |]. split.
  - intros r w' Hrun _ _ _ _. rewrite (Hpage r w' Hrun).
    pose proof (fullData_fields type (Z.of_nat (length ids)) offset L
                  (map (itemValue net type) (JS.slice (paginate ids offset) 0 (Some L))))
      as (_ & _ & _ & _ & _ & _ & _ & Hnext & Hprev).
    split; [exact Hnext | exact Hprev].
  - intros Hitems Hlimit.
    assert (HL : 0 < effectiveLimit limit0 <= MAX_ITEMS).
    { destruct Hlimit as [-> | (l & -> & Hl)]; [unfold effectiveLimit, MAX_ITEMS; lia |].
      rewrite effectiveLimit_positive by lia. unfold MAX_ITEMS. lia. }
    destruct (follow_next_from cmp net between type ids (effectiveLimit limit0)
                Htype Hdir Hitems Hbetween HL (length ids) 0
                (searchParams (first_page type limit0)) w
                ltac:(lia) ltac:(lia) (page_query_first limit0 Hlimit) Hmiss)
      as (pages & r & Hchain & Hlast & Hnone & Hall & Hconcat).
    exists (S (length ids)), pages, r.
    split; [exact Hchain |]. split; [exact Hlast |]. split; [exact Hnone |].
    split; [exact Hall |]. rewrite Hconcat. change (Z.to_nat 0) with O. rewrite drop_0.
    split; [reflexivity |]. apply filter_Boolean_truthy.
Qed.

Lemma pagination_links_and_round_trip_witness :
  (exists r w',
     handleList Fixtures.byteCompare Fixtures.items_abc "items" true (Some 1) 1
       Fixtures.idle = Returned r w' /\
     data_field r "next" =
       (if 1 + effectiveLimit (Some 1) <? Z.of_nat (length ["a"; "b"; "c"])
        then Some (JStr (pageLink "items" (1 + effectiveLimit (Some 1))
                           (effectiveLimit (Some 1))))
        else None) /\
     data_field r "prev" =
       (if 0 <? 1
        then Some (JStr (pageLink "items" (Z.max 0 (1 - effectiveLimit (Some 1)))
                           (effectiveLimit (Some 1))))
        else None)) /\
  (exists fuel pages r,
     follow_next Fixtures.byteCompare Fixtures.items_abc expire fuel
       (first_page "items" (Some 2)) Fixtures.idle = Some pages /\
     last pages = Some r /\ next_link r = None /\
     Forall (fun r => status r = 200) pages /\
     concat (map items_of pages) =
       List.filter Boolean (map (itemValue Fixtures.items_abc "items") ["a"; "b"; "c"]) /\
     ((forall id, In id ["a"; "b"; "c"] ->
         Boolean (itemValue Fixtures.items_abc "items" id) = true) ->
      concat (map items_of pages) =
        map (itemValue Fixtures.items_abc "items") ["a"; "b"; "c"])).
Proof.
  destruct (pagination_links_and_round_trip
              Fixtures.byteCompare Fixtures.items_abc expire "items" ["a"; "b"; "c"]
              (Some 1) 1 (Some 2) Fixtures.idle)
    as (Hbuilt & Hlinks & Hround).
  - left. reflexivity.
  - reflexivity.
  - reflexivity.
  - intros w'. reflexivity.
  - split.
    + destruct (proj2 Hbuilt) as (r & w' & Hrun).
      { intros id [<- | []]. eexists. reflexivity. }
      exists r, w'. split; [exact Hrun |].
      apply (Hlinks r w' Hrun); unfold JS.safe, JS.MAX_SAFE_INTEGER; simpl; lia.
    + apply Hround.
      * intros id [<- | [<- | [<- | []]]]; eexists; reflexivity.
      * right. exists 2. split; [reflexivity | lia].
Defined.

(** ** Item failures inside a batch (C5) *)





(** ** Single items (C6) *)

(** What [handleGetItem] does for a collection type, case by case: the cache
    key is the upstream URL of the item. *)
Lemma handleGetItem_cases net type id w :
  collection_type type ->
  handleGetItem net type id w =
  match cache w !! itemUrl type id with
  | Some response => Returned (addCorsHeaders response) w
  | None =>
      let w1 := mkWorld (cache w) (outbound w ++ [(itemUrl type id, [user_agent])]) in
      match net (itemUrl type id) with
      | NetworkError => Threw w1
      | Answer upstream =>
          if ok upstream then
            Returned (addCorsHeaders (passThrough upstream))
              (mkWorld (<[itemUrl type id := passThrough upstream]> (cache w))
                 (outbound w1))
          else
            Returned
              (if status upstream =? 404
               then jsonResponse
                      (error_body (JS.string_slice type 0 (-1) +:+ " not found: " +:+ id))
                      404
               else jsonResponse (error_body "Failed to fetch data") 502)
              w1
      end
  end.
Proof.
  intros Htype. unfold handleGetItem.
  rewrite (collection_type_present _ Htype), (collection_type_own _ Htype).
  cbn [negb render]. unfold bind, cache_match, fetch_url.
  destruct (cache w !! itemUrl type id); [reflexivity |].
  destruct (net (itemUrl type id)) as [|upstream]; [reflexivity |].
  destruct (ok upstream); [reflexivity |]. cbn [negb].
  destruct (status upstream =? 404); reflexivity.
Qed.

(** On a cache miss, an upstream 404 is answered 404 with the type minus its
    last character in the message, any other non-2xx status 502. *)
Lemma handleGetItem_upstream_failure net type id w upstream :
  collection_type type ->
  cache w !! itemUrl type id = None ->
  net (itemUrl type id) = Answer upstream ->
  ok upstream = false ->
  exists w',
    handleGetItem net type id w =
    Returned
      (if status upstream =? 404 then
         jsonResponse
           (error_body (JS.string_slice type 0 (-1) +:+ " not found: " +:+ id)) 404
       else jsonResponse (error_body "Failed to fetch data") 502)
      w'.
Proof.
  intros Htype Hmiss Hnet Hok.
  rewrite (handleGetItem_cases _ _ _ _ Htype), Hmiss, Hnet, Hok.
  eexists. reflexivity.
Qed.

(** The message prefix of each collection type: the type without its last
    character. *)
Lemma singular_of_collection_types :
  JS.string_slice "items" 0 (-1) = "item" /\
  JS.string_slice "quests" 0 (-1) = "quest" /\
  JS.string_slice "map-events" 0 (-1) = "map-event" /\
  JS.string_slice "hideout" 0 (-1) = "hideou".
Proof. repeat split. Qed.

(** C6 (code behaviour at the failing input).  The type [hideout] has no
    trailing "s"; the worker removes its last character all the same, and
    the message of the 404 starts with "hideou". *)
Theorem hideout_not_found_message :
  let request := Fixtures.GET "/v1/hideout/ghost" [] in
  let '(r, _) := fetch Fixtures.byteCompare Fixtures.nothing request Fixtures.idle in
  status r = 404 /\
  body r = Json (JObj [("error", JStr "hideou not found: ghost")]).
Proof. vm_compute. repeat split. Qed.

(** ** The directory manifest (C7) *)

Lemma is_json_file_entry e : is_json_file (json_of_entry e) = Some (kept e).
Proof.
  unfold is_json_file, json_of_entry, kept. cbn [get_property].
  change (assoc "type" [("name", JStr (entry_name e)); ("type", JStr (entry_type e))])
    with (Some (JStr (entry_type e))).
  change (assoc "name" [("name", JStr (entry_name e)); ("type", JStr (entry_type e))])
    with (Some (JStr (entry_name e))).
  cbv beta iota.
  destruct (String.eqb (entry_type e) "file"); reflexivity.
Qed.

Lemma filter_throwing_entries es :
  filter_throwing is_json_file (map json_of_entry es) =
  Some (map json_of_entry (List.filter kept es)).
Proof.
  induction es as [|e es IH]; [reflexivity |].
  cbn [map filter_throwing List.filter]. rewrite is_json_file_entry, IH.
  destruct (kept e); reflexivity.
Qed.

Lemma mapM_file_id_entries es :
  mapM file_id (map json_of_entry es) =
  Some (map (fun e => JS.replace (entry_name e) ".json" "") es).
Proof.
  induction es as [|e es IH]; [reflexivity |].
  cbn [map mapM]. rewrite IH. reflexivity.
Qed.

(** On a well-formed manifest the worker keeps exactly the entries that are
    files, whose name ends in ".json" and does not begin with "_"; each kept
    name has its first ".json" removed, and the results are sorted. *)
Lemma allJsonFiles_manifest cmp es :
  allJsonFiles cmp (JArr (map json_of_entry es)) =
  Some (sort cmp (map (fun e => JS.replace (entry_name e) ".json" "")
                      (List.filter kept es))).
Proof.
  unfold allJsonFiles. rewrite filter_throwing_entries, mapM_file_id_entries.
  reflexivity.
Qed.

Lemma insert_sorted_perm cmp a l : Permutation (insert_sorted cmp a l) (a :: l).
Proof.
  induction l as [|b l IH]; cbn [insert_sorted]; [reflexivity |].
  destruct (cmp a b <=? 0); [reflexivity |].
  rewrite IH. apply perm_swap.
Qed.

(** Sorting permutes the identifiers. *)
Lemma sort_perm cmp l : Permutation (sort cmp l) l.
Proof.
  induction l as [|a l IH]; [reflexivity |].
  cbn [sort foldr]. fold (sort cmp l). rewrite insert_sorted_perm, IH. reflexivity.
Qed.

Lemma insert_sorted_sorted cmp a l :
  (forall x y, 0 < cmp x y -> cmp y x <= 0) ->
  Sorted (fun x y => cmp x y <= 0) l ->
  Sorted (fun x y => cmp x y <= 0) (insert_sorted cmp a l).
Proof.
  intros Htotal. induction l as [|b l IH]; intros Hl; cbn [insert_sorted].
  - repeat constructor.
  - destruct (Z.leb_spec (cmp a b) 0) as [Hab | Hab].
    + constructor; [exact Hl | constructor; exact Hab].
    + apply Sorted_inv in Hl as [Hl Hhd]. constructor; [apply IH, Hl |].
      destruct l as [|c l]; cbn [insert_sorted].
      * constructor. apply Htotal, Hab.
      * destruct (Z.leb_spec (cmp a c) 0).
        -- constructor. apply Htotal, Hab.
        -- constructor. apply HdRel_inv in Hhd. exact Hhd.
Qed.

(** With a comparison in which one of two identifiers always comes first,
    the identifiers come out in non-decreasing order. *)
Lemma sort_sorted cmp l :
  (forall x y, 0 < cmp x y -> cmp y x <= 0) ->
  Sorted (fun x y => cmp x y <= 0) (sort cmp l).
Proof.
  intros Htotal. induction l as [|a l IH]; [constructor |].
  cbn [sort foldr]. fold (sort cmp l). apply insert_sorted_sorted; assumption.
Qed.

(** The window of a page is a run of consecutive sorted identifiers, and the
    items of the page follow the order of the window. *)
Lemma full_page_window_order (ids : list string) offset L :
  sublist (JS.slice (paginate ids offset) 0 (Some L)) ids.
Proof.
  rewrite paginate_drop.
  destruct (Z.lt_ge_cases L 0).
  - rewrite slice_negative_end by assumption.
    etransitivity; [apply sublist_take | apply sublist_drop].
  - rewrite slice_prefix by lia.
    etransitivity; [apply sublist_take | apply sublist_drop].
Qed.

(** C7 (code behaviour at the failing input).  The identifier is obtained by
    removing the first occurrence of ".json" from the name, not the
    extension: the file [a.jsonb.json] is listed as [ab.json], and the URL the
    worker builds for that identifier is not the URL of the file. *)
Theorem first_occurrence_replaced_not_extension :
  let request := Fixtures.GET "/v1/items" [] in
  let '(r, _) := fetch Fixtures.byteCompare Fixtures.items_odd_name request Fixtures.idle in
  JS.endsWith "a.jsonb.json" ".json" = true /\
  directory Fixtures.byteCompare Fixtures.items_odd_name "items" = Some ["ab.json"] /\
  items_of r = [Fixtures.stub "items" "ab.json"] /\
  itemUrl "items" "ab.json" = GITHUB_BASE +:+ "/items/ab.json.json" /\
  itemUrl "items" "ab.json" <> GITHUB_BASE +:+ "/items/a.jsonb.json".
Proof. vm_compute. repeat split. discriminate. Qed.

(** ** Aliases (C8) *)

(** A path with an upper-case letter matches neither route pattern. *)
Lemma canonical_skillNodes_unroutable :
  listMatch "/v1/skillNodes" = None /\ itemMatch "/v1/skillNodes" = None.
Proof. split; reflexivity. Qed.

(** C8 (counterexample).  A request to [/v1/skillNodes] is answered
    404 "Not Found" without any upstream request, while [/v1/skill-nodes]
    fetches [skillNodes.json] and is answered 200. *)
Lemma canonical_name_request_not_found :
  let canonical := Fixtures.GET "/v1/skillNodes" [] in
  let alias := Fixtures.GET "/v1/skill-nodes" [] in
  let '(rc, wc) := fetch Fixtures.byteCompare Fixtures.skill_nodes canonical Fixtures.idle in
  let '(ra, wa) := fetch Fixtures.byteCompare Fixtures.skill_nodes alias Fixtures.idle in
  status rc = 404 /\
  body rc = Json (JObj [("error", JStr "Not Found")]) /\
  outbound wc = [] /\ cache_keys wc = [] /\
  status ra = 200 /\
  outbound wa = [(GITHUB_BASE +:+ "/skillNodes.json", [user_agent])] /\
  cache_keys wa = [GITHUB_BASE +:+ "/skillNodes.json"].
Proof. vm_compute. repeat split. Qed.

(** What [handleSingleFile] does, case by case. *)
Lemma handleSingleFile_cases net type w :
  handleSingleFile net type w =
  match cache w !! singleFileUrl type with
  | Some response => Returned (addCorsHeaders response) w
  | None =>
      let w1 := mkWorld (cache w) (outbound w ++ [(singleFileUrl type, [user_agent])]) in
      match net (singleFileUrl type) with
      | NetworkError => Threw w1
      | Answer upstream =>
          if ok upstream then
            Returned (addCorsHeaders (passThrough upstream))
              (mkWorld (<[singleFileUrl type := passThrough upstream]> (cache w))
                 (outbound w1))
          else
            Returned
              (if status upstream =? 404
               then jsonResponse (error_body ("Data not found: " +:+ type)) 404
               else jsonResponse (error_body "Failed to fetch data") 502)
              w1
      end
  end.
Proof.
  unfold handleSingleFile, bind, cache_match, fetch_url.
  destruct (cache w !! singleFileUrl type); [reflexivity |].
  destruct (net (singleFileUrl type)) as [|upstream]; [reflexivity |].
  destruct (ok upstream); [reflexivity |]. cbn [negb].
  destruct (status upstream =? 404); reflexivity.
Qed.

(** C8 (amended).  For every alias of the table, alias and canonical name
    denote the same registry entry, hence the same upstream URL, and
    [handleSingleFile] issues the same outbound requests and leaves the same
    cache for both (the answers differ only in the message of an upstream
    404, which names the type); the router serves the alias through
    [handleSingleFile], while the canonical name, not being in lower case,
    matches no route and is answered 404 "Not Found". *)
Theorem alias_shares_upstream_and_cache_key alias canonical cmp net q w :
  In (alias, canonical) aliases ->
  SINGLE_FILE_TYPES alias = SINGLE_FILE_TYPES canonical /\
  singleFileUrl alias = singleFileUrl canonical /\
  world_of (handleSingleFile net alias w) = world_of (handleSingleFile net canonical w) /\
  (handleSingleFile net alias w = handleSingleFile net canonical w \/
   exists upstream, net (singleFileUrl canonical) = Answer upstream /\
                    status upstream = 404) /\
  route cmp net (mkRequest "GET" ("/v1/" +:+ alias) q) w = handleSingleFile net alias w /\
  fetch cmp net (mkRequest "GET" ("/v1/" +:+ canonical) q) w =
    (jsonResponse (error_body "Not Found") 404, w).
Proof.
  intros [[= <- <-] | []].
  split; [reflexivity |]. split; [reflexivity |].
  split; [| split; [| split; reflexivity]].
  - rewrite !handleSingleFile_cases.
    change (singleFileUrl "skill-nodes") with (singleFileUrl "skillNodes").
    destruct (cache w !! singleFileUrl "skillNodes"); [reflexivity |].
    destruct (net (singleFileUrl "skillNodes")) as [|upstream]; [reflexivity |].
    destruct (ok upstream); reflexivity.
  - rewrite !handleSingleFile_cases.
    change (singleFileUrl "skill-nodes") with (singleFileUrl "skillNodes").
    destruct (cache w !! singleFileUrl "skillNodes"); [left; reflexivity |].
    destruct (net (singleFileUrl "skillNodes")) as [|upstream] eqn:Hnet;
      [left; reflexivity |].
    destruct (ok upstream); [left; reflexivity |].
    destruct (Z.eqb_spec (status upstream) 404);
      [right; exists upstream; split; [reflexivity | assumption] | left; reflexivity].
Qed.

Lemma alias_shares_upstream_and_cache_key_witness :
  SINGLE_FILE_TYPES "skill-nodes" = SINGLE_FILE_TYPES "skillNodes" /\
  singleFileUrl "skill-nodes" = singleFileUrl "skillNodes" /\
  world_of (handleSingleFile Fixtures.skill_nodes "skill-nodes" Fixtures.idle) =
    world_of (handleSingleFile Fixtures.skill_nodes "skillNodes" Fixtures.idle) /\
  (handleSingleFile Fixtures.skill_nodes "skill-nodes" Fixtures.idle =
     handleSingleFile Fixtures.skill_nodes "skillNodes" Fixtures.idle \/
   exists upstream, Fixtures.skill_nodes (singleFileUrl "skillNodes") = Answer upstream /\
                    status upstream = 404) /\
  route Fixtures.byteCompare Fixtures.skill_nodes
    (mkRequest "GET" ("/v1/" +:+ "skill-nodes") []) Fixtures.idle =
    handleSingleFile Fixtures.skill_nodes "skill-nodes" Fixtures.idle /\
  fetch Fixtures.byteCompare Fixtures.skill_nodes
    (mkRequest "GET" ("/v1/" +:+ "skillNodes") []) Fixtures.idle =
    (jsonResponse (error_body "Not Found") 404, Fixtures.idle).
Proof.
  apply (alias_shares_upstream_and_cache_key "skill-nodes" "skillNodes"
           Fixtures.byteCompare Fixtures.skill_nodes [] Fixtures.idle).
  left. reflexivity.
Defined.

(** ** Response headers (C9) *)

(** Every response that went through [addCorsHeaders] carries the CORS and
    security headers. *)
Lemma addCorsHeaders_headers r :
  Forall (fun h => headers (addCorsHeaders r) !! h.1 = Some h.2) cors_security_headers.
Proof.
  unfold addCorsHeaders, set_header, cors_security_headers. cbn [headers].
  repeat (apply Forall_cons; split); [.. | apply Forall_nil];
    cbn [fst snd]; by simplify_map_eq.
Qed.

Lemma addCorsHeaders_status_body r :
  status (addCorsHeaders r) = status r /\ body (addCorsHeaders r) = body r.
Proof. split; reflexivity. Qed.

(** The preflight answer: five headers, among which [Access-Control-Max-Age],
    and no body. *)
Lemma handleCors_response :
  body handleCors = NoBody /\
  headers handleCors !! "Access-Control-Max-Age" = Some "86400" /\
  headers handleCors !! "Access-Control-Allow-Origin" = Some "*" /\
  headers handleCors !! "Access-Control-Allow-Methods" = Some "GET, OPTIONS" /\
  headers handleCors !! "Access-Control-Allow-Headers" = Some "Content-Type" /\
  is_Some (headers handleCors !! "Strict-Transport-Security").
Proof. vm_compute. repeat split. eexists. reflexivity. Qed.

(** Which responses carry the headers: a handler answers either through
    [addCorsHeaders] (data, from the upstream or from the cache) or with a
    bare [jsonResponse] (errors). *)
Lemma handleSingleFile_headers net type w r w' :
  handleSingleFile net type w = Returned r w' -> covered r \/ bare r.
Proof.
  rewrite handleSingleFile_cases. cbv zeta. intros H.
  repeat case_match; simplify_eq;
    (left; apply addCorsHeaders_headers) || (right; reflexivity).
Qed.

Lemma handleGetItem_headers net type id w r w' :
  handleGetItem net type id w = Returned r w' -> covered r \/ bare r.
Proof.
  unfold handleGetItem, bind, cache_match, fetch_url, cache_put, ret. intros H.
  repeat case_match; simplify_eq;
    (left; apply addCorsHeaders_headers) || (right; reflexivity).
Qed.

Lemma handleList_headers cmp net type full limit offset w r w' :
  handleList cmp net type full limit offset w = Returned r w' -> covered r \/ bare r.
Proof.
  unfold handleList, bind, cache_match, fetch_url, cache_put, json, lift, ret, throw.
  intros H.
  repeat case_match; simplify_eq;
    (left; apply addCorsHeaders_headers) || (right; reflexivity).
Qed.

(** Every response of the worker is the preflight answer, a covered
    response, or a bare one. *)
Lemma fetch_headers cmp net request w :
  let r := (fetch cmp net request w).1 in
  r = handleCors \/ covered r \/ bare r.
Proof.
  cbv zeta. unfold fetch.
  destruct (String.eqb (method request) "OPTIONS"); [left; reflexivity |].
  right. destruct (route cmp net request w) as [w'|r w'] eqn:Hroute;
    [right; reflexivity |].
  cbn [fst]. unfold route, ret in Hroute.
  repeat case_match; simplify_eq;
    eauto using handleSingleFile_headers, handleGetItem_headers, handleList_headers;
    right; reflexivity.
Qed.

(** C9 (code behaviour at the failing inputs).  Responses built by
    [jsonResponse] alone carry [Content-Type] and nothing else: the 404 for
    an unknown type and the API information have no CORS or security header;
    the preflight answer lacks four of the security headers. *)
Theorem error_and_info_responses_lack_headers :
  let unknown := Fixtures.GET "/v1/not-a-type" [] in
  let info := Fixtures.GET "/v1" [] in
  let preflight := mkRequest "OPTIONS" "/v1/items" [] in
  let '(ru, _) := fetch Fixtures.byteCompare Fixtures.nothing unknown Fixtures.idle in
  let '(ri, _) := fetch Fixtures.byteCompare Fixtures.nothing info Fixtures.idle in
  let '(rp, _) := fetch Fixtures.byteCompare Fixtures.nothing preflight Fixtures.idle in
  status ru = 404 /\
  map_to_list (headers ru) = [("Content-Type", "application/json")] /\
  status ri = 200 /\
  map_to_list (headers ri) = [("Content-Type", "application/json")] /\
  headers rp !! "X-Content-Type-Options" = None /\
  headers rp !! "X-Frame-Options" = None /\
  headers rp !! "X-XSS-Protection" = None /\
  headers rp !! "Referrer-Policy" = None.
Proof. vm_compute. repeat split. Qed.

(** ** Falsy items (C10) *)

(** C10.  In full mode, an item whose fetch succeeds with a falsy JSON body
    ([null], [false], [0] or the empty string) is left out of [items] and of
    [count]: the items of a page are the truthy values of its window.  The
    outcome of the request (the response, or the failure, and the state it
    leaves) is the one obtained when, instead, the fetches of such items
    fail with a non-2xx status; a page is built exactly when no item fetch
    of its window rejects. *)
Theorem falsy_item_omitted_like_failed cmp net net' type limit offset w ids :
  collection_type type ->
  (forall url, net' url = net url \/ (falsy_fetch (net url) /\ failed_fetch (net' url))) ->
  net' (listingUrl type) = net (listingUrl type) ->
  cache w !! listCacheKey type true = None ->
  directory cmp net type = Some ids ->
  let window := JS.slice (paginate ids offset) 0 (Some (effectiveLimit limit)) in
  handleList cmp net' type true limit offset w =
    handleList cmp net type true limit offset w /\
  ((exists r w', handleList cmp net type true limit offset w = Returned r w') <->
   (forall id, In id window -> is_Some (itemOutcome net type id))) /\
  (forall r w',
     handleList cmp net type true limit offset w = Returned r w' ->
     status r = 200 /\
     items_of r = List.filter Boolean (map (itemValue net type) window) /\
     data_field r "count" = Some (JNum (Z.of_nat (length (items_of r)))) /\
     (forall id, falsy_fetch (net (itemUrl type id)) ->
        Boolean (itemValue net type id) = false /\
        ~ In (itemValue net type id) (items_of r))).
Proof.
  intros Htype Hswap Hlisting Hmiss Hdir window.
  assert (Hdir' : directory cmp net' type = Some ids)
    by (unfold directory in *; rewrite Hlisting; exact Hdir).
  destruct (full_page_built_iff cmp net type limit offset w ids Htype Hmiss Hdir)
    as [Hbuilt Hpage].
  split; [| split; [exact Hbuilt |]].
  - rewrite (handleList_miss _ _ _ _ _ _ _ _ Htype Hmiss Hdir).
    rewrite (handleList_miss _ _ _ _ _ _ _ _ Htype Hmiss Hdir'). cbv zeta.
    destruct (swapped_batch net net' type
                (JS.slice (paginate ids offset) 0 (Some (effectiveLimit limit))) Hswap)
      as [[-> ->] | (js & js' & -> & -> & Hjs)]; [reflexivity |].
    unfold fullData. rewrite Hjs. reflexivity.
  - intros r w' Hrun. rewrite (Hpage r w' Hrun). fold window.
    pose proof (fullData_fields type (Z.of_nat (length ids)) offset (effectiveLimit limit)
                  (map (itemValue net type) window))
      as (Hst & _ & _ & Hcount & _ & _ & Hitems & _ & _).
    assert (Hit : items_of
                    (addCorsHeaders
                       (cacheable
                          (fullData type (Z.of_nat (length ids)) offset
                             (effectiveLimit limit) (map (itemValue net type) window)))) =
                  List.filter Boolean (map (itemValue net type) window))
      by (unfold items_of; rewrite Hitems; reflexivity).
    split; [exact Hst |]. split; [exact Hit |]. split; [rewrite Hit; exact Hcount |].
    intros id Hfalsy. destruct (falsy_fetch_value _ _ _ Hfalsy) as (v & Hv & Hb).
    assert (Hval : itemValue net type id = v) by (unfold itemValue; rewrite Hv; reflexivity).
    rewrite Hval. split; [exact Hb |].
    rewrite Hit. intros Hin. apply List.filter_In in Hin as [_ Hin]. congruence.
Qed.

Lemma falsy_item_omitted_like_failed_witness :
  exists r w',
    handleList Fixtures.byteCompare Fixtures.items_abc_null_b "items" true None 0
      Fixtures.idle = Returned r w' /\
    handleList Fixtures.byteCompare Fixtures.items_abc_missing_b "items" true None 0
      Fixtures.idle = Returned r w' /\
    status r = 200 /\
    items_of r =
      List.filter Boolean
        (map (itemValue Fixtures.items_abc_null_b "items")
           (JS.slice (paginate ["a"; "b"; "c"] 0) 0 (Some (effectiveLimit None)))) /\
    data_field r "count" = Some (JNum (Z.of_nat (length (items_of r)))) /\
    (forall id, falsy_fetch (Fixtures.items_abc_null_b (itemUrl "items" id)) ->
       Boolean (itemValue Fixtures.items_abc_null_b "items" id) = false /\
       ~ In (itemValue Fixtures.items_abc_null_b "items" id) (items_of r)).
Proof.
  destruct (falsy_item_omitted_like_failed
              Fixtures.byteCompare Fixtures.items_abc_null_b Fixtures.items_abc_missing_b
              "items" None 0 Fixtures.idle ["a"; "b"; "c"])
    as (Hsame & Hbuilt & Hpage).
  - left. reflexivity.
  - intros url. destruct (String.eqb_spec url (itemUrl "items" "b")) as [-> | Hne].
    + right. split.
      * eexists _, _. repeat split; [reflexivity .. | left; reflexivity].
      * eexists. split; reflexivity.
    + left. apply String.eqb_neq in Hne.
      unfold Fixtures.items_abc_missing_b, Fixtures.items_abc_null_b, Fixtures.net_of.
      cbn [assoc]. rewrite Hne. reflexivity.
  - reflexivity.
  - reflexivity.
  - reflexivity.
  - destruct (proj2 Hbuilt) as (r & w' & Hrun).
    { intros id [<- | [<- | [<- | []]]]; eexists; reflexivity. }
    exists r, w'. split; [exact Hrun |]. split; [rewrite Hsame; exact Hrun |].
    exact (Hpage r w' Hrun).
Defined.

(** * Further properties of the worker *)

(** ** Every handler is a cache-aside plan *)

Lemma handleSingleFile_plan net type w :
  handleSingleFile net type w = run_plan (planSingleFile net type) w.
Proof.
  unfold handleSingleFile, planSingleFile, run_plan, freshFile, bind, cache_match,
    fetch_url, cache_put, ret.
  destruct (cache w !! singleFileUrl type); [reflexivity |].
  destruct (net (singleFileUrl type)) as [|upstream]; [reflexivity |].
  destruct (ok upstream); [reflexivity |]. cbn [negb].
  destruct (status upstream =? 404); reflexivity.
Qed.

Lemma handleGetItem_plan net type id w :
  handleGetItem net type id w = run_plan (planGetItem net type id) w.
Proof.
  unfold handleGetItem, planGetItem.
  destruct (negb (present (COLLECTION_TYPES type))); [reflexivity |].
  unfold run_plan, freshFile, bind, cache_match, fetch_url, cache_put, ret.
  destruct (cache w !! _); [reflexivity |].
  destruct (net _) as [|upstream]; [reflexivity |].
  destruct (ok upstream); [reflexivity |]. cbn [negb].
  destruct (status upstream =? 404); reflexivity.
Qed.

Lemma handleList_plan cmp net type full limit offset w :
  handleList cmp net type full limit offset w =
  run_plan (planList cmp net type full limit offset) w.
Proof.
  unfold handleList, planList.
  destruct (negb (present (COLLECTION_TYPES type))); [reflexivity |].
  cbv zeta. unfold run_plan, freshList.
  unfold bind at 1, cache_match.
  destruct (cache w !! _); [reflexivity |].
  unfold bind at 1, fetch_url.
  destruct (net _) as [|upstream]; [reflexivity |].
  destruct (ok upstream); [| reflexivity]. cbn [negb].
  unfold bind at 1, json.
  destruct (body upstream) as [|files|]; try reflexivity.
  unfold ret at 1. unfold bind at 1, lift.
  destruct (allJsonFiles cmp files) as [ids|]; [| reflexivity].
  unfold ret at 1. destruct full.
  - unfold bind at 1. unfold bind at 1. rewrite promise_all_fetchItem.
    cbn [cache outbound]. cbv zeta.
    destruct (mapM _ _); cbn [fresh_log]; rewrite ?app_assoc; reflexivity.
  - reflexivity.
Qed.

Lemma route_plan cmp net request w :
  route cmp net request w = run_plan (planRoute cmp net request) w.
Proof.
  unfold route, planRoute. cbv zeta.
  destruct (listMatch (pathname request)) as [type|].
  - destruct (present (SINGLE_FILE_TYPES type)); [apply handleSingleFile_plan |].
    destruct (present (COLLECTION_TYPES type)); [apply handleList_plan |].
    reflexivity.
  - destruct (itemMatch (pathname request)) as [[type id]|]; [apply handleGetItem_plan |].
    destruct (_ || _); reflexivity.
Qed.

Lemma fetch_plan cmp net request w :
  String.eqb (method request) "OPTIONS" = false ->
  fetch cmp net request w =
  match run_plan (planRoute cmp net request) w with
  | Returned response w' => (response, w')
  | Threw w' => (jsonResponse (error_body "Internal Server Error") 500, w')
  end.
Proof. intros Hm. unfold fetch. rewrite Hm, route_plan. reflexivity. Qed.

Lemma plan_key_route cmp net request :
  plan_key (planRoute cmp net request) = cacheKey request.
Proof.
  unfold planRoute, cacheKey, planSingleFile, planList, planGetItem. cbv zeta.
  repeat case_match; simplify_eq/=; reflexivity.
Qed.

Lemma stored_ok_passThrough upstream : stored_ok (passThrough upstream).
Proof. repeat split. Qed.

Lemma stored_ok_cacheable data : stored_ok (cacheable data).
Proof. repeat split. Qed.

Lemma freshFile_ok net url notFound : fresh_ok (freshFile net url notFound).
Proof.
  unfold freshFile. destruct (net url) as [|upstream]; [exact I |].
  destruct (ok upstream); [apply stored_ok_passThrough |].
  destruct (status upstream =? 404); (split; [auto | reflexivity]).
Qed.

Lemma freshList_ok cmp net type dirPath full limit offset :
  fresh_ok (freshList cmp net type dirPath full limit offset).
Proof.
  unfold freshList. cbv zeta.
  repeat case_match; try exact I; try apply stored_ok_cacheable.
  split; [auto | reflexivity].
Qed.

Lemma planRoute_ok cmp net request : plan_ok (planRoute cmp net request).
Proof.
  unfold planRoute, planSingleFile, planList, planGetItem. cbv zeta.
  repeat case_match; simplify_eq/=;
    try apply freshFile_ok; try apply freshList_ok;
    (left; reflexivity) || (right; split; reflexivity).
Qed.

(** ** The cache, seen from a client *)

(** X1.  Asking twice: a request repeated on the world its first run left
    gets the same response, leaves the cache as it is, and, when the first
    response was a 200, issues no outbound request at all. *)
Theorem repeated_request_same_answer cmp net request w :
  let '(r1, w1) := fetch cmp net request w in
  let '(r2, w2) := fetch cmp net request w1 in
  r2 = r1 /\ cache w2 = cache w1 /\ (status r1 = 200 -> w2 = w1).
Proof.
  destruct (String.eqb (method request) "OPTIONS") eqn:Hm.
  { unfold fetch. rewrite Hm. repeat split. }
  rewrite (fetch_plan _ _ _ _ Hm).
  pose proof (planRoute_ok cmp net request) as Hok.
  destruct (planRoute cmp net request) as [r|key fresh] eqn:Hplan.
  - cbn [run_plan]. rewrite (fetch_plan _ _ _ _ Hm), Hplan. repeat split.
  - cbn [run_plan]. destruct (cache w !! key) as [cached|] eqn:Hkey.
    + rewrite (fetch_plan _ _ _ _ Hm), Hplan. cbn [run_plan]. rewrite Hkey.
      repeat split.
    + cbn [plan_ok] in Hok.
      destruct fresh as [log|r log|r log]; cbn [fresh_ok fresh_log] in *;
        rewrite (fetch_plan _ _ _ _ Hm), Hplan; cbn [run_plan cache].
      * rewrite Hkey. repeat split. cbn. discriminate.
      * rewrite Hkey. repeat split. destruct Hok as [[Hs | Hs] _]; rewrite Hs; discriminate.
      * rewrite lookup_insert_eq. repeat split.
Qed.

(** X2.  The worker stores a response only when it answers 200 from the
    upstream, under the key of the request and only if that key is free: it
    never removes or replaces an entry, an answer other than 200 leaves the
    cache as it was, and the log of outbound requests only grows. *)
Theorem cache_written_on_success_only cmp net request w :
  let '(r, w') := fetch cmp net request w in
  (forall key cached, cache w !! key = Some cached -> cache w' !! key = Some cached) /\
  (cache w' = cache w \/
   exists key stored,
     cacheKey request = Some key /\ cache w !! key = None /\
     cache w' = <[key := stored]> (cache w) /\
     r = addCorsHeaders stored /\ stored_ok stored) /\
  (status r <> 200 -> cache w' = cache w) /\
  (exists log, outbound w' = outbound w ++ log).
Proof.
  destruct (String.eqb (method request) "OPTIONS") eqn:Hm.
  { unfold fetch. rewrite Hm. repeat split; auto. exists []. symmetry. apply app_nil_r. }
  rewrite (fetch_plan _ _ _ _ Hm).
  pose proof (planRoute_ok cmp net request) as Hok.
  pose proof (plan_key_route cmp net request) as Hkeyof.
  destruct (planRoute cmp net request) as [r|key fresh].
  - cbn [run_plan]. repeat split; auto. exists []. symmetry. apply app_nil_r.
  - cbn [run_plan plan_key] in *. destruct (cache w !! key) as [cached|] eqn:Hkey.
    + repeat split; auto. exists []. symmetry. apply app_nil_r.
    + destruct fresh as [log|r log|r log]; cbn [fresh_ok fresh_log plan_ok] in *.
      * repeat split; eauto.
      * repeat split; eauto.
      * split; [| split; [| split]]; cbn [cache outbound].
        -- intros k c Hk. rewrite lookup_insert_ne; [exact Hk | congruence].
        -- right. exists key, r. repeat split; auto; apply Hok.
        -- destruct Hok as [Hs _]. cbn. rewrite Hs. congruence.
        -- eauto.
Qed.

(** X3.  A request whose key is in the cache is answered with the stored
    response under the CORS and security headers, whatever the network does
    and whatever its offset and limit: no outbound request, no change. *)
Theorem served_from_cache cmp net request w key cached :
  String.eqb (method request) "OPTIONS" = false ->
  cacheKey request = Some key ->
  cache w !! key = Some cached ->
  fetch cmp net request w = (addCorsHeaders cached, w).
Proof.
  intros Hm Hkey Hcached. rewrite (fetch_plan _ _ _ _ Hm).
  pose proof (plan_key_route cmp net request) as Hkeyof. rewrite Hkey in Hkeyof.
  destruct (planRoute cmp net request) as [r|key' fresh]; [discriminate |].
  injection Hkeyof as ->. cbn [run_plan]. rewrite Hcached. reflexivity.
Qed.

Lemma served_from_cache_witness :
  fetch Fixtures.byteCompare Fixtures.nothing
    (Fixtures.GET "/v1/items" [("full", "true"); ("offset", "90")])
    (mkWorld (<[listCacheKey "items" true := cacheable (JObj [])]> ∅) []) =
  (addCorsHeaders (cacheable (JObj [])),
   mkWorld (<[listCacheKey "items" true := cacheable (JObj [])]> ∅) []).
Proof.
  apply (served_from_cache Fixtures.byteCompare Fixtures.nothing
           (Fixtures.GET "/v1/items" [("full", "true"); ("offset", "90")])
           (mkWorld (<[listCacheKey "items" true := cacheable (JObj [])]> ∅) [])
           (listCacheKey "items" true) (cacheable (JObj []))).
  - reflexivity.
  - reflexivity.
  - apply lookup_insert_eq.
Defined.

Lemma addCorsHeaders_keeps_caching r :
  stored_ok r ->
  status (addCorsHeaders r) = 200 /\
  covered (addCorsHeaders r) /\
  headers (addCorsHeaders r) !! "Content-Type" = Some "application/json" /\
  headers (addCorsHeaders r) !! "Cache-Control" = Some cache_control.
Proof.
  intros (Hs & Hct & Hcc). split; [exact Hs |]. split; [apply addCorsHeaders_headers |].
  unfold addCorsHeaders, set_header. cbn [headers]. split; by simplify_map_eq.
Qed.

(** X4.  The cache only ever holds 200 responses with the JSON content type
    and the caching directive: the worker keeps that invariant, and under it
    every answer has status 200, 404, 500 or 502, a 200 being the preflight
    answer, the API information, or a response that carries the CORS and
    security headers, the JSON content type and the caching directive. *)
Theorem cache_invariant_and_statuses cmp net request w :
  cache_ok w ->
  let '(r, w') := fetch cmp net request w in
  cache_ok w' /\
  (status r = 200 \/ status r = 404 \/ status r = 500 \/ status r = 502) /\
  (status r = 200 ->
   r = handleCors \/ r = jsonResponse apiInfo 200 \/
   (covered r /\
    headers r !! "Content-Type" = Some "application/json" /\
    headers r !! "Cache-Control" = Some cache_control)).
Proof.
  intros Hcache.
  destruct (String.eqb (method request) "OPTIONS") eqn:Hm.
  { unfold fetch. rewrite Hm. split; [exact Hcache |].
    split; [left; reflexivity | intros _; left; reflexivity]. }
  rewrite (fetch_plan _ _ _ _ Hm).
  pose proof (planRoute_ok cmp net request) as Hok.
  destruct (planRoute cmp net request) as [r|key fresh]; cbn [run_plan plan_ok] in *.
  - split; [exact Hcache |]. destruct Hok as [-> | [Hs Hbare]].
    + split; [left; reflexivity | auto].
    + split; [right; left; exact Hs | intros H; congruence].
  - destruct (cache w !! key) as [cached|] eqn:Hkey.
    + destruct (addCorsHeaders_keeps_caching cached (Hcache _ _ Hkey)) as (Hs & Hrest).
      split; [exact Hcache |]. split; [left; exact Hs | auto].
    + destruct fresh as [log|r log|r log]; cbn [fresh_ok fresh_log] in *.
      * split; [exact Hcache |]. split; [right; right; left; reflexivity |].
        cbn. discriminate.
      * split; [exact Hcache |]. destruct Hok as [[Hs | Hs] _].
        -- split; [right; left; exact Hs | intros H; congruence].
        -- split; [right; right; right; exact Hs | intros H; congruence].
      * destruct (addCorsHeaders_keeps_caching r Hok) as (Hs & Hrest).
        split; [| split; [left; exact Hs | auto]].
        intros k c. cbn [cache]. rewrite lookup_insert.
        case_decide; [intros [= <-]; exact Hok | apply Hcache].
Qed.

Lemma cache_invariant_and_statuses_witness :
  let '(r, w') :=
    fetch Fixtures.byteCompare Fixtures.items_abc
      (Fixtures.GET "/v1/items/a" []) Fixtures.idle in
  cache_ok w' /\
  (status r = 200 \/ status r = 404 \/ status r = 500 \/ status r = 502) /\
  (status r = 200 ->
   r = handleCors \/ r = jsonResponse apiInfo 200 \/
   (covered r /\
    headers r !! "Content-Type" = Some "application/json" /\
    headers r !! "Cache-Control" = Some cache_control)).
Proof.
  apply (cache_invariant_and_statuses Fixtures.byteCompare Fixtures.items_abc
           (Fixtures.GET "/v1/items/a" []) Fixtures.idle).
  intros key r H. cbn in H. rewrite lookup_empty in H. discriminate.
Defined.

(** ** The budget of outbound requests *)

Lemma slice_to_length {A} (l : list A) L :
  0 <= L -> (length (JS.slice l 0 (Some L)) <= Z.to_nat L)%nat.
Proof. intros HL. rewrite slice_prefix by lia. rewrite length_take. lia. Qed.

Lemma freshList_log cmp net type dirPath full limit offset :
  limit = None \/ (exists l, limit = Some l /\ 0 < l) ->
  (length (fresh_log (freshList cmp net type dirPath full limit offset)) <= 46)%nat /\
  (full = false ->
   (length (fresh_log (freshList cmp net type dirPath full limit offset)) <= 1)%nat).
Proof.
  intros Hlimit.
  assert (HL : 0 < effectiveLimit limit <= 45).
  { destruct Hlimit as [-> | (l & -> & Hl)]; [unfold effectiveLimit, MAX_ITEMS; lia |].
    rewrite effectiveLimit_positive by lia. unfold MAX_ITEMS. lia. }
  unfold freshList. cbv zeta.
  repeat case_match; subst; cbn [fresh_log length];
    rewrite ?length_app; unfold itemRequests; rewrite ?length_map; cbn [length];
    (split; [| try discriminate; intros _]); try lia;
    match goal with
    | |- context [JS.slice ?l 0 (Some ?L)] =>
        pose proof (slice_to_length l L ltac:(lia)); lia
    end.
Qed.

Lemma freshFile_log net url notFound :
  (length (fresh_log (freshFile net url notFound)) <= 1)%nat.
Proof. unfold freshFile. repeat case_match; cbn; lia. Qed.

(** X5.  With an absent or positive limit a request issues at most 46
    outbound requests (the directory listing and up to 45 items), and at
    most one unless it asks for a full listing, whatever the offset, the
    cache and the answers of the upstream. *)
Theorem outbound_request_budget cmp net request w :
  query_limit request = None \/ (exists l, query_limit request = Some l /\ 0 < l) ->
  let '(r, w') := fetch cmp net request w in
  exists log,
    outbound w' = outbound w ++ log /\
    (length log <= 46)%nat /\
    (query_full request = false -> (length log <= 1)%nat).
Proof.
  intros Hlimit.
  destruct (String.eqb (method request) "OPTIONS") eqn:Hm.
  { unfold fetch. rewrite Hm. exists []. rewrite app_nil_r. cbn. repeat split; lia. }
  rewrite (fetch_plan _ _ _ _ Hm).
  assert (Hlog : match planRoute cmp net request with
                 | Immediate _ => True
                 | CacheAside _ fresh =>
                     (length (fresh_log fresh) <= 46)%nat /\
                     (query_full request = false -> (length (fresh_log fresh) <= 1)%nat)
                 end).
  { unfold planRoute. cbv zeta.
    destruct (listMatch (pathname request)) as [type|].
    - destruct (present (SINGLE_FILE_TYPES type)).
      + unfold planSingleFile.
        pose proof (freshFile_log net (singleFileUrl type) ("Data not found: " +:+ type)).
        split; [lia | intros _; lia].
      + destruct (present (COLLECTION_TYPES type)) eqn:Hcoll; [| exact I].
        unfold planList. rewrite Hcoll. cbn [negb].
        apply (freshList_log _ _ _ _ _ _ _ Hlimit).
    - destruct (itemMatch (pathname request)) as [[type id]|].
      + unfold planGetItem. destruct (negb (present (COLLECTION_TYPES type))); [exact I |].
        cbv zeta.
        match goal with
        | |- context [freshFile ?n ?u ?m] => pose proof (freshFile_log n u m)
        end. split; [lia | intros _; lia].
      + destruct (_ || _); exact I. }
  destruct (planRoute cmp net request) as [r|key fresh]; cbn [run_plan].
  - exists []. rewrite app_nil_r. cbn. repeat split; lia.
  - destruct (cache w !! key).
    + exists []. rewrite app_nil_r. cbn. repeat split; lia.
    + destruct fresh; cbn [outbound fresh_log] in *;
        eexists; (split; [reflexivity | exact Hlog]).
Qed.

Lemma outbound_request_budget_witness :
  let '(r, w') :=
    fetch Fixtures.byteCompare Fixtures.items_47
      (Fixtures.GET "/v1/items" [("full", "true"); ("limit", "100")]) Fixtures.idle in
  exists log,
    outbound w' = outbound Fixtures.idle ++ log /\
    (length log <= 46)%nat /\
    (query_full (Fixtures.GET "/v1/items" [("full", "true"); ("limit", "100")]) = false ->
     (length log <= 1)%nat).
Proof.
  apply (outbound_request_budget Fixtures.byteCompare Fixtures.items_47
           (Fixtures.GET "/v1/items" [("full", "true"); ("limit", "100")]) Fixtures.idle).
  right. exists 100. split; [reflexivity | lia].
Defined.

(** ** The route grammar *)

Lemma prefix_app p s : String.prefix p (p +:+ s) = true.
Proof.
  induction p as [|c p IH]; [destruct s; reflexivity |].
  change (String c p +:+ s) with (String c (p +:+ s)). cbn.
  destruct (ascii_dec c c); [exact IH | contradiction].
Qed.

Lemma string_drop_app p s : JS.string_drop (String.length p) (p +:+ s) = s.
Proof. induction p as [|c p IH]; [reflexivity | exact IH]. Qed.

Lemma prefix_split p s :
  String.prefix p s = true -> s = p +:+ JS.string_drop (String.length p) s.
Proof.
  revert s. induction p as [|c p IH]; intros s H; [reflexivity |].
  destruct s as [|d s]; [discriminate |]. cbn in H.
  destruct (ascii_dec c d) as [<- | _]; [| discriminate].
  change (String c s = String c (p +:+ JS.string_drop (String.length p) s)).
  f_equal. apply IH, H.
Qed.

Lemma strip_prefix_spec p s rest : strip_prefix p s = Some rest <-> s = p +:+ rest.
Proof.
  unfold strip_prefix. split.
  - destruct (String.prefix p s) eqn:H; [| discriminate].
    intros [= <-]. apply prefix_split, H.
  - intros ->. rewrite prefix_app, string_drop_app. reflexivity.
Qed.

(** [span] splits at the first character outside the class. *)
Lemma span_spec p s a b :
  span p s = (a, b) ->
  s = a +:+ b /\ all_chars p a = true /\
  (b = "" \/ exists c b', b = String c b' /\ p c = false).
Proof.
  revert a b. induction s as [|c s IH]; intros a b H; cbn in H.
  - injection H as <- <-. auto.
  - destruct (p c) eqn:Hc.
    + destruct (span p s) as [a' b'] eqn:Hs. injection H as <- <-.
      destruct (IH _ _ eq_refl) as (-> & Ha & Hb).
      cbn. rewrite Hc, Ha. auto.
    + injection H as <- <-. repeat split. right. eauto.
Qed.

Lemma span_app p a b :
  all_chars p a = true ->
  (b = "" \/ exists c b', b = String c b' /\ p c = false) ->
  span p (a +:+ b) = (a, b).
Proof.
  intros Ha Hb. induction a as [|c a IH].
  - destruct Hb as [-> | (c & b' & -> & Hc)]; [reflexivity |].
    change (span p (String c b') = ("", String c b')). cbn [span]. rewrite Hc. reflexivity.
  - cbn [all_chars] in Ha. apply andb_true_iff in Ha as [Hc Ha].
    change (span p (String c (a +:+ b)) = (String c a, b)).
    cbn [span]. rewrite Hc, (IH Ha). reflexivity.
Qed.

Lemma optional_slash_end_spec s : optional_slash_end s = true <-> s = "" \/ s = "/".
Proof.
  unfold optional_slash_end. rewrite orb_true_iff, !String.eqb_eq. reflexivity.
Qed.

Lemma nonempty_spec s : negb (String.eqb s "") = true <-> s <> "".
Proof. rewrite negb_true_iff. apply String.eqb_neq. Qed.

Lemma append_empty_r s : s +:+ "" = s.
Proof.
  induction s as [|c s IH]; [reflexivity |].
  change (String c (s +:+ "") = String c s). f_equal. exact IH.
Qed.

(** The list route: a path matches [^/v1/([a-z-]+)/?$] exactly when it is
    [/v1/] followed by a type name and an optional slash. *)
Lemma listMatch_spec path t :
  listMatch path = Some t <->
  type_name t /\ (path = "/v1/" +:+ t \/ path = "/v1/" +:+ t +:+ "/").
Proof.
  unfold listMatch, type_name. split.
  - destruct (strip_prefix "/v1/" path) as [rest|] eqn:Hp; [| discriminate].
    apply strip_prefix_spec in Hp as ->.
    destruct (span type_char rest) as [type rest'] eqn:Hs.
    destruct (span_spec _ _ _ _ Hs) as (-> & Hall & _).
    destruct (negb (String.eqb type "") && optional_slash_end rest') eqn:Hc; [| discriminate].
    intros [= <-]. apply andb_true_iff in Hc as [Hne Hend].
    apply nonempty_spec in Hne. apply optional_slash_end_spec in Hend.
    split; [auto |]. destruct Hend as [-> | ->]; [left | right]; [| reflexivity].
    f_equal. apply append_empty_r.
  - intros [[Hne Hall] Hpath].
    assert (Hform : exists r, path = "/v1/" +:+ t +:+ r /\ (r = "" \/ r = "/")).
    { destruct Hpath as [-> | ->]; [exists "" | exists "/"]; split; auto.
      f_equal. symmetry. apply append_empty_r. }
    destruct Hform as (r & -> & Hr).
    rewrite (proj2 (strip_prefix_spec "/v1/" _ (t +:+ r)) eq_refl).
    rewrite (span_app type_char t r Hall)
      by (destruct Hr as [-> | ->]; [left; reflexivity | right; eexists _, _; split; reflexivity]).
    rewrite (proj2 (nonempty_spec t) Hne), (proj2 (optional_slash_end_spec r) Hr).
    reflexivity.
Qed.

(** The item route: a path matches [^/v1/([a-z-]+)/([a-z0-9_-]+)/?$] exactly
    when it is [/v1/], a type name, a slash, an identifier and an optional
    slash. *)
Lemma itemMatch_spec path t i :
  itemMatch path = Some (t, i) <->
  type_name t /\ id_name i /\
  (path = "/v1/" +:+ t +:+ "/" +:+ i \/ path = "/v1/" +:+ t +:+ "/" +:+ i +:+ "/").
Proof.
  unfold itemMatch, type_name, id_name. split.
  - destruct (strip_prefix "/v1/" path) as [rest|] eqn:Hp; [| discriminate].
    apply strip_prefix_spec in Hp as ->.
    destruct (span type_char rest) as [type rest'] eqn:Hs.
    destruct (span_spec _ _ _ _ Hs) as (-> & Hall & _).
    destruct rest' as [|c rest']; [discriminate |].
    destruct (Ascii.eqb_spec c "/") as [-> | Hc];
      [| intros H; exfalso;
         destruct c as [[] [] [] [] [] [] [] []];
         first [discriminate H | apply Hc; reflexivity]].
    destruct (span id_char rest') as [id rest''] eqn:Hs'.
    destruct (span_spec _ _ _ _ Hs') as (-> & Hall' & _).
    destruct (negb (String.eqb type "") && negb (String.eqb id "")
              && optional_slash_end rest'') eqn:Hc; [| discriminate].
    intros [= <- <-]. apply andb_true_iff in Hc as [Hc Hend].
    apply andb_true_iff in Hc as [Hne Hne'].
    apply nonempty_spec in Hne, Hne'. apply optional_slash_end_spec in Hend.
    split; [auto |]. split; [auto |].
    destruct Hend as [-> | ->]; [left | right]; [| reflexivity].
    do 3 f_equal. apply append_empty_r.
  - intros ([Hne Hall] & [Hne' Hall'] & Hpath).
    assert (Hform : exists r, path = "/v1/" +:+ t +:+ String "/" (i +:+ r) /\ (r = "" \/ r = "/")).
    { destruct Hpath as [-> | ->]; [exists "" | exists "/"]; split; auto.
      do 3 f_equal. symmetry. apply append_empty_r. }
    destruct Hform as (r & -> & Hr).
    rewrite (proj2 (strip_prefix_spec "/v1/" _ (t +:+ String "/" (i +:+ r))) eq_refl).
    rewrite (span_app type_char t _ Hall)
      by (right; eexists _, _; split; reflexivity).
    rewrite (span_app id_char i r Hall')
      by (destruct Hr as [-> | ->]; [left; reflexivity | right; eexists _, _; split; reflexivity]).
    rewrite (proj2 (nonempty_spec t) Hne), (proj2 (nonempty_spec i) Hne'),
      (proj2 (optional_slash_end_spec r) Hr).
    reflexivity.
Qed.

Lemma listMatch_type_name path t : listMatch path = Some t -> type_name t.
Proof. intros H. apply listMatch_spec in H. tauto. Qed.

Lemma itemMatch_type_name path t i :
  itemMatch path = Some (t, i) -> type_name t /\ id_name i.
Proof. intros H. apply itemMatch_spec in H. tauto. Qed.

(** A path of the item route is not a path of the list route. *)
Lemma itemMatch_not_listMatch path x : itemMatch path = Some x -> listMatch path = None.
Proof.
  unfold itemMatch, listMatch.
  destruct (strip_prefix "/v1/" path) as [rest|]; [| discriminate].
  destruct (span type_char rest) as [type rest'].
  destruct rest' as [|c rest']; [discriminate |].
  destruct (span id_char rest') as [id rest''] eqn:Hs.
  destruct rest' as [|d rest'].
  - cbn in Hs. injection Hs as <- <-.
    destruct c as [[] [] [] [] [] [] [] []]; try discriminate.
    rewrite andb_false_r. discriminate.
  - intros _. replace (optional_slash_end (String c (String d rest'))) with false.
    + rewrite andb_false_r. reflexivity.
    + unfold optional_slash_end. cbn.
      destruct (Ascii.eqb c "/"); reflexivity.
Qed.

(** X6.  The two route patterns, read as grammars: a path is a path of the
    list route, capturing a type, exactly when it is [/v1/], a non-empty run
    of lower-case letters and hyphens, and an optional slash; it is a path of
    the item route, capturing a type and an identifier, exactly when it is
    [/v1/], such a run, a slash, a non-empty run of lower-case letters,
    digits, underscores and hyphens, and an optional slash.  No path is of
    both routes. *)
Theorem route_grammar path :
  (forall t, listMatch path = Some t <->
     type_name t /\ (path = "/v1/" +:+ t \/ path = "/v1/" +:+ t +:+ "/")) /\
  (forall t i, itemMatch path = Some (t, i) <->
     type_name t /\ id_name i /\
     (path = "/v1/" +:+ t +:+ "/" +:+ i \/ path = "/v1/" +:+ t +:+ "/" +:+ i +:+ "/")) /\
  (listMatch path = None \/ itemMatch path = None).
Proof.
  split; [intros t; apply listMatch_spec |].
  split; [intros t i; apply itemMatch_spec |].
  destruct (itemMatch path) as [x|] eqn:Hi; [left | right; reflexivity].
  exact (itemMatch_not_listMatch _ _ Hi).
Qed.

(** X7.  The trailing slash is optional and changes nothing: for a type name
    and an identifier of the grammar, [/v1/{type}/] is routed as
    [/v1/{type}] and [/v1/{type}/{id}/] as [/v1/{type}/{id}], whatever the
    method, the query and the state of the cache. *)
Theorem trailing_slash_optional cmp net m q t i w :
  type_name t ->
  id_name i ->
  fetch cmp net (mkRequest m ("/v1/" +:+ t +:+ "/") q) w =
    fetch cmp net (mkRequest m ("/v1/" +:+ t) q) w /\
  fetch cmp net (mkRequest m ("/v1/" +:+ t +:+ "/" +:+ i +:+ "/") q) w =
    fetch cmp net (mkRequest m ("/v1/" +:+ t +:+ "/" +:+ i) q) w.
Proof.
  intros Ht Hi.
  assert (Hl1 : listMatch ("/v1/" +:+ t +:+ "/") = Some t)
    by (apply listMatch_spec; auto).
  assert (Hl2 : listMatch ("/v1/" +:+ t) = Some t)
    by (apply listMatch_spec; auto).
  assert (Hi1 : itemMatch ("/v1/" +:+ t +:+ "/" +:+ i +:+ "/") = Some (t, i))
    by (apply itemMatch_spec; auto).
  assert (Hi2 : itemMatch ("/v1/" +:+ t +:+ "/" +:+ i) = Some (t, i))
    by (apply itemMatch_spec; auto).
  unfold fetch, route. cbn [pathname method searchParams_get searchParams].
  rewrite Hl1, Hl2, (itemMatch_not_listMatch _ _ Hi1), (itemMatch_not_listMatch _ _ Hi2),
    Hi1, Hi2.
  split; reflexivity.
Qed.

Lemma trailing_slash_optional_witness :
  fetch Fixtures.byteCompare Fixtures.items_abc
    (mkRequest "GET" ("/v1/" +:+ "items" +:+ "/") []) Fixtures.idle =
    fetch Fixtures.byteCompare Fixtures.items_abc
      (mkRequest "GET" ("/v1/" +:+ "items") []) Fixtures.idle /\
  fetch Fixtures.byteCompare Fixtures.items_abc
    (mkRequest "GET" ("/v1/" +:+ "items" +:+ "/" +:+ "a" +:+ "/") []) Fixtures.idle =
    fetch Fixtures.byteCompare Fixtures.items_abc
      (mkRequest "GET" ("/v1/" +:+ "items" +:+ "/" +:+ "a") []) Fixtures.idle.
Proof.
  apply (trailing_slash_optional Fixtures.byteCompare Fixtures.items_abc "GET" []
           "items" "a" Fixtures.idle).
  - split; [discriminate | reflexivity].
  - split; [discriminate | reflexivity].
Defined.

(** ** Dispatch on the type name *)

Lemma all_chars_differ p s k :
  all_chars p s = true -> all_chars p k = false -> String.eqb s k = false.
Proof. intros Hs Hk. apply String.eqb_neq. intros ->. congruence. Qed.

(** Among the members of [Object.prototype], a type name of the route grammar
    can only be [constructor]. *)
Lemma type_name_member own t :
  all_chars type_char t = true ->
  lookup_member own t =
  match assoc t own with
  | Some v => Own v
  | None =>
      if String.eqb t "constructor" then Inherited "function Object() { [native code] }"
      else Missing
  end.
Proof.
  intros Ht. unfold lookup_member. destruct (assoc t own); [reflexivity |].
  unfold object_prototype. cbn [assoc].
  destruct (String.eqb t "constructor"); [reflexivity |].
  rewrite !(all_chars_differ type_char t _ Ht) by reflexivity. reflexivity.
Qed.

Lemma assoc_not_in {A} t (l : list (string * A)) :
  ~ In t (map fst l) -> assoc t l = None.
Proof.
  induction l as [|[k v] l IH]; [reflexivity |]. cbn [map fst In assoc]. intros H.
  destruct (String.eqb_spec t k) as [-> | _]; [tauto |]. apply IH. tauto.
Qed.

(** What a cache-aside plan answers with: a response that went through
    [addCorsHeaders], or the error of the fresh computation. *)
Lemma cache_aside_answer key fresh w r w' :
  run_plan (CacheAside key fresh) w = Returned r w' ->
  covered r \/ exists log, fresh = Fails r log.
Proof.
  unfold run_plan. destruct (cache w !! key) as [cached|].
  - intros [= <- <-]. left. apply addCorsHeaders_headers.
  - destruct fresh as [log | r0 log | r0 log]; [discriminate | |].
    + intros [= <- <-]. right. eauto.
    + intros [= <- <-]. left. apply addCorsHeaders_headers.
Qed.

Lemma freshFile_fails net url notFound r log :
  freshFile net url notFound = Fails r log ->
  r = jsonResponse (error_body notFound) 404 \/
  r = jsonResponse (error_body "Failed to fetch data") 502.
Proof.
  unfold freshFile. destruct (net url) as [|upstream]; [discriminate |].
  destruct (ok upstream); [discriminate |].
  destruct (status upstream =? 404); intros [= <- <-]; auto.
Qed.

Lemma freshList_fails cmp net type dirPath full limit offset r log :
  freshList cmp net type dirPath full limit offset = Fails r log ->
  r = jsonResponse (error_body ("Failed to list " +:+ type)) 502.
Proof.
  unfold freshList. cbv zeta. repeat case_match; try discriminate.
  intros [= <- <-]. reflexivity.
Qed.

Lemma jsonResponse_not_covered data status : ~ covered (jsonResponse data status).
Proof.
  unfold covered, cors_security_headers. intros H.
  apply Forall_cons in H as [H _]. cbn in H. by simplify_map_eq.
Qed.

(** X8.  The list route knows nine type names and, through the prototype of
    its tables, [constructor]: a request for [/v1/{type}] is answered
    404 "Unknown data type: {type}" exactly when the type is none of these,
    and then nothing is requested upstream and nothing is cached. *)
Theorem unknown_type_exactly cmp net request t w :
  String.eqb (method request) "OPTIONS" = false ->
  listMatch (pathname request) = Some t ->
  fetch cmp net request w =
    (jsonResponse (error_body ("Unknown data type: " +:+ t)) 404, w)
  <-> ~ In t (served_types ++ ["constructor"]).
Proof.
  intros Hm Hl. rewrite (fetch_plan _ _ _ _ Hm).
  pose proof (listMatch_type_name _ _ Hl) as [_ Ht].
  unfold planRoute. cbv zeta. rewrite Hl. split.
  - intros Hr Hin.
    assert (Hcase : exists key fresh notFound,
      (if present (SINGLE_FILE_TYPES t) then planSingleFile net t
       else if present (COLLECTION_TYPES t)
            then planList cmp net t (query_full request) (query_limit request)
                   (query_offset request)
            else Immediate (jsonResponse (error_body ("Unknown data type: " +:+ t)) 404))
      = CacheAside key fresh /\
      (forall r log, fresh = Fails r log ->
         r = jsonResponse (error_body ("Data not found: " +:+ notFound)) 404 \/
         status r = 502)).
    { cbn [served_types app In] in Hin.
      destruct Hin as [<- | [<- | [<- | [<- | [<- | [<- | [<- | [<- | [<- | [<- | []]]]]]]]]]];
        cbn [SINGLE_FILE_TYPES COLLECTION_TYPES present];
        first
          [ eexists _, _, _; split;
            [ unfold planSingleFile; reflexivity
            | intros r log Hf; apply freshFile_fails in Hf as [-> | ->];
              [left; reflexivity | right; reflexivity] ]
          | eexists _, _, ""; split;
            [ unfold planList; reflexivity
            | intros r log Hf; apply freshList_fails in Hf as ->; right; reflexivity ] ]. }
    destruct Hcase as (key & fresh & notFound & Heq & Hfails). rewrite Heq in Hr.
    destruct (run_plan (CacheAside key fresh) w) as [w' | r w'] eqn:Hrun.
    + injection Hr as Hr _. discriminate Hr.
    + injection Hr as -> ->.
      apply cache_aside_answer in Hrun as [Hc | [log Hf]].
      * exact (jsonResponse_not_covered _ _ Hc).
      * destruct (Hfails _ _ Hf) as [Hr | Hs]; [| discriminate Hs].
        injection Hr as Hr. discriminate Hr.
  - intros Hin.
    rewrite (type_name_member SINGLE_FILE_TYPES_own t Ht
             : SINGLE_FILE_TYPES t = _).
    rewrite (type_name_member COLLECTION_TYPES_own t Ht
             : COLLECTION_TYPES t = _).
    rewrite !assoc_not_in.
    + destruct (String.eqb_spec t "constructor") as [-> | _]; [| reflexivity].
      exfalso. apply Hin. cbn. tauto.
    + intros H. apply Hin. cbn in *. tauto.
    + intros H. cbn in H. destruct H as [<- | [<- | [<- | [<- | [<- | [<- | []]]]]]];
        first [discriminate Ht | apply Hin; cbn; tauto].
Qed.

Lemma unknown_type_exactly_witness :
  fetch Fixtures.byteCompare Fixtures.nothing (Fixtures.GET "/v1/weapons" []) Fixtures.idle =
    (jsonResponse (error_body "Unknown data type: weapons") 404, Fixtures.idle).
Proof.
  apply (unknown_type_exactly Fixtures.byteCompare Fixtures.nothing
           (Fixtures.GET "/v1/weapons" []) "weapons" Fixtures.idle);
    [reflexivity | reflexivity |].
  cbn. intros H. repeat (destruct H as [H | H]; [discriminate H |]). exact H.
Defined.

(** X9.  The item route serves the four collection types and, through the
    prototype of the table, [constructor]: a request for [/v1/{type}/{id}]
    is answered 404 "Unknown collection type: {type}" exactly when the type is
    none of these (a single-file type such as [bots] among them), and then
    nothing is requested upstream and nothing is cached. *)
Theorem unknown_collection_exactly cmp net request t i w :
  String.eqb (method request) "OPTIONS" = false ->
  itemMatch (pathname request) = Some (t, i) ->
  fetch cmp net request w =
    (jsonResponse (error_body ("Unknown collection type: " +:+ t)) 404, w)
  <-> ~ In t (map fst COLLECTION_TYPES_own ++ ["constructor"]).
Proof.
  intros Hm Hi. rewrite (fetch_plan _ _ _ _ Hm).
  pose proof (itemMatch_type_name _ _ _ Hi) as [[_ Ht] _].
  unfold planRoute. cbv zeta.
  rewrite (itemMatch_not_listMatch _ _ Hi), Hi. unfold planGetItem. split.
  - intros Hr Hin.
    assert (Hp : present (COLLECTION_TYPES t) = true /\
                 exists c s, JS.string_slice t 0 (-1) = String c s /\ c <> "U"%char).
    { cbn [map fst COLLECTION_TYPES_own app In] in Hin.
      destruct Hin as [<- | [<- | [<- | [<- | [<- | []]]]]];
        (split; [reflexivity | eexists _, _; split; [reflexivity | discriminate]]). }
    destruct Hp as (Hp & c & s & Hslice & Hc).
    rewrite Hp, Hslice in Hr. cbn [negb] in Hr. cbv zeta in Hr.
    match type of Hr with
    | match run_plan (CacheAside ?key ?fresh) w with _ => _ end = _ =>
        destruct (run_plan (CacheAside key fresh) w) as [w' | r w'] eqn:Hrun
    end.
    + injection Hr as Hr _. discriminate Hr.
    + injection Hr as -> ->.
      apply cache_aside_answer in Hrun as [Hcov | [log Hf]].
      * exact (jsonResponse_not_covered _ _ Hcov).
      * apply freshFile_fails in Hf as [Hr | Hr]; [| discriminate Hr].
        injection Hr as Hr. apply Hc. symmetry. exact Hr.
  - intros Hin.
    rewrite (type_name_member COLLECTION_TYPES_own t Ht
             : COLLECTION_TYPES t = _).
    rewrite assoc_not_in.
    + destruct (String.eqb_spec t "constructor") as [-> | _]; [| reflexivity].
      exfalso. apply Hin. cbn. tauto.
    + intros H. apply Hin. apply in_or_app. left. exact H.
Qed.

Lemma unknown_collection_exactly_witness :
  fetch Fixtures.byteCompare Fixtures.nothing (Fixtures.GET "/v1/bots/scout" []) Fixtures.idle =
    (jsonResponse (error_body "Unknown collection type: bots") 404, Fixtures.idle).
Proof.
  apply (unknown_collection_exactly Fixtures.byteCompare Fixtures.nothing
           (Fixtures.GET "/v1/bots/scout" []) "bots" "scout" Fixtures.idle);
    [reflexivity | reflexivity |].
  cbn. intros H. repeat (destruct H as [H | H]; [discriminate H |]). exact H.
Defined.

(** ** Pagination links, seen from the router *)

Lemma effectiveLimit_nonzero limit : effectiveLimit limit <> 0.
Proof.
  unfold effectiveLimit, MAX_ITEMS. destruct limit as [l|]; [| lia].
  destruct (Z.eqb_spec l 0); cbn [negb andb]; [lia |].
  destruct (l <? 45); lia.
Qed.

Lemma effectiveLimit_idempotent limit :
  effectiveLimit (Some (effectiveLimit limit)) = effectiveLimit limit.
Proof.
  unfold effectiveLimit, MAX_ITEMS. destruct limit as [l|]; [| reflexivity].
  destruct (Z.eqb_spec l 0) as [-> | Hl]; cbn [negb andb]; [reflexivity |].
  destruct (Z.ltb_spec l 45) as [Hlt | Hge]; [| reflexivity].
  destruct (Z.eqb_spec l 0); [contradiction |].
  destruct (Z.ltb_spec l 45); [reflexivity | lia].
Qed.

Lemma route_page_link cmp net type limit offset w :
  collection_type type ->
  route cmp net (request_of_href (pageLink type offset (effectiveLimit limit))) w =
  handleList cmp net type true limit offset w.
Proof.
  intros Htype.
  rewrite (request_of_pageLink _ _ _ Htype), (route_collection _ _ _ _ _ Htype).
  cbn [assoc String.eqb Ascii.eqb Bool.eqb].
  rewrite (number_or_show_limit _ (effectiveLimit_nonzero limit)), number_or_show_offset.
  unfold handleList. rewrite effectiveLimit_idempotent. reflexivity.
Qed.

(** X10.  A pagination link decodes to the page it names.  For an offset
    and an effective limit that are safe integers (which the runtime prints
    in full and reads back exactly): the effective limit is never zero and
    is its own effective limit, so it survives the trip through the query
    string, and the request parsed from the link for the offset is routed to
    the very call [handleList(type, true, limit, offset)] of the request
    that produced the link. *)
Theorem page_link_names_the_page cmp net type limit offset :
  collection_type type ->
  JS.safe offset ->
  JS.safe (effectiveLimit limit) ->
  let L := effectiveLimit limit in
  L <> 0 /\
  effectiveLimit (JS.number_or (JS.parseInt (Some (JS.show L))) Some None) = L /\
  JS.number_or (JS.parseInt (Some (JS.show offset))) id 0 = offset /\
  forall w,
    route cmp net (request_of_href (pageLink type offset L)) w =
    handleList cmp net type true limit offset w.
Proof.
  intros Htype _ _ L. split; [apply effectiveLimit_nonzero |]. split; [| split].
  - unfold L. rewrite (number_or_show_limit _ (effectiveLimit_nonzero limit)).
    apply effectiveLimit_idempotent.
  - apply number_or_show_offset.
  - intros w. apply route_page_link, Htype.
Qed.

Lemma page_link_names_the_page_witness :
  let L := effectiveLimit (Some 1) in
  L <> 0 /\
  effectiveLimit (JS.number_or (JS.parseInt (Some (JS.show L))) Some None) = L /\
  JS.number_or (JS.parseInt (Some (JS.show 2))) id 0 = 2 /\
  forall w,
    route Fixtures.byteCompare Fixtures.items_abc
      (request_of_href (pageLink "items" 2 L)) w =
    handleList Fixtures.byteCompare Fixtures.items_abc "items" true (Some 1) 2 w.
Proof.
  apply (page_link_names_the_page Fixtures.byteCompare Fixtures.items_abc "items"
           (Some 1) 2).
  - left. reflexivity.
  - unfold JS.safe, JS.MAX_SAFE_INTEGER. simpl. lia.
  - unfold JS.safe, JS.MAX_SAFE_INTEGER. simpl. lia.
Defined.

(** X11.  [prev] undoes [next]: from a page at a non-negative offset that
    has a [next] link, with a limit that is absent or positive and a target
    offset that is a safe integer, the page that link leads to is built when
    no item fetch of its window rejects, and it then has a [prev] link, which
    is the link of the page one started from (same offset, same limit). *)
Theorem prev_undoes_next cmp net type limit offset w w2 ids r w' href :
  collection_type type ->
  directory cmp net type = Some ids ->
  (limit = None \/ exists l, limit = Some l /\ 0 < l) ->
  0 <= offset ->
  JS.safe (offset + effectiveLimit limit) ->
  cache w !! listCacheKey type true = None ->
  cache w2 !! listCacheKey type true = None ->
  handleList cmp net type true limit offset w = Returned r w' ->
  next_link r = Some href ->
  (forall id,
     In id (JS.slice (paginate ids (offset + effectiveLimit limit)) 0
              (Some (effectiveLimit limit))) ->
     is_Some (itemOutcome net type id)) ->
  exists r2 w2',
    route cmp net (request_of_href href) w2 = Returned r2 w2' /\
    data_field r2 "offset" = Some (JNum (offset + effectiveLimit limit)) /\
    data_field r2 "prev" = Some (JStr (pageLink type offset (effectiveLimit limit))).
Proof.
  intros Htype Hdir Hlimit Hoff _ Hmiss Hmiss2 Hpage Hnext Hitems.
  assert (HL : 0 < effectiveLimit limit).
  { destruct Hlimit as [-> | (l & -> & Hl)]; [reflexivity |].
    rewrite effectiveLimit_positive by exact Hl. unfold MAX_ITEMS. lia. }
  destruct (full_page_built_iff cmp net type limit offset w ids Htype Hmiss Hdir)
    as [_ Hshape].
  rewrite (Hshape r w' Hpage) in Hnext.
  match type of Hnext with
  | next_link (addCorsHeaders (cacheable (fullData _ _ _ _ ?itemsData))) = _ =>
      pose proof (fullData_fields type (Z.of_nat (length ids)) offset
                    (effectiveLimit limit) itemsData) as Hf
  end.
  cbv zeta in Hf. destruct Hf as (_ & _ & _ & _ & _ & _ & _ & Hn & _).
  unfold next_link in Hnext. rewrite Hn in Hnext.
  destruct (offset + effectiveLimit limit <? Z.of_nat (length ids)); [| discriminate].
  injection Hnext as <-.
  rewrite (route_page_link cmp net type limit (offset + effectiveLimit limit) w2 Htype).
  destruct (full_page_built_iff cmp net type limit (offset + effectiveLimit limit) w2 ids
              Htype Hmiss2 Hdir) as [Hbuilt2 Hshape2].
  destruct (proj2 Hbuilt2 Hitems) as (r2 & w2' & Hrun2).
  exists r2, w2'. split; [exact Hrun2 |]. rewrite (Hshape2 r2 w2' Hrun2).
  match goal with
  | |- context [fullData _ _ _ _ ?itemsData] =>
      pose proof (fullData_fields type (Z.of_nat (length ids))
                    (offset + effectiveLimit limit) (effectiveLimit limit) itemsData) as Hf
  end.
  cbv zeta in Hf. destruct Hf as (_ & _ & _ & _ & Ho & _ & _ & _ & Hp).
  split; [exact Ho |]. rewrite Hp.
  destruct (Z.ltb_spec 0 (offset + effectiveLimit limit)); [| lia].
  do 3 f_equal. lia.
Qed.

Lemma prev_undoes_next_witness :
  exists r2 w2',
    route Fixtures.byteCompare Fixtures.items_abc
      (request_of_href "/v1/items?full=true&offset=1&limit=1") Fixtures.idle =
      Returned r2 w2' /\
    data_field r2 "offset" = Some (JNum (0 + effectiveLimit (Some 1))) /\
    data_field r2 "prev" = Some (JStr (pageLink "items" 0 (effectiveLimit (Some 1)))).
Proof.
  apply (prev_undoes_next Fixtures.byteCompare Fixtures.items_abc "items" (Some 1) 0
           Fixtures.idle Fixtures.idle ["a"; "b"; "c"]
           (match handleList Fixtures.byteCompare Fixtures.items_abc "items" true (Some 1) 0
                    Fixtures.idle with
            | Returned r _ => r
            | Threw _ => handleCors
            end)
           (world_of (handleList Fixtures.byteCompare Fixtures.items_abc "items" true
                        (Some 1) 0 Fixtures.idle))).
  - left. reflexivity.
  - reflexivity.
  - right. exists 1. split; [reflexivity | lia].
  - lia.
  - unfold JS.safe, JS.MAX_SAFE_INTEGER. simpl. lia.
  - reflexivity.
  - reflexivity.
  - reflexivity.
  - reflexivity.
  - intros id [<- | []]. eexists. reflexivity.
Defined.

(** ** Edges of the collection listing *)

Lemma slice_nil {A} start end_ : JS.slice (@nil A) start end_ = [].
Proof. unfold JS.slice. rewrite drop_nil, take_nil. reflexivity. Qed.

(** X12.  An offset at or past the end of the collection is not an error:
    on a cache miss the answer is a 200 with no items and count 0, in both
    modes; the directory listing is the only outbound request, and a full
    page has no [next] link unless the limit is negative. *)
Theorem offset_past_end_empty_page cmp net type full limit offset w ids :
  collection_type type ->
  cache w !! listCacheKey type full = None ->
  directory cmp net type = Some ids ->
  Z.of_nat (length ids) <= offset ->
  exists r w',
    handleList cmp net type full limit offset w = Returned r w' /\
    status r = 200 /\
    items_of r = [] /\
    data_field r "count" = Some (JNum 0) /\
    outbound w' = outbound w ++ [listingRequest type] /\
    (full = true -> 0 < effectiveLimit limit -> next_link r = None).
Proof.
  intros Htype Hmiss Hdir Hoff.
  rewrite (handleList_miss _ _ _ _ _ _ _ _ Htype Hmiss Hdir). cbv zeta.
  rewrite paginate_drop, drop_ge by lia. rewrite slice_nil.
  destruct full.
  - cbn [mapM itemRequests map]. rewrite app_nil_r. eexists _, _. split; [reflexivity |].
    pose proof (fullData_fields type (Z.of_nat (length ids)) offset
                  (effectiveLimit limit) []) as Hf.
    cbv zeta in Hf. destruct Hf as (Hs & _ & _ & Hc & _ & _ & Hi & Hn & _).
    split; [exact Hs |]. split; [unfold items_of; rewrite Hi; reflexivity |].
    split; [exact Hc |]. split; [reflexivity |].
    intros _ HL. unfold next_link. rewrite Hn.
    destruct (Z.ltb_spec (offset + effectiveLimit limit) (Z.of_nat (length ids)));
      [lia | reflexivity].
  - eexists _, _. split; [reflexivity |]. repeat split; discriminate.
Qed.

Lemma offset_past_end_empty_page_witness :
  exists r w',
    handleList Fixtures.byteCompare Fixtures.items_abc "items" true (Some 2) 7
      Fixtures.idle = Returned r w' /\
    status r = 200 /\
    items_of r = [] /\
    data_field r "count" = Some (JNum 0) /\
    outbound w' = outbound Fixtures.idle ++ [listingRequest "items"] /\
    (true = true -> 0 < effectiveLimit (Some 2) -> next_link r = None).
Proof.
  apply (offset_past_end_empty_page Fixtures.byteCompare Fixtures.items_abc "items" true
           (Some 2) 7 Fixtures.idle ["a"; "b"; "c"]).
  - left. reflexivity.
  - reflexivity.
  - reflexivity.
  - simpl. lia.
Defined.

(** *** Manifests that cannot be processed *)

Lemma is_json_file_throws f : is_json_file f = None <-> throwing_entry f = true.
Proof.
  unfold is_json_file, throwing_entry, get_property.
  destruct f as [| b | n | s | l | fields]; try (split; discriminate); [tauto |].
  destruct (assoc "type" fields) as [[| | | t | |]|]; try (split; discriminate).
  destruct (String.eqb t "file"); [| split; discriminate]. cbn [andb].
  destruct (assoc "name" fields) as [[| | | name | |]|];
    first [tauto | split; discriminate].
Qed.

Lemma filter_throwing_throws fs :
  filter_throwing is_json_file fs = None <-> existsb throwing_entry fs = true.
Proof.
  induction fs as [|f fs IH]; [split; discriminate |].
  cbn [filter_throwing existsb]. rewrite orb_true_iff, <- IH, <- is_json_file_throws.
  destruct (is_json_file f) as [[]|], (filter_throwing is_json_file fs);
    split; first [discriminate | tauto | intros [H | H]; discriminate H | auto].
Qed.

Lemma filter_throwing_kept fs kept :
  filter_throwing is_json_file fs = Some kept ->
  Forall (fun f => is_json_file f = Some true) kept.
Proof.
  revert kept. induction fs as [|f fs IH]; intros kept.
  - intros [= <-]. constructor.
  - cbn [filter_throwing].
    destruct (is_json_file f) as [[]|] eqn:Hf,
             (filter_throwing is_json_file fs) as [k|]; try discriminate.
    + intros [= <-]. constructor; [exact Hf | apply IH; reflexivity].
    + intros [= <-]. apply IH. reflexivity.
Qed.

(** An entry that passed the filter has a name to take the identifier from. *)
Lemma file_id_kept f : is_json_file f = Some true -> is_Some (file_id f).
Proof.
  unfold is_json_file, file_id.
  destruct (get_property f "type") as [[[| | | t | |]|]|]; try discriminate.
  destruct (String.eqb t "file"); [| discriminate].
  destruct (get_property f "name") as [[[| | | name | |]|]|]; try discriminate.
  eauto.
Qed.

Lemma allJsonFiles_throws cmp files :
  allJsonFiles cmp files = None <-> unusable_manifest (Json files) = true.
Proof.
  unfold allJsonFiles, unusable_manifest.
  destruct files as [| b | n | s | fs | fields]; try tauto.
  rewrite <- filter_throwing_throws.
  destruct (filter_throwing is_json_file fs) as [kept|] eqn:Hk; [| tauto].
  assert (Hids : is_Some (mapM file_id kept)).
  { apply mapM_is_Some. apply filter_throwing_kept in Hk.
    eapply Forall_impl; [exact Hk |]. intros f. apply file_id_kept. }
  destruct Hids as [ids ->]. split; discriminate.
Qed.

(** X13.  A directory listing that is served with a 2xx status but cannot be
    processed (its body is not JSON, is not an array, holds [null], or holds
    a file entry without a string name) makes the request fail with
    500 "Internal Server Error": one outbound request, nothing cached.  Any
    other listing body is answered 200 in list-only mode; entries that are
    not files are skipped, whatever they hold. *)
Theorem unusable_manifest_fails_request cmp net type q w upstream :
  collection_type type ->
  cache w !! listCacheKey type (query_full (mkRequest "GET" ("/v1/" +:+ type) q)) = None ->
  net (listingUrl type) = Answer upstream ->
  ok upstream = true ->
  let answer := fetch cmp net (mkRequest "GET" ("/v1/" +:+ type) q) w in
  (unusable_manifest (body upstream) = true ->
   answer = (jsonResponse (error_body "Internal Server Error") 500,
             mkWorld (cache w) (outbound w ++ [listingRequest type]))) /\
  (unusable_manifest (body upstream) = false ->
   query_full (mkRequest "GET" ("/v1/" +:+ type) q) = false ->
   status answer.1 = 200).
Proof.
  intros Htype Hmiss Hnet Hok answer. subst answer.
  rewrite fetch_plan by reflexivity.
  unfold planRoute. cbv zeta. cbn [pathname].
  rewrite (listMatch_collection _ Htype), (collection_not_single_file _ Htype),
    (collection_type_present _ Htype).
  unfold planList. rewrite (collection_type_present _ Htype). cbn [negb].
  rewrite (collection_type_own _ Htype). cbn [render]. cbv zeta.
  unfold run_plan. rewrite Hmiss.
  unfold freshList. rewrite Hnet, Hok. cbv zeta. split.
  - intros Hbad. destruct (body upstream) as [| files |]; try reflexivity.
    apply (proj2 (allJsonFiles_throws cmp files)) in Hbad. rewrite Hbad. reflexivity.
  - intros Hgood ->. destruct (body upstream) as [| files |]; try discriminate.
    destruct (allJsonFiles cmp files) as [ids|] eqn:Hids; [reflexivity |].
    apply (proj1 (allJsonFiles_throws cmp files)) in Hids. congruence.
Qed.

Lemma unusable_manifest_fails_request_witness :
  let net := Fixtures.net_of
               [(listingUrl "items", Fixtures.found (JArr [Fixtures.file "a.json"; JNull]))] in
  let answer := fetch Fixtures.byteCompare net (mkRequest "GET" ("/v1/" +:+ "items") [])
                  Fixtures.idle in
  (unusable_manifest (Json (JArr [Fixtures.file "a.json"; JNull])) = true ->
   answer = (jsonResponse (error_body "Internal Server Error") 500,
             mkWorld (cache Fixtures.idle)
               (outbound Fixtures.idle ++ [listingRequest "items"]))) /\
  (unusable_manifest (Json (JArr [Fixtures.file "a.json"; JNull])) = false ->
   query_full (mkRequest "GET" ("/v1/" +:+ "items") []) = false ->
   status answer.1 = 200).
Proof.
  intros net.
  apply (unusable_manifest_fails_request Fixtures.byteCompare net "items" [] Fixtures.idle
           (mkResponse 200 ∅ (Json (JArr [Fixtures.file "a.json"; JNull])))).
  - left. reflexivity.
  - reflexivity.
  - reflexivity.
  - reflexivity.
Defined.

(** *** The links of a list-only response *)



Lemma collection_type_name type : collection_type type -> type_name type.
Proof.
  intros H. apply collection_type_cases in H.
  destruct H as [-> | [-> | [-> | ->]]]; (split; [discriminate | reflexivity]).
Qed.








(** ** Requests that do not share a cache key *)

(** The only thing a request changes in the cache is the entry under its
    own key. *)
Lemma fetch_cache_step cmp net request w :
  cache (fetch cmp net request w).2 = cache w \/
  exists key stored,
    cacheKey request = Some key /\
    cache (fetch cmp net request w).2 = <[key := stored]> (cache w).
Proof.
  destruct (String.eqb (method request) "OPTIONS") eqn:Hm.
  { unfold fetch. rewrite Hm. left. reflexivity. }
  rewrite (fetch_plan _ _ _ _ Hm).
  pose proof (plan_key_route cmp net request) as Hkeyof.
  destruct (planRoute cmp net request) as [r|key fresh]; [left; reflexivity |].
  cbn [run_plan plan_key] in *.
  destruct (cache w !! key); [left; reflexivity |].
  destruct fresh as [log|r log|r log]; [left; reflexivity | left; reflexivity |].
  right. exists key, r. split; [symmetry; exact Hkeyof | reflexivity].
Qed.

(** The response to a request depends on the world through the entry under
    its key only. *)
Lemma fetch_reads_own_key cmp net request w1 w2 :
  (forall key, cacheKey request = Some key -> cache w1 !! key = cache w2 !! key) ->
  (fetch cmp net request w1).1 = (fetch cmp net request w2).1.
Proof.
  intros Hsame.
  destruct (String.eqb (method request) "OPTIONS") eqn:Hm.
  { unfold fetch. rewrite Hm. reflexivity. }
  rewrite !(fetch_plan _ _ _ _ Hm).
  pose proof (plan_key_route cmp net request) as Hkeyof.
  destruct (planRoute cmp net request) as [r|key fresh]; [reflexivity |].
  cbn [run_plan plan_key] in *. rewrite (Hsame key (eq_sym Hkeyof)).
  destruct (cache w2 !! key); [reflexivity |].
  destruct fresh; reflexivity.
Qed.

(** X15.  Requests that do not share a cache key do not interfere: the
    response to a request is the same whether or not another request, with
    another key or with none, was served before it. *)
Theorem distinct_keys_do_not_interfere cmp net request1 request2 w :
  (forall key, cacheKey request1 = Some key -> cacheKey request2 <> Some key) ->
  (fetch cmp net request2 (fetch cmp net request1 w).2).1 =
  (fetch cmp net request2 w).1.
Proof.
  intros Hdistinct. apply fetch_reads_own_key. intros key2 Hkey2.
  destruct (fetch_cache_step cmp net request1 w) as [-> | (key1 & stored & Hkey1 & ->)];
    [reflexivity |].
  apply lookup_insert_ne. intros ->. exact (Hdistinct _ Hkey1 Hkey2).
Qed.

Lemma distinct_keys_do_not_interfere_witness :
  (fetch Fixtures.byteCompare Fixtures.items_abc (Fixtures.GET "/v1/items" [])
     (fetch Fixtures.byteCompare Fixtures.items_abc
        (Fixtures.GET "/v1/items" [("full", "true")]) Fixtures.idle).2).1 =
  (fetch Fixtures.byteCompare Fixtures.items_abc (Fixtures.GET "/v1/items" [])
     Fixtures.idle).1.
Proof.
  apply (distinct_keys_do_not_interfere Fixtures.byteCompare Fixtures.items_abc
           (Fixtures.GET "/v1/items" [("full", "true")]) (Fixtures.GET "/v1/items" [])
           Fixtures.idle).
  intros key H1 H2. vm_compute in H1, H2. rewrite <- H1 in H2. discriminate H2.
Defined.

(** ** The list-only mode and the listing of the earlier revision *)

(** The link-carrying pair the earlier revision builds for an identifier. *)
Lemma legacy_mapM type kept :
  mapM (Legacy.item_of type) kept =
  map (fun id => (id, "/v1/" +:+ type +:+ "/" +:+ id)) <$> mapM file_id kept.
Proof.
  induction kept as [|f kept IH]; [reflexivity |].
  cbn [mapM]. rewrite IH. destruct (mapM file_id kept) as [rest|];
    unfold Legacy.item_of, file_id;
    destruct (get_property f "name") as [[[| | | name | |]|]|]; reflexivity.
Qed.

(** Sorting the pairs by identifier is sorting the identifiers. *)
Lemma legacy_insert_sorted cmp (f : string -> string) a l :
  Legacy.insert_sorted cmp (a, f a) (map (fun id => (id, f id)) l) =
  map (fun id => (id, f id)) (insert_sorted cmp a l).
Proof.
  induction l as [|b l IH]; [reflexivity |].
  cbn [map Legacy.insert_sorted insert_sorted fst].
  destruct (cmp a b <=? 0); [reflexivity |].
  cbn [map]. rewrite IH. reflexivity.
Qed.

Lemma legacy_sort cmp (f : string -> string) l :
  Legacy.sort cmp (map (fun id => (id, f id)) l) =
  map (fun id => (id, f id)) (sort cmp l).
Proof.
  induction l as [|a l IH]; [reflexivity |].
  cbn [map Legacy.sort sort foldr].
  fold (Legacy.sort cmp (map (fun id => (id, f id)) l)). fold (sort cmp l).
  rewrite IH. apply legacy_insert_sorted.
Qed.

Lemma legacy_items cmp type files :
  Legacy.items cmp type files =
  map (fun id => (id, "/v1/" +:+ type +:+ "/" +:+ id)) <$> allJsonFiles cmp files.
Proof.
  unfold Legacy.items, allJsonFiles.
  destruct files as [| | | | fs |]; try reflexivity.
  destruct (filter_throwing is_json_file fs) as [kept|]; [| reflexivity].
  rewrite legacy_mapM. destruct (mapM file_id kept) as [ids|]; [| reflexivity].
  cbn [fmap option_fmap option_map]. f_equal.
  apply (legacy_sort cmp (fun id => "/v1/" +:+ type +:+ "/" +:+ id)).
Qed.

Lemma legacy_listData type ids :
  Legacy.listData type (map (fun id => (id, "/v1/" +:+ type +:+ "/" +:+ id)) ids) =
  listData type ids.
Proof.
  unfold Legacy.listData, listData. cbv zeta.
  rewrite !length_map, map_map. reflexivity.
Qed.

Lemma set_header_commute k1 v1 k2 v2 r :
  k1 <> k2 ->
  set_header k1 v1 (set_header k2 v2 r) = set_header k2 v2 (set_header k1 v1 r).
Proof.
  intros Hk. unfold set_header. cbn [status headers body]. f_equal.
  apply insert_insert_ne. exact Hk.
Qed.

Lemma set_header_twice k v1 v2 r :
  set_header k v1 (set_header k v2 r) = set_header k v1 r.
Proof.
  unfold set_header. cbn [status headers body]. f_equal. apply insert_insert_eq.
Qed.

(** Setting [Cache-Control] on a response that went through
    [addCorsHeaders] is setting it before. *)
Lemma cache_control_under_cors v r :
  set_header "Cache-Control" v (addCorsHeaders r) =
  addCorsHeaders (set_header "Cache-Control" v r).
Proof.
  unfold addCorsHeaders. cbv zeta.
  repeat (rewrite (set_header_commute "Cache-Control") by discriminate; f_equal).
Qed.

(** X16.  The list-only mode is the listing of the earlier revision: with
    an offset that is absent, zero or negative, and whatever the limit,
    [handleList] issues the same outbound requests, fills the same cache
    key and answers with the same status and body as the earlier
    [handleList]; the answers differ in the value of [Cache-Control] of a
    freshly built listing, and in nothing else. *)
Theorem list_only_is_the_original_listing cmp net type limit offset w :
  offset <= 0 ->
  match Legacy.handleList cmp net type w,
        handleList cmp net type false limit offset w with
  | Returned r1 w1, Returned r2 w2 =>
      (r2 = r1 \/ r2 = set_header "Cache-Control" cache_control r1) /\
      outbound w2 = outbound w1 /\
      (forall key, cache w2 !! key = None <-> cache w1 !! key = None)
  | Threw w1, Threw w2 => w2 = w1
  | _, _ => False
  end.
Proof.
  intros Hoff. rewrite handleList_plan. unfold Legacy.handleList, planList.
  destruct (negb (present (COLLECTION_TYPES type))).
  { cbn. tauto. }
  cbv zeta. unfold run_plan, listCacheKey. rewrite append_empty_r.
  unfold bind at 1, cache_match.
  destruct (cache w !! listingUrl (render (COLLECTION_TYPES type))) eqn:Hkey.
  { cbn. tauto. }
  unfold freshList, bind at 1, fetch_url.
  destruct (net _) as [|upstream]; [reflexivity |].
  destruct (ok upstream); cbn [negb]; [| cbn; tauto].
  unfold bind at 1, json.
  destruct (body upstream) as [|files|]; try reflexivity.
  unfold ret at 1. unfold bind at 1, lift. rewrite legacy_items.
  destruct (allJsonFiles cmp files) as [ids|]; [| reflexivity].
  cbn [fmap option_fmap option_map]. unfold ret at 1. cbv zeta.
  rewrite legacy_listData.
  unfold paginate. destruct (Z.ltb_spec 0 offset); [lia |].
  unfold bind, cache_put, ret. cbn [cache outbound fresh_log].
  split; [| split].
  - right. unfold cacheable. rewrite cache_control_under_cors, set_header_twice.
    reflexivity.
  - reflexivity.
  - intros key. rewrite !lookup_insert. case_decide; [split; discriminate | reflexivity].
Qed.

Lemma list_only_is_the_original_listing_witness :
  match Legacy.handleList Fixtures.byteCompare Fixtures.items_abc "items" Fixtures.idle,
        handleList Fixtures.byteCompare Fixtures.items_abc "items" false (Some 2) 0
          Fixtures.idle with
  | Returned r1 w1, Returned r2 w2 =>
      (r2 = r1 \/ r2 = set_header "Cache-Control" cache_control r1) /\
      outbound w2 = outbound w1 /\
      (forall key, cache w2 !! key = None <-> cache w1 !! key = None)
  | Threw w1, Threw w2 => w2 = w1
  | _, _ => False
  end.
Proof.
  apply (list_only_is_the_original_listing Fixtures.byteCompare Fixtures.items_abc "items"
           (Some 2) 0 Fixtures.idle).
  lia.
Defined.

(** ** What a listing holds, and what a file endpoint passes through *)

(** X17.  With an offset that is absent, zero or negative, the list-only
    answer built from a well-formed manifest lists the kept entries and
    nothing else: its identifiers are a permutation of the names of the kept
    entries with their first ".json" removed, they are in the order of
    [localeCompare], each comes with its link, and [count] is the number of
    kept entries. *)
Theorem listing_sorted_and_complete cmp net type limit offset w upstream es :
  collection_type type ->
  offset <= 0 ->
  cache w !! listCacheKey type false = None ->
  net (listingUrl type) = Answer upstream ->
  ok upstream = true ->
  body upstream = Json (JArr (map json_of_entry es)) ->
  (forall x y, 0 < cmp x y -> cmp y x <= 0) ->
  exists r w' ids,
    handleList cmp net type false limit offset w = Returned r w' /\
    items_of r =
      map (fun id => JObj [("id", JStr id);
                           ("url", JStr ("/v1/" +:+ type +:+ "/" +:+ id))]) ids /\
    Sorted (fun x y => cmp x y <= 0) ids /\
    Permutation ids
      (map (fun e => JS.replace (entry_name e) ".json" "") (List.filter kept es)) /\
    data_field r "count" = Some (JNum (Z.of_nat (length (List.filter kept es)))).
Proof.
  intros Htype Hoff Hmiss Hnet Hok Hbody Hcmp.
  set (names := map (fun e => JS.replace (entry_name e) ".json" "") (List.filter kept es)).
  assert (Hdir : directory cmp net type = Some (sort cmp names)).
  { unfold directory. rewrite Hnet, Hok, Hbody. apply allJsonFiles_manifest. }
  rewrite (handleList_miss _ _ _ _ _ _ _ _ Htype Hmiss Hdir). cbv zeta.
  unfold paginate. destruct (Z.ltb_spec 0 offset); [lia |].
  eexists _, _, (sort cmp names). split; [reflexivity |].
  split; [reflexivity |]. split; [apply sort_sorted, Hcmp |].
  split; [apply sort_perm |].
  cbn. rewrite length_map. do 3 f_equal.
  rewrite (Permutation_length (sort_perm cmp names)). unfold names.
  rewrite length_map. reflexivity.
Qed.

Lemma byteCompare_antisym x y :
  0 < Fixtures.byteCompare x y -> Fixtures.byteCompare y x <= 0.
Proof.
  unfold Fixtures.byteCompare. rewrite (String.compare_antisym x y).
  destruct (String.compare y x); cbn; lia.
Qed.

Lemma listing_sorted_and_complete_witness :
  let es := [mkEntry "b.json" "file"; mkEntry "docs" "dir"; mkEntry "a.json" "file";
             mkEntry "_schema.json" "file"] in
  let net := Fixtures.net_of
               [(listingUrl "items", Fixtures.found (JArr (map json_of_entry es)))] in
  exists r w' ids,
    handleList Fixtures.byteCompare net "items" false None 0 Fixtures.idle = Returned r w' /\
    items_of r =
      map (fun id => JObj [("id", JStr id);
                           ("url", JStr ("/v1/" +:+ "items" +:+ "/" +:+ id))]) ids /\
    Sorted (fun x y => Fixtures.byteCompare x y <= 0) ids /\
    Permutation ids
      (map (fun e => JS.replace (entry_name e) ".json" "") (List.filter kept es)) /\
    data_field r "count" = Some (JNum (Z.of_nat (length (List.filter kept es)))).
Proof.
  intros es net.
  apply (listing_sorted_and_complete Fixtures.byteCompare net "items" None 0 Fixtures.idle
           (mkResponse 200 ∅ (Json (JArr (map json_of_entry es)))) es).
  - left. reflexivity.
  - lia.
  - reflexivity.
  - reflexivity.
  - reflexivity.
  - reflexivity.
  - apply byteCompare_antisym.
Defined.

(** X18.  The file endpoints pass the upstream body through untouched: on a
    cache miss with a 2xx upstream answer, [/v1/{single-file type}] and
    [/v1/{collection type}/{id}] answer 200 with the very body of the
    upstream, JSON or not, under headers that do not depend on the upstream
    answer; what is stored is that body with the two caching headers, and
    the one outbound request goes to the URL that is the cache key. *)
Theorem file_endpoints_pass_through cmp net request w key upstream :
  String.eqb (method request) "OPTIONS" = false ->
  cacheKey request = Some key ->
  (forall t, listMatch (pathname request) = Some t ->
             present (SINGLE_FILE_TYPES t) = true) ->
  cache w !! key = None ->
  net key = Answer upstream ->
  ok upstream = true ->
  let '(r, w') := fetch cmp net request w in
  status r = 200 /\
  body r = body upstream /\
  headers r = headers (addCorsHeaders (passThrough (mkResponse 200 ∅ NoBody))) /\
  cache w' = <[key := passThrough upstream]> (cache w) /\
  outbound w' = outbound w ++ [(key, [user_agent])].
Proof.
  intros Hm Hkey Hfile Hmiss Hnet Hok. rewrite (fetch_plan _ _ _ _ Hm).
  revert Hkey. unfold cacheKey, planRoute. cbv zeta.
  destruct (listMatch (pathname request)) as [t|].
  - rewrite (Hfile t eq_refl). intros [= <-]. unfold planSingleFile, run_plan, freshFile.
    rewrite Hmiss, Hnet, Hok. repeat split.
  - destruct (itemMatch (pathname request)) as [[t i]|]; [| discriminate].
    unfold planGetItem. destruct (present (COLLECTION_TYPES t)); [| discriminate].
    intros [= <-]. cbn [negb]. cbv zeta. unfold run_plan, freshFile.
    rewrite Hmiss, Hnet, Hok. repeat split.
Qed.

Lemma file_endpoints_pass_through_witness :
  let '(r, w') := fetch Fixtures.byteCompare Fixtures.items_abc
                    (Fixtures.GET "/v1/items/a" []) Fixtures.idle in
  status r = 200 /\
  body r = body (mkResponse 200 ∅ (Json (Fixtures.item "a"))) /\
  headers r = headers (addCorsHeaders (passThrough (mkResponse 200 ∅ NoBody))) /\
  cache w' = <[itemUrl "items" "a" := passThrough (mkResponse 200 ∅ (Json (Fixtures.item "a")))]>
               (cache Fixtures.idle) /\
  outbound w' = outbound Fixtures.idle ++ [(itemUrl "items" "a", [user_agent])].
Proof.
  apply (file_endpoints_pass_through Fixtures.byteCompare Fixtures.items_abc
           (Fixtures.GET "/v1/items/a" []) Fixtures.idle (itemUrl "items" "a")
           (mkResponse 200 ∅ (Json (Fixtures.item "a")))).
  - reflexivity.
  - reflexivity.
  - intros t Ht. discriminate Ht.
  - reflexivity.
  - reflexivity.
  - reflexivity.
Defined.

(** ** The API information *)

Lemma item_path_matches type id :
  collection_type type -> id_name id ->
  itemMatch (("/v1/" +:+ type +:+ "/") +:+ id) = Some (type, id).
Proof.
  intros Htype Hid. apply itemMatch_spec.
  split; [apply collection_type_name, Htype |]. split; [exact Hid |]. left.
  apply collection_type_cases in Htype.
  destruct Htype as [-> | [-> | [-> | ->]]]; reflexivity.
Qed.

(** X19.  The API information and the router agree: every endpoint it
    advertises is served (a plain path by the list route for a type of the
    tables, a template by the item route of a collection type for every
    identifier of the route grammar), every type the list route serves from
    its tables is advertised, and the information itself is the answer to
    [/], [/v1] and [/v1/]. *)
Theorem advertised_endpoints_are_served cmp net m q w :
  Forall endpoint_served advertised_endpoints /\
  Forall (fun type => In ("/v1/" +:+ type) advertised_endpoints) served_types /\
  Forall (fun path =>
            fetch cmp net (mkRequest m path q) w =
            if String.eqb m "OPTIONS" then (handleCors, w)
            else (jsonResponse apiInfo 200, w))
         ["/"; "/v1"; "/v1/"].
Proof.
  assert (Hitem : forall type, collection_type type ->
            exists type', collection_type type' /\
              forall id, id_name id ->
                itemMatch (("/v1/" +:+ type +:+ "/") +:+ id) = Some (type', id)).
  { intros type Htype. exists type. split; [exact Htype |].
    intros id Hid. apply item_path_matches; assumption. }
  unfold advertised_endpoints, apiInfo, served_types.
  cbn [assoc String.eqb Ascii.eqb Bool.eqb omap snd list_omap].
  split; [| split];
    repeat match goal with
           | |- Forall _ (_ :: _) => apply Forall_cons_2
           | |- Forall _ [] => apply Forall_nil_2
           end.
  1-13: unfold endpoint_served;
    match goal with
    | |- context [cut ?c ?s] =>
        let v := eval vm_compute in (cut c s) in
        change (cut c s) with v
    end; cbv beta iota;
    first
      [ eexists; split; [reflexivity | cbn; tauto]
      | apply (Hitem "items"); cbn; tauto
      | apply (Hitem "hideout"); cbn; tauto
      | apply (Hitem "quests"); cbn; tauto
      | apply (Hitem "map-events"); cbn; tauto ].
  1-9: cbn; tauto.
  all: unfold fetch; cbn [method]; destruct (String.eqb m "OPTIONS"); reflexivity.
Qed.
